(** * BID monitor (server edition): ledger, fetch loop and processor

    A shallow embedding of [src/main.py] (class [BIDMonitorServer]):
    the fingerprint of a record, the day roll-over of the ledger file, the
    CAPTCHA-gated fetch loop and the processing of a result batch.

    Conventions of the embedding.
    - A Python [str] is a [string] holding one [ascii] per code point, so
      texts range over U+0000..U+00FF; [len] is [String.length] and
      [str.encode()] is UTF-8 (two bytes for U+0080..U+00FF).
    - A Python [dict] is a [gmap]; a missing key is [None] where Python
      raises [KeyError].
    - Every call that leaves the class (the functions imported from
      [csgoroll_server], the clock, the ledger file) is answered by an
      [ambiente], as a function of the calls made so far; each call and
      its answer is appended to the trace.

    [job_wrapper] with [calcular_proxima_execucao], and the class
    [HealthServer] of [src/health_server.py] (module [HealthServer]), are
    embedded in the same way.  The threads and the waiting loops of
    [iniciar_monitoramento], [monitor_loop] and [parar_monitoramento],
    the HTTP handler and [main] are not embedded. *)

From Stdlib Require Import ZArith Ascii String List Lia.
From stdpp Require Import base option gmap strings list fin_maps pretty.

Local Open Scope Z_scope.

(** ** hashlib.md5 (RFC 1321) on bytes held as integers 0..255 *)
Module Md5.

Definition mask32 : Z := 0xFFFFFFFF.

Definition add32 (x y : Z) : Z := (x + y) mod 2 ^ 32.

Definition rotl32 (x n : Z) : Z :=
  Z.land (Z.lor (Z.shiftl x n) (Z.shiftr x (32 - n))) mask32.

Definition not32 (x : Z) : Z := Z.lxor x mask32.

Definition K : list Z :=
  [ 0xd76aa478; 0xe8c7b756; 0x242070db; 0xc1bdceee;
    0xf57c0faf; 0x4787c62a; 0xa8304613; 0xfd469501;
    0x698098d8; 0x8b44f7af; 0xffff5bb1; 0x895cd7be;
    0x6b901122; 0xfd987193; 0xa679438e; 0x49b40821;
    0xf61e2562; 0xc040b340; 0x265e5a51; 0xe9b6c7aa;
    0xd62f105d; 0x02441453; 0xd8a1e681; 0xe7d3fbc8;
    0x21e1cde6; 0xc33707d6; 0xf4d50d87; 0x455a14ed;
    0xa9e3e905; 0xfcefa3f8; 0x676f02d9; 0x8d2a4c8a;
    0xfffa3942; 0x8771f681; 0x6d9d6122; 0xfde5380c;
    0xa4beea44; 0x4bdecfa9; 0xf6bb4b60; 0xbebfbc70;
    0x289b7ec6; 0xeaa127fa; 0xd4ef3085; 0x04881d05;
    0xd9d4d039; 0xe6db99e5; 0x1fa27cf8; 0xc4ac5665;
    0xf4292244; 0x432aff97; 0xab9423a7; 0xfc93a039;
    0x655b59c3; 0x8f0ccc92; 0xffeff47d; 0x85845dd1;
    0x6fa87e4f; 0xfe2ce6e0; 0xa3014314; 0x4e0811a1;
    0xf7537e82; 0xbd3af235; 0x2ad7d2bb; 0xeb86d391 ].

Definition S : list Z :=
  [ 7; 12; 17; 22; 7; 12; 17; 22; 7; 12; 17; 22; 7; 12; 17; 22;
    5; 9; 14; 20; 5; 9; 14; 20; 5; 9; 14; 20; 5; 9; 14; 20;
    4; 11; 16; 23; 4; 11; 16; 23; 4; 11; 16; 23; 4; 11; 16; 23;
    6; 10; 15; 21; 6; 10; 15; 21; 6; 10; 15; 21; 6; 10; 15; 21 ].

Record regs := Regs { rA : Z; rB : Z; rC : Z; rD : Z }.

Definition init : regs :=
  Regs 0x67452301 0xefcdab89 0x98badcfe 0x10325476.

(** The message: the bytes, one [0x80], zeros up to 56 modulo 64, and the
    bit length on eight little-endian bytes. *)
Definition le_bytes (n : nat) (x : Z) : list Z :=
  map (fun i => Z.land (Z.shiftr x (8 * Z.of_nat i)) 255) (seq 0 n).

Definition pad (msg : list Z) : list Z :=
  let len := Z.of_nat (length msg) in
  let zeros := Z.to_nat ((55 - len) mod 64) in
  msg ++ [128] ++ repeat 0 zeros ++ le_bytes 8 ((8 * len) mod 2 ^ 64).

Definition le_word (bs : list Z) : Z :=
  fold_right (fun b acc => b + 256 * acc) 0 bs.

Fixpoint words (n : nat) (bs : list Z) : list Z :=
  match n with
  | O => []
  | Datatypes.S n' => le_word (firstn 4 bs) :: words n' (skipn 4 bs)
  end.

Definition round (M : list Z) (r : regs) (i : nat) : regs :=
  let '(Regs a b c d) := r in
  let j := Z.of_nat i in
  let '(f, g) :=
    if j <? 16 then (Z.lor (Z.land b c) (Z.land (not32 b) d), j)
    else if j <? 32 then
      (Z.lor (Z.land d b) (Z.land (not32 d) c), (5 * j + 1) mod 16)
    else if j <? 48 then (Z.lxor (Z.lxor b c) d, (3 * j + 5) mod 16)
    else (Z.lxor c (Z.lor b (not32 d)), (7 * j) mod 16) in
  let f' := add32 (add32 (add32 f a) (nth i K 0)) (nth (Z.to_nat g) M 0) in
  Regs d (add32 b (rotl32 f' (nth i S 0))) b c.

Definition block (r : regs) (bs : list Z) : regs :=
  let M := words 16 bs in
  let '(Regs a b c d) := fold_left (round M) (seq 0 64) r in
  Regs (add32 (rA r) a) (add32 (rB r) b) (add32 (rC r) c) (add32 (rD r) d).

Fixpoint blocks (n : nat) (r : regs) (bs : list Z) : regs :=
  match n with
  | O => r
  | Datatypes.S n' => blocks n' (block r (firstn 64 bs)) (skipn 64 bs)
  end.

Definition digest (msg : list Z) : regs :=
  let p := pad msg in
  blocks (length p / 64) init p.

Definition hex_digit (x : Z) : ascii :=
  match x with
  | 0 => "0" | 1 => "1" | 2 => "2" | 3 => "3" | 4 => "4" | 5 => "5"
  | 6 => "6" | 7 => "7" | 8 => "8" | 9 => "9" | 10 => "a" | 11 => "b"
  | 12 => "c" | 13 => "d" | 14 => "e" | _ => "f"
  end%char.

Definition hex_byte (b : Z) (rest : string) : string :=
  String (hex_digit (Z.shiftr b 4)) (String (hex_digit (Z.land b 15)) rest).

Definition hex_word (w : Z) (rest : string) : string :=
  fold_right hex_byte rest (le_bytes 4 w).

Definition hexdigest (r : regs) : string :=
  hex_word (rA r) (hex_word (rB r) (hex_word (rC r) (hex_word (rD r) EmptyString))).

End Md5.

(** ** Python text *)

Definition code_point (c : ascii) : Z := Z.of_N (N_of_ascii c).

(** [str.encode()]: UTF-8. *)
Definition encode_char (c : ascii) : list Z :=
  let n := code_point c in
  if n <? 128 then [n] else [192 + Z.shiftr n 6; 128 + Z.land n 63].

Fixpoint encode (s : string) : list Z :=
  match s with
  | EmptyString => []
  | String c s' => encode_char c ++ encode s'
  end.

Definition md5_hexdigest (s : string) : string :=
  Md5.hexdigest (Md5.digest (encode s)).

(** [str.lower()] on U+0000..U+00FF: A-Z, and the accented capitals
    U+00C0..U+00DE except the multiplication sign U+00D7. *)
Definition lower_char (c : ascii) : ascii :=
  let n := code_point c in
  if ((65 <=? n) && (n <=? 90)) || ((192 <=? n) && (n <=? 222) && negb (n =? 215))
  then ascii_of_N (Z.to_N (n + 32)) else c.

Fixpoint lower (s : string) : string :=
  match s with
  | EmptyString => EmptyString
  | String c s' => String (lower_char c) (lower s')
  end.

(** [sub in s] for strings. *)
Fixpoint contem (sub s : string) : bool :=
  String.prefix sub s ||
  match s with
  | EmptyString => false
  | String _ s' => contem sub s'
  end.

(** ** Records, ledger entries and the fingerprint *)

(** The values a field of a record holds after [resp.json()]: JSON null,
    booleans, integers and strings (fractional numbers and nested arrays
    or objects as field values are not represented).  Equality is
    identity of the JSON value. *)
Inductive scalar :=
| SNone
| SBool (b : bool)
| SInt (z : Z)
| SStr (s : string).

#[global] Instance scalar_eq_dec : EqDecision scalar.
Proof. solve_decision. Defined.

(** What an f-string puts in place of [{v}]. *)
Definition py_str (v : scalar) : string :=
  match v with
  | SNone => "None"
  | SBool true => "True"
  | SBool false => "False"
  | SInt z => pretty z
  | SStr s => s
  end.

Abbreviation atleta := (gmap string scalar).

Definition identificador (codigo contrato data : scalar) : string :=
  py_str codigo +:+ "_" +:+ py_str contrato +:+ "_" +:+ py_str data.

(** [None] stands for the [KeyError] of a missing field. *)
Definition gerar_hash_atleta (atleta_data : atleta) : option string :=
  codigo ← atleta_data !! "codigo_atleta";
  contrato ← atleta_data !! "contrato_numero";
  data ← atleta_data !! "data_publicacao";
  Some (md5_hexdigest (identificador codigo contrato data)).

Record registro := Registro {
  reg_nome : scalar;
  reg_codigo_atleta : scalar;
  reg_contrato_numero : scalar;
  reg_data_publicacao : scalar;
  reg_data_postagem : string;
  reg_hash : string
}.

#[global] Instance registro_eq_dec : EqDecision registro.
Proof. solve_decision. Defined.

Abbreviation historico := (gmap string registro).

(** ** The world outside the class *)

(** A call either returns or raises. *)
Inductive outcome (A : Type) :=
| Ret (a : A)
| Raise.
Arguments Ret {A} a.
Arguments Raise {A}.

(** A path returned by a collaborator; [None] is Python's [None]. *)
Abbreviation caminho := (option string).

(** Python truthiness of a path: [None] and the empty text are false. *)
Definition verdadeiro (p : caminho) : bool :=
  match p with
  | Some (String _ _) => true
  | _ => false
  end.

(** An element of the list [resp.json()] gives: a JSON object, or any
    other JSON value (indexing it by a field name raises). *)
Inductive item :=
| IDict (a : atleta)
| IOutro.

(** What [resp.json()] does: raise, give something that is not a list, or
    give a list. *)
Inductive dados :=
| JsonErro
| JsonNaoLista
| JsonLista (l : list item).

Record resposta := Resposta { resp_text : string; resp_json : dados }.

(** What writing the ledger file does: it works; [open] fails and the file
    stays as it was; or the write fails after [open] truncated the file. *)
Inductive gravacao :=
| GravOk
| GravFalhaAbrir
| GravFalhaEscrita.

(** The file [atletas_postados.json]. *)
Inductive conteudo :=
| Ausente
| Gravado (h : historico)
| Ilegivel.

(** A call that leaves the class, with what it answered.  [Ler], [Salvar]
    and [Remover] are the read, the write and the [os.remove] of the
    ledger file. *)
Inductive event :=
| CriarPastas (r : outcome unit)
| ObterDataHoje (r : outcome string)
| PegarCsrfToken (r : outcome string)
| BaixarCaptcha (r : outcome string)
| OcrCaptcha (img : string) (r : outcome string)
| TentarBusca (token texto data : string) (r : outcome resposta)
| BaixarFoto (codigo nome : scalar) (r : outcome caminho)
| CriarCard (a : atleta) (foto : caminho) (r : outcome caminho)
| PostarNoX (a : atleta) (card : caminho) (r : outcome bool)
| LimparArquivos (foto card : caminho) (r : outcome unit)
| Ler (ok : bool)
| Salvar (h : historico) (r : gravacao)
| Remover (r : outcome unit).

(** The answers of the world.  The list is the trace so far, newest call
    first.  [MAX_TENTATIVAS] is the constant imported with the
    collaborators. *)
Record ambiente := Ambiente {
  MAX_TENTATIVAS : Z;
  criar_pastas : list event -> outcome unit;
  obter_data_hoje : list event -> outcome string;
  pegar_csrf_token : list event -> outcome string;
  baixar_captcha : list event -> outcome string;
  ocr_captcha : list event -> string -> outcome string;
  tentar_busca : list event -> string -> string -> string -> outcome resposta;
  baixar_foto_atleta : list event -> scalar -> scalar -> outcome caminho;
  criar_card_atleta : list event -> atleta -> caminho -> outcome caminho;
  postar_no_x : list event -> atleta -> caminho -> outcome bool;
  limpar_arquivos_atleta : list event -> caminho -> caminho -> outcome unit;
  agora_isoformat : list event -> string;
  ler_arquivo : list event -> bool;
  gravar_arquivo : list event -> historico -> gravacao;
  remover_arquivo : list event -> outcome unit
}.

(** The monitor ([self.ultimo_dia_verificado]), the ledger file and the
    trace. *)
Record estado := Estado {
  ultimo_dia_verificado : option string;
  arquivo_historico : conteudo;
  rastro : list event
}.

Definition registrar (ev : event) (st : estado) : estado :=
  Estado (ultimo_dia_verificado st) (arquivo_historico st) (ev :: rastro st).

Definition com_arquivo (c : conteudo) (st : estado) : estado :=
  Estado (ultimo_dia_verificado st) c (rastro st).

Definition com_dia (d : string) (st : estado) : estado :=
  Estado (Some d) (arquivo_historico st) (rastro st).

(** The calls made between two traces, newest first. *)
Definition eventos_desde (antes depois : list event) : list event :=
  take (length depois - length antes) depois.

Section Monitor.

Context (E : ambiente).

(** ** The ledger *)

(** [dia_atual] is [datetime.now().strftime('%Y-%m-%d')], read on entry. *)
Definition limpar_historico_se_novo_dia (dia_atual : string) (st : estado)
  : bool * estado :=
  match ultimo_dia_verificado st with
  | None => (false, com_dia dia_atual st)
  | Some ultimo =>
    if decide (dia_atual ≠ ultimo) then
      match arquivo_historico st with
      | Ausente => (true, com_dia dia_atual st)
      | _ =>
        let r := remover_arquivo E (rastro st) in
        let st1 := registrar (Remover r) st in
        match r with
        | Ret _ => (true, com_dia dia_atual (com_arquivo Ausente st1))
        | Raise => (false, st1)
        end
      end
    else (false, st)
  end.

(** The file is read when it exists; a read that fails, or a content
    that does not parse, gives the empty ledger. *)
Definition carregar_historico (st : estado) : historico * estado :=
  match arquivo_historico st with
  | Ausente => (∅, st)
  | Gravado h =>
    let ok := ler_arquivo E (rastro st) in
    (if ok then h else ∅, registrar (Ler ok) st)
  | Ilegivel => (∅, registrar (Ler false) st)
  end.

(** The exception of a failed write is caught in the method. *)
Definition salvar_historico (h : historico) (st : estado) : estado :=
  let r := gravar_arquivo E (rastro st) h in
  let st1 := registrar (Salvar h r) st in
  match r with
  | GravOk => com_arquivo (Gravado h) st1
  | GravFalhaAbrir => st1
  | GravFalhaEscrita => com_arquivo Ilegivel st1
  end.


(** ** The processor *)

(** The first loop of [processar_resultados]: the records whose
    fingerprint is not a key of the ledger, in batch order.  [None] is an
    exception raised in the loop: an element that is not an object, a
    record without one of the three key fields, or without the ['nome']
    that the log line reads. *)
Fixpoint filtrar_novos (l : list item) (h : historico)
  : option (list atleta) :=
  match l with
  | [] => Some []
  | IOutro :: _ => None
  | IDict a :: resto =>
    hash_atleta ← gerar_hash_atleta a;
    _ ← a !! "nome";
    novos ← filtrar_novos resto h;
    Some (match h !! hash_atleta with
          | None => a :: novos
          | Some _ => novos
          end)
  end.

(** The ledger of the caller (mutated in place by the source), the
    counter [postados_com_sucesso] and the world. *)
Record progresso := Progresso {
  pr_historico : historico;
  pr_postados : Z;
  pr_estado : estado
}.

(** The entry written for a published record and its key. *)
Definition novo_registro (a : atleta) (agora : string)
  : option (string * registro) :=
  hash_atleta ← gerar_hash_atleta a;
  nome ← a !! "nome";
  codigo ← a !! "codigo_atleta";
  contrato ← a !! "contrato_numero";
  data ← a !! "data_publicacao";
  Some (hash_atleta, Registro nome codigo contrato data agora hash_atleta).

(** [if postados_com_sucesso > 0: self.salvar_historico(historico)] *)
Definition salvar_se_postou (p : progresso) : progresso :=
  if 0 <? pr_postados p
  then Progresso (pr_historico p) (pr_postados p)
         (salvar_historico (pr_historico p) (pr_estado p))
  else p.

(** The [try] block of one record, with its [except] (which only logs).
    The result holds [foto_path] and [card_path] as the [finally] clause
    finds them. *)
Definition tentar_atleta (a : atleta) (p : progresso)
  : caminho * caminho * progresso :=
  let '(Progresso h n st) := p in
  match a !! "nome", a !! "codigo_atleta" with
  | Some nome, Some codigo =>
    let r1 := baixar_foto_atleta E (rastro st) codigo nome in
    let st1 := registrar (BaixarFoto codigo nome r1) st in
    match r1 with
    | Raise => (None, None, Progresso h n st1)
    | Ret foto =>
      let r2 := criar_card_atleta E (rastro st1) a foto in
      let st2 := registrar (CriarCard a foto r2) st1 in
      match r2 with
      | Raise => (foto, None, Progresso h n st2)
      | Ret card =>
        if verdadeiro card then
          let r3 := postar_no_x E (rastro st2) a card in
          let st3 := registrar (PostarNoX a card r3) st2 in
          match r3 with
          | Raise => (foto, card, Progresso h n st3)
          | Ret true =>
            match novo_registro a (agora_isoformat E (rastro st3)) with
            | None => (foto, card, Progresso h n st3)
            | Some (hash_atleta, reg) =>
              (foto, card,
               salvar_se_postou
                 (Progresso (<[hash_atleta := reg]> h) (n + 1) st3))
            end
          | Ret false => (foto, card, salvar_se_postou (Progresso h n st3))
          end
        else (foto, card, salvar_se_postou (Progresso h n st2))
      end
    end
  | _, _ => (None, None, p)
  end.

(** The [finally] clause; an exception of [limpar_arquivos_atleta] leaves
    the loop. *)
Definition limpar (foto card : caminho) (st : estado)
  : outcome unit * estado :=
  if verdadeiro foto || verdadeiro card then
    let r := limpar_arquivos_atleta E (rastro st) foto card in
    (r, registrar (LimparArquivos foto card r) st)
  else (Ret tt, st).

(** One turn of the second loop. *)
Definition processar_atleta (a : atleta) (p : progresso)
  : outcome unit * progresso :=
  let '(foto, card, p1) := tentar_atleta a p in
  let '(r, st2) := limpar foto card (pr_estado p1) in
  (r, Progresso (pr_historico p1) (pr_postados p1) st2).

Fixpoint processar_novos (novos : list atleta) (p : progresso)
  : outcome unit * progresso :=
  match novos with
  | [] => (Ret tt, p)
  | a :: resto =>
    match processar_atleta a p with
    | (Ret _, p2) => processar_novos resto p2
    | (Raise, p2) => (Raise, p2)
    end
  end.

(** The count returned, the ledger of the caller after the call, and the
    world. *)
Definition processar_resultados (resp : resposta) (h : historico)
  (st : estado) : Z * historico * estado :=
  match resp_json resp with
  | JsonErro => (0, h, st)
  | JsonNaoLista => (0, h, st)
  | JsonLista [] => (0, h, st)
  | JsonLista l =>
    match filtrar_novos l h with
    | None => (0, h, st)
    | Some [] => (0, h, st)
    | Some novos =>
      match processar_novos novos (Progresso h 0 st) with
      | (Raise, p) => (0, pr_historico p, pr_estado p)
      | (Ret _, p) =>
        (pr_postados p, pr_historico p,
         salvar_historico (pr_historico p) (pr_estado p))
      end
    end
  end.

(** ** The fetch loop *)

(** The [for tentativa in range(...)] loop; [ts] holds the attempt
    numbers still to run. *)
Fixpoint tentativas (csrf_token data_busca : string) (h : historico)
  (ts : list Z) (st : estado) : bool * estado :=
  match ts with
  | [] => (false, st)
  | _ :: ts' =>
    let r1 := baixar_captcha E (rastro st) in
    let st1 := registrar (BaixarCaptcha r1) st in
    match r1 with
    | Raise => tentativas csrf_token data_busca h ts' st1
    | Ret img_bytes =>
      let r2 := ocr_captcha E (rastro st1) img_bytes in
      let st2 := registrar (OcrCaptcha img_bytes r2) st1 in
      match r2 with
      | Raise => tentativas csrf_token data_busca h ts' st2
      | Ret captcha_text =>
        if (String.length captcha_text <? 3)%nat
        then tentativas csrf_token data_busca h ts' st2
        else
          let r3 :=
            tentar_busca E (rastro st2) csrf_token captcha_text data_busca in
          let st3 :=
            registrar (TentarBusca csrf_token captcha_text data_busca r3) st2 in
          match r3 with
          | Raise => tentativas csrf_token data_busca h ts' st3
          | Ret resp =>
            if contem "captcha" (lower (resp_text resp))
            then tentativas csrf_token data_busca h ts' st3
            else (true, (processar_resultados resp h st3).2)
          end
      end
    end
  end.

(** One cycle.  [Raise]: an exception of [criar_pastas] or
    [obter_data_hoje], which the method does not catch. *)
Definition buscar_e_processar_novos (dia_atual : string) (st : estado)
  : outcome bool * estado :=
  let st0 := (limpar_historico_se_novo_dia dia_atual st).2 in
  let r1 := criar_pastas E (rastro st0) in
  let st1 := registrar (CriarPastas r1) st0 in
  match r1 with
  | Raise => (Raise, st1)
  | Ret _ =>
    let '(h, st2) := carregar_historico st1 in
    let r3 := obter_data_hoje E (rastro st2) in
    let st3 := registrar (ObterDataHoje r3) st2 in
    match r3 with
    | Raise => (Raise, st3)
    | Ret data_busca =>
      let r4 := pegar_csrf_token E (rastro st3) in
      let st4 := registrar (PegarCsrfToken r4) st3 in
      match r4 with
      | Raise => (Ret false, st4)
      | Ret csrf_token =>
        let '(b, st5) :=
          tentativas csrf_token data_busca h
            (seqZ 1 (Z.min (MAX_TENTATIVAS E) 50)) st4 in
        (Ret b, st5)
      end
    end
  end.

(** A run: [job_wrapper] starts one cycle after the other and lets no
    exception of a cycle out; [dias] holds the date each cycle reads. *)
Fixpoint ciclos (dias : list string) (st : estado) : estado :=
  match dias with
  | [] => st
  | d :: dias' => ciclos dias' (buscar_e_processar_novos d st).2
  end.

End Monitor.

(** * Specification vocabulary and concrete worlds *)

(** ** Reading a trace *)

(** Counting the calls of one kind in a trace. *)
Fixpoint contar (P : event -> bool) (evs : list event) : nat :=
  match evs with
  | [] => O
  | ev :: evs' => ((if P ev then 1 else 0) + contar P evs')%nat
  end.

Definition e_foto (ev : event) : bool :=
  match ev with BaixarFoto _ _ _ => true | _ => false end.

Definition e_foto_retornou (ev : event) : bool :=
  match ev with BaixarFoto _ _ (Ret _) => true | _ => false end.

Definition e_card (ev : event) : bool :=
  match ev with CriarCard _ _ _ => true | _ => false end.

Definition e_card_verdadeiro (ev : event) : bool :=
  match ev with CriarCard _ _ (Ret card) => verdadeiro card | _ => false end.

Definition e_postar (ev : event) : bool :=
  match ev with PostarNoX _ _ _ => true | _ => false end.

Definition e_postar_sucesso (ev : event) : bool :=
  match ev with PostarNoX _ _ (Ret true) => true | _ => false end.

Definition e_salvar (ev : event) : bool :=
  match ev with Salvar _ _ => true | _ => false end.

Definition e_captcha (ev : event) : bool :=
  match ev with BaixarCaptcha _ => true | _ => false end.

Definition e_busca (ev : event) : bool :=
  match ev with TentarBusca _ _ _ _ => true | _ => false end.

(** The calls of a cycle before the attempts, the token apart. *)
Definition e_preparo (ev : event) : bool :=
  match ev with
  | Remover _ | CriarPastas _ | Ler _ | ObterDataHoje _
  | PegarCsrfToken Raise => true
  | _ => false
  end.

(** The calls of an attempt that sends no search. *)
Definition e_captcha_ou_ocr (ev : event) : bool :=
  match ev with BaixarCaptcha _ | OcrCaptcha _ _ => true | _ => false end.

(** Some posting of a record with fingerprint [k] returned success. *)
Definition publicado (evs : list event) (k : string) : Prop :=
  exists a card,
    PostarNoX a card (Ret true) ∈ evs /\ gerar_hash_atleta a = Some k.

(** ** Batches *)

(** A record that passes the first loop: it has the three key fields and
    a name. *)
Definition valido (a : atleta) : Prop :=
  is_Some (gerar_hash_atleta a) /\ is_Some (a !! "nome").

(** What the first loop keeps of one element. *)
Definition novo (h : historico) (it : item) : option atleta :=
  match it with
  | IDict a =>
    match gerar_hash_atleta a with
    | Some k => match h !! k with None => Some a | Some _ => None end
    | None => None
    end
  | IOutro => None
  end.

(** The element is a record whose fingerprint is a key of the ledger. *)
Definition ja_postado (h : historico) (it : item) : bool :=
  match it with
  | IDict a =>
    match gerar_hash_atleta a with
    | Some k => bool_decide (is_Some (h !! k))
    | None => false
    end
  | IOutro => false
  end.

(** ** Assumptions on the world *)

(** [limpar_arquivos_atleta] never raises. *)
Definition limpeza_funciona (E : ambiente) : Prop :=
  forall tr foto card, limpar_arquivos_atleta E tr foto card = Ret tt.

(** The download and the card of the record [a] work: the download
    returns and the card comes back usable. *)
Definition estagios_funcionam (E : ambiente) (a : atleta) : Prop :=
  (forall tr codigo nome,
     a !! "codigo_atleta" = Some codigo -> a !! "nome" = Some nome ->
     baixar_foto_atleta E tr codigo nome <> Raise) /\
  (forall tr foto, exists card,
     criar_card_atleta E tr a foto = Ret card /\ verdadeiro card = true).

(** The OCR always returns a text of fewer than 3 characters. *)
Definition ocr_sempre_curto (E : ambiente) : Prop :=
  forall tr img, exists texto,
    ocr_captcha E tr img = Ret texto /\ (String.length texto < 3)%nat.

(** The writes, the reads and the removals of the ledger file work. *)
Definition gravacao_funciona (E : ambiente) : Prop :=
  forall tr h, gravar_arquivo E tr h = GravOk.

Definition leitura_funciona (E : ambiente) : Prop :=
  forall tr, ler_arquivo E tr = true.

Definition remocao_funciona (E : ambiente) : Prop :=
  forall tr, remover_arquivo E tr = Ret tt.

(** ** Invariants *)

(** Every key of the ledger has been published. *)
Definition ledger_ok (evs : list event) (h : historico) : Prop :=
  forall k, is_Some (h !! k) -> publicado evs k.

Definition arquivo_ok (evs : list event) (c : conteudo) : Prop :=
  match c with
  | Gravado hs => ledger_ok evs hs
  | _ => True
  end.

(** The ledger [h0] and the file [c0] at the start, and the calls [evs]
    made since: every key of the ledger in memory, and of the ledger in
    the file unless the file is untouched, is a key of [h0] or was
    published in [evs]. *)
Definition cobre (h0 : historico) (evs : list event) (h : historico) : Prop :=
  forall k, is_Some (h !! k) -> is_Some (h0 !! k) \/ publicado evs k.

Definition inv_ledger (h0 : historico) (c0 : conteudo) (tr0 : list event)
  (h : historico) (st : estado) : Prop :=
  exists evs,
    rastro st = evs ++ tr0 /\
    cobre h0 evs h /\
    (arquivo_historico st = c0 \/
     match arquivo_historico st with
     | Gravado hs => cobre h0 evs hs
     | _ => True
     end).

Definition inv_progresso (h0 : historico) (c0 : conteudo) (tr0 : list event)
  (p : progresso) : Prop :=
  inv_ledger h0 c0 tr0 (pr_historico p) (pr_estado p).

(** The ledger a cycle loads, from the state after the day check. *)
Definition carregado (E : ambiente) (st0 : estado) : historico :=
  (carregar_historico E (registrar (CriarPastas (Ret tt)) st0)).1.

(** The invariant of the loop over the new records [novos], started with
    the ledger [h0], the file [c0], the recorded day [u0] and the trace
    [tr0], when every write of the file works. *)
Definition inv_persistencia (novos : list atleta) (h0 : historico)
  (c0 : conteudo) (u0 : option string) (tr0 : list event) (p : progresso)
  : Prop :=
  exists evs,
    rastro (pr_estado p) = evs ++ tr0 /\
    ultimo_dia_verificado (pr_estado p) = u0 /\
    0 <= pr_postados p /\
    (forall k, is_Some (h0 !! k) -> is_Some (pr_historico p !! k)) /\
    (forall a c r, PostarNoX a c r ∈ evs -> a ∈ novos) /\
    (forall a c k, PostarNoX a c (Ret true) ∈ evs ->
       gerar_hash_atleta a = Some k ->
       is_Some (pr_historico p !! k) /\ 0 < pr_postados p) /\
    (0 < pr_postados p ->
     arquivo_historico (pr_estado p) = Gravado (pr_historico p)) /\
    (pr_postados p = 0 -> arquivo_historico (pr_estado p) = c0).

(** What a call of [processar_resultados] with the ledger [h], or the
    attempts that lead to it, do to the world when writes work: postings
    only of records whose fingerprint is not in [h]; the file untouched
    or holding a ledger that extends [h]; every fingerprint posted with
    success in the file at the end. *)
Definition efeito (h : historico) (st st' : estado) : Prop :=
  ultimo_dia_verificado st' = ultimo_dia_verificado st /\
  exists evs,
    rastro st' = evs ++ rastro st /\
    (forall a c r, PostarNoX a c r ∈ evs ->
       exists k, gerar_hash_atleta a = Some k /\ h !! k = None) /\
    (arquivo_historico st' = arquivo_historico st \/
     exists hs, arquivo_historico st' = Gravado hs /\
       forall k, is_Some (h !! k) -> is_Some (hs !! k)) /\
    (forall a c k, PostarNoX a c (Ret true) ∈ evs ->
       gerar_hash_atleta a = Some k ->
       exists hs, arquivo_historico st' = Gravado hs /\ is_Some (hs !! k)).

(** The ledger file holds the fingerprint [k]. *)
Definition persistido (k : string) (st : estado) : Prop :=
  exists hs, arquivo_historico st = Gravado hs /\ is_Some (hs !! k).

(** ** Concrete worlds, for the examples *)

(** A record with the three key fields only. *)
Definition chaves (codigo contrato data : scalar) : atleta :=
  <["codigo_atleta" := codigo]>
    (<["contrato_numero" := contrato]> (<["data_publicacao" := data]> ∅)).

(** Records that share the three key fields and differ in the name and in
    one more field. *)
Definition atleta_exemplo (nome : string) (extra : scalar) : atleta :=
  <["nome" := SStr nome]>
    (<["codigo_atleta" := SInt 123]>
       (<["contrato_numero" := SStr "456"]>
          (<["data_publicacao" := SStr "2024-01-01"]>
             (<["clube" := extra]> ∅)))).

(** Records told apart by their code. *)
Definition atleta_n (nome : string) (codigo : Z) : atleta :=
  <["nome" := SStr nome]>
    (<["codigo_atleta" := SInt codigo]>
       (<["contrato_numero" := SStr "1"]>
          (<["data_publicacao" := SStr "2024-01-01"]> ∅))).

(** Every collaborator works; the search answers [busca], the posting
    answers [posta]. *)
Definition amb_padrao (busca : list event -> resposta)
  (posta : list event -> atleta -> outcome bool) : ambiente :=
  {| MAX_TENTATIVAS := 100;
     criar_pastas := fun _ => Ret tt;
     obter_data_hoje := fun _ => Ret "01/01/2024"%string;
     pegar_csrf_token := fun _ => Ret "csrf"%string;
     baixar_captcha := fun _ => Ret "png"%string;
     ocr_captcha := fun _ _ => Ret "x7kq"%string;
     tentar_busca := fun tr _ _ _ => Ret (busca tr);
     baixar_foto_atleta := fun _ _ _ => Ret (Some "foto.jpg"%string);
     criar_card_atleta := fun _ _ _ => Ret (Some "card.png"%string);
     postar_no_x := fun tr a _ => posta tr a;
     limpar_arquivos_atleta := fun _ _ _ => Ret tt;
     agora_isoformat := fun _ => "2024-01-01T10:00:00"%string;
     ler_arquivo := fun _ => true;
     gravar_arquivo := fun _ _ => GravOk;
     remover_arquivo := fun _ => Ret tt |}.

Definition resposta_lista (l : list atleta) : resposta :=
  Resposta "[...]" (JsonLista (IDict <$> l)).

Definition estado_inicial : estado := Estado None Ausente [].

Definition registro_exemplo : registro :=
  Registro (SStr "Ana") (SInt 123) (SStr "456") (SStr "2024-01-01")
    "2024-01-01T09:00:00" "84aa30f71520b8337a143dad1b2ab15f".

Definition historico_exemplo : historico :=
  {[ "84aa30f71520b8337a143dad1b2ab15f"%string := registro_exemplo ]}.

Definition com_remover (f : list event -> outcome unit) (E : ambiente)
  : ambiente :=
  Ambiente (MAX_TENTATIVAS E) (criar_pastas E) (obter_data_hoje E)
    (pegar_csrf_token E) (baixar_captcha E) (ocr_captcha E) (tentar_busca E)
    (baixar_foto_atleta E) (criar_card_atleta E) (postar_no_x E)
    (limpar_arquivos_atleta E) (agora_isoformat E) (ler_arquivo E)
    (gravar_arquivo E) f.

Definition com_ocr (f : list event -> string -> outcome string)
  (E : ambiente) : ambiente :=
  Ambiente (MAX_TENTATIVAS E) (criar_pastas E) (obter_data_hoje E)
    (pegar_csrf_token E) (baixar_captcha E) f (tentar_busca E)
    (baixar_foto_atleta E) (criar_card_atleta E) (postar_no_x E)
    (limpar_arquivos_atleta E) (agora_isoformat E) (ler_arquivo E)
    (gravar_arquivo E) (remover_arquivo E).

Definition com_card (f : list event -> atleta -> caminho -> outcome caminho)
  (E : ambiente) : ambiente :=
  Ambiente (MAX_TENTATIVAS E) (criar_pastas E) (obter_data_hoje E)
    (pegar_csrf_token E) (baixar_captcha E) (ocr_captcha E) (tentar_busca E)
    (baixar_foto_atleta E) f (postar_no_x E)
    (limpar_arquivos_atleta E) (agora_isoformat E) (ler_arquivo E)
    (gravar_arquivo E) (remover_arquivo E).

Definition com_gravar (f : list event -> historico -> gravacao)
  (E : ambiente) : ambiente :=
  Ambiente (MAX_TENTATIVAS E) (criar_pastas E) (obter_data_hoje E)
    (pegar_csrf_token E) (baixar_captcha E) (ocr_captcha E) (tentar_busca E)
    (baixar_foto_atleta E) (criar_card_atleta E) (postar_no_x E)
    (limpar_arquivos_atleta E) (agora_isoformat E) (ler_arquivo E)
    f (remover_arquivo E).

(** The removal fails once, then works. *)
Definition amb_remocao_falha : ambiente :=
  com_remover (fun tr => match tr with [] => Raise | _ => Ret tt end)
    (amb_padrao (fun _ => resposta_lista []) (fun _ _ => Ret true)).

(** The card of the record of code 2 raises; all else works. *)
Definition amb_card_falha : ambiente :=
  com_card
    (fun _ a _ =>
       if decide (a = atleta_n "Bia" 2) then Raise else Ret (Some "card.png"%string))
    (amb_padrao (fun _ => resposta_lista []) (fun _ _ => Ret true)).

Definition lote_de_tres : list atleta :=
  [atleta_n "Ana" 1; atleta_n "Bia" 2; atleta_n "Caio" 3].

Definition amb_tudo_certo : ambiente :=
  amb_padrao (fun _ => resposta_lista []) (fun _ _ => Ret true).

Definition lote_duplicado : list atleta :=
  [atleta_exemplo "Ana" SNone; atleta_exemplo "Bia" (SInt 7)].

(** The OCR reads one character, whatever the image. *)
Definition amb_ocr_curto : ambiente :=
  com_ocr (fun _ _ => Ret "a"%string) amb_tudo_certo.

(** The first search of the run answers one record, the later ones
    another record with the same three key fields. *)
Definition busca_em_dois_ciclos (tr : list event) : resposta :=
  if existsb e_busca tr
  then resposta_lista [atleta_exemplo "Bia" (SInt 7)]
  else resposta_lista [atleta_exemplo "Ana" SNone].

Definition amb_dois_ciclos (posta : outcome bool) : ambiente :=
  amb_padrao busca_em_dois_ciclos (fun _ _ => posta).

(** ** Vocabulary of the further properties *)

(** An element the first loop of [processar_resultados] raises on: not
    an object, or an object without one of the four fields it reads. *)
Definition malformado (it : item) : Prop :=
  match it with
  | IOutro => True
  | IDict a =>
    a !! "codigo_atleta" = None \/ a !! "contrato_numero" = None \/
    a !! "data_publicacao" = None \/ a !! "nome" = None
  end.

(** The calls [processar_resultados] makes. *)
Definition e_processador (ev : event) : bool :=
  match ev with
  | BaixarFoto _ _ _ | CriarCard _ _ _ | PostarNoX _ _ _
  | LimparArquivos _ _ _ | Salvar _ _ => true
  | _ => false
  end.

(** The entry [reg] under the key [k] is the one written for the record
    [a]: the key is the fingerprint of [a] and the [hash] of the entry,
    and the entry repeats the four fields of [a]. *)
Definition registro_de (a : atleta) (k : string) (reg : registro) : Prop :=
  gerar_hash_atleta a = Some k /\
  reg_hash reg = k /\
  a !! "nome" = Some (reg_nome reg) /\
  a !! "codigo_atleta" = Some (reg_codigo_atleta reg) /\
  a !! "contrato_numero" = Some (reg_contrato_numero reg) /\
  a !! "data_publicacao" = Some (reg_data_publicacao reg).

(** The list a response holds; none when the response is not JSON or
    not a list. *)
Definition lista_de (resp : resposta) : list item :=
  match resp_json resp with
  | JsonLista l => l
  | _ => []
  end.

Definition com_limpar (f : list event -> caminho -> caminho -> outcome unit)
  (E : ambiente) : ambiente :=
  Ambiente (MAX_TENTATIVAS E) (criar_pastas E) (obter_data_hoje E)
    (pegar_csrf_token E) (baixar_captcha E) (ocr_captcha E) (tentar_busca E)
    (baixar_foto_atleta E) (criar_card_atleta E) (postar_no_x E)
    f (agora_isoformat E) (ler_arquivo E)
    (gravar_arquivo E) (remover_arquivo E).

(** The clean-up of temporary files always raises; all else works. *)
Definition amb_limpeza_falha : ambiente :=
  com_limpar (fun _ _ _ => Raise) amb_tudo_certo.

(** A search the site answered without the word [captcha]. *)
Definition e_aceita (ev : event) : bool :=
  match ev with
  | TentarBusca _ _ _ (Ret resp) =>
    negb (contem "captcha" (lower (resp_text resp)))
  | _ => false
  end.

Definition e_token (ev : event) : bool :=
  match ev with PegarCsrfToken _ => true | _ => false end.

Definition e_pastas (ev : event) : bool :=
  match ev with CriarPastas _ => true | _ => false end.

(** The calls of the attempts of a cycle. *)
Definition e_tentativa (ev : event) : bool :=
  e_captcha_ou_ocr ev || e_busca ev || e_processador ev.

(** The calls of a cycle before the token that did not raise, the
    removal of the day check apart. *)
Definition e_quieto (ev : event) : bool :=
  match ev with
  | Remover _ | Ler _ | CriarPastas (Ret _) | ObterDataHoje (Ret _) => true
  | _ => false
  end.

(** What the calls [evs] of at most [n] attempts made with the token
    [csrf], the date [data] and the ledger [h] look like, when the loop
    ended with [b]. *)
Definition tentativas_ok (E : ambiente) (csrf data : string) (h : historico)
  (n : nat) (b : bool) (evs : list event) : Prop :=
  Forall (fun ev => e_tentativa ev = true) evs /\
  (contar e_captcha evs <= n)%nat /\
  (contar e_busca evs <= contar e_captcha evs)%nat /\
  contar e_aceita evs = (if b then 1 else 0)%nat /\
  (b = false ->
   contar e_captcha evs = n /\ contar e_processador evs = 0%nat) /\
  (forall tok txt d r, TentarBusca tok txt d r ∈ evs ->
     tok = csrf /\ d = data /\ (3 <= String.length txt)%nat /\
     (exists img, OcrCaptcha img (Ret txt) ∈ evs) /\
     exists tr, r = tentar_busca E tr tok txt d) /\
  (forall a c r, PostarNoX a c r ∈ evs ->
     exists txt resp,
       TentarBusca csrf txt data (Ret resp) ∈ evs /\
       contem "captcha" (lower (resp_text resp)) = false /\
       IDict a ∈ lista_de resp /\
       exists k, gerar_hash_atleta a = Some k /\ h !! k = None).

(** The number of attempts a cycle may make. *)
Definition limite_tentativas (E : ambiente) : nat :=
  Z.to_nat (Z.min (MAX_TENTATIVAS E) 50).

(** The search always answers that the CAPTCHA is wrong, in capitals. *)
Definition amb_captcha_recusado : ambiente :=
  amb_padrao (fun _ => Resposta "Erro: CAPTCHA incorreto" JsonErro)
    (fun _ _ => Ret true).

(** In the calls [evs], newest first, every posting that returned
    success is followed at once by a save of a ledger that holds the
    fingerprint of the record posted. *)
Definition salva_apos_postar (evs : list event) : Prop :=
  forall i a c, evs !! i = Some (PostarNoX a c (Ret true)) ->
    exists j hs g k,
      i = S j /\ evs !! j = Some (Salvar hs g) /\
      gerar_hash_atleta a = Some k /\ is_Some (hs !! k).

(** * The health server ([health_server.py]) *)

Module HealthServer.

(** A call that leaves the class, with what it answered.  A server
    object is named by the number of servers built before it; the
    thread made for a server bears the number of the server. *)
Inductive event :=
| NovoServidor (r : outcome nat)
| ThreadStart (srv : nat) (r : outcome unit)
| Shutdown (srv : nat) (r : outcome unit)
| ServerClose (srv : nat) (r : outcome unit)
| IsAlive (th : nat) (r : bool)
| Join (th : nat) (r : outcome unit).

(** The answers of the world: [novo_servidor] tells whether
    [HTTPServer(...)] returns (it raises when the port is taken, say). *)
Record mundo := Mundo {
  novo_servidor : list event -> bool;
  thread_start : list event -> outcome unit;
  shutdown : list event -> outcome unit;
  server_close : list event -> outcome unit;
  is_alive : list event -> bool;
  join : list event -> outcome unit
}.

(** [self.server], [self.thread], [self.running] and the trace, newest
    call first. *)
Record estado := Estado {
  server : option nat;
  thread : option nat;
  running : bool;
  rastro : list event
}.

(** [HealthServer()] *)
Definition inicial : estado := Estado None None false [].

(** The number of servers built so far. *)
Fixpoint criados (tr : list event) : nat :=
  match tr with
  | [] => O
  | NovoServidor (Ret _) :: tr' => S (criados tr')
  | _ :: tr' => criados tr'
  end.

Definition start (M : mundo) (s : estado) : estado :=
  if running s then s
  else if novo_servidor M (rastro s) then
    let srv := criados (rastro s) in
    let tr1 := NovoServidor (Ret srv) :: rastro s in
    let r := thread_start M tr1 in
    let tr2 := ThreadStart srv r :: tr1 in
    match r with
    | Ret _ => Estado (Some srv) (Some srv) true tr2
    | Raise => Estado (Some srv) (Some srv) false tr2
    end
  else Estado (server s) (thread s) false (NovoServidor Raise :: rastro s).

(** The body of the thread, when it ends: [serve_forever] returned, or
    raised ([r]); [self.server] missing raises too. *)
Definition _run_server (r : outcome unit) (s : estado) : estado :=
  match server s, r with
  | Some _, Ret _ => s
  | _, _ => Estado (server s) (thread s) false (rastro s)
  end.

(** [if self.server: self.server.shutdown(); self.server.server_close()] *)
Definition parar_servidor (M : mundo) (s : estado) : outcome unit * list event :=
  match server s with
  | Some srv =>
    let r1 := shutdown M (rastro s) in
    let tr1 := Shutdown srv r1 :: rastro s in
    match r1 with
    | Raise => (Raise, tr1)
    | Ret _ =>
      let r2 := server_close M tr1 in
      (r2, ServerClose srv r2 :: tr1)
    end
  | None => (Ret tt, rastro s)
  end.

Definition stop (M : mundo) (s : estado) : estado :=
  if negb (running s) then s
  else
    match parar_servidor M s with
    | (Raise, tr) => Estado (server s) (thread s) true tr
    | (Ret _, tr) =>
      match thread s with
      | Some th =>
        let b := is_alive M tr in
        let tr1 := IsAlive th b :: tr in
        if b then
          let r := join M tr1 in
          match r with
          | Ret _ => Estado (server s) (thread s) false (Join th r :: tr1)
          | Raise => Estado (server s) (thread s) true (Join th r :: tr1)
          end
        else Estado (server s) (thread s) false tr1
      | None => Estado (server s) (thread s) false tr
      end
    end.

(** What happens to the object: calls of [start] and [stop], and the
    thread body ending between two of them. *)
Inductive op :=
| Start
| Stop
| FimThread (r : outcome unit).

Definition passo (M : mundo) (s : estado) (o : op) : estado :=
  match o with
  | Start => start M s
  | Stop => stop M s
  | FimThread r => _run_server r s
  end.

Definition run (M : mundo) (ops : list op) (s : estado) : estado :=
  fold_left (passo M) ops s.

(** Every call of a trace is made in its place: a server is numbered by
    the servers built before it; a thread is started right after its
    server was built; [shutdown] is called for a server whose thread was
    started; [server_close] right after the [shutdown] of the same server
    returned; [join] right after the thread was seen alive. *)
Fixpoint bem_formado (tr : list event) : Prop :=
  match tr with
  | [] => True
  | ev :: tr' =>
    match ev with
    | NovoServidor (Ret srv) => srv = criados tr'
    | NovoServidor Raise => True
    | ThreadStart srv _ => head tr' = Some (NovoServidor (Ret srv))
    | Shutdown srv _ => ThreadStart srv (Ret tt) ∈ tr'
    | ServerClose srv _ => head tr' = Some (Shutdown srv (Ret tt))
    | IsAlive _ _ => True
    | Join th _ => head tr' = Some (IsAlive th true)
    end /\ bem_formado tr'
  end.

(** What holds between two steps: the trace is well formed and, while
    [running] is set, [server] and [thread] hold a server whose thread
    was started. *)
Definition inv (s : estado) : Prop :=
  bem_formado (rastro s) /\
  (running s = true ->
   exists srv, server s = Some srv /\ thread s = Some srv /\
     ThreadStart srv (Ret tt) ∈ rastro s).

(** The thread never starts; all else works. *)
Definition mundo_sem_thread : mundo :=
  Mundo (fun _ => true) (fun _ => Raise) (fun _ => Ret tt) (fun _ => Ret tt)
    (fun _ => true) (fun _ => Ret tt).

End HealthServer.

(** * The scheduled job *)

(** The scheduler and the clock: [schedule.get_jobs()] as the [next_run]
    of each job, and [datetime.now()]; times in microseconds. *)
Record agenda := Agenda {
  get_jobs : list event -> outcome (list Z);
  agora : list event -> Z
}.

(** The counters of the monitor ([self.execucoes], [self.ultima_execucao],
    [self.proxima_execucao]) beside the state the cycles work on. *)
Record monitor := Monitor {
  execucoes : Z;
  ultima_execucao : option Z;
  proxima_execucao : option Z;
  mon_estado : estado
}.

(** [timedelta(minutes=10)] *)
Definition dez_minutos : Z := 600000000.

Definition calcular_proxima_execucao (A : agenda) (m : monitor) : monitor :=
  let tr := rastro (mon_estado m) in
  Monitor (execucoes m) (ultima_execucao m)
    (Some match get_jobs A tr with
          | Ret (next_run :: _) => next_run
          | Ret [] => agora A tr + dez_minutos
          | Raise => agora A tr + dez_minutos
          end)
    (mon_estado m).

(** One execution; [dia_atual] is the date the cycle reads.  The
    exception of a cycle is caught and logged. *)
Definition job_wrapper (A : agenda) (E : ambiente) (dia_atual : string)
  (m : monitor) : monitor :=
  let ultima := agora A (rastro (mon_estado m)) in
  let st' := (buscar_e_processar_novos E dia_atual (mon_estado m)).2 in
  calcular_proxima_execucao A
    (Monitor (execucoes m + 1) (Some ultima) (proxima_execucao m) st').

(** The executions the scheduler starts, one after the other. *)
Fixpoint execucoes_seguidas (A : agenda) (E : ambiente) (dias : list string)
  (m : monitor) : monitor :=
  match dias with
  | [] => m
  | d :: dias' => execucoes_seguidas A E dias' (job_wrapper A E d m)
  end.

(** * Properties *)

(** ** Test vectors *)

Example md5_empty :
  md5_hexdigest EmptyString = "d41d8cd98f00b204e9800998ecf8427e".
Proof. vm_compute. reflexivity. Qed.

Example md5_abc : md5_hexdigest "abc" = "900150983cd24fb0d6963f7d28e17f72".
Proof. vm_compute. reflexivity. Qed.

Example md5_two_blocks :
  md5_hexdigest
    "aaaaaaaaaaaaaaaaaaaaaaaaaaaaaaaaaaaaaaaaaaaaaaaaaaaaaaaaaaaaaaaaaaaaaa"
  = "0f5c6c4e740bfcc08c3c26ccb2673d46".
Proof. vm_compute. reflexivity. Qed.

Example md5_56 :
  md5_hexdigest "bbbbbbbbbbbbbbbbbbbbbbbbbbbbbbbbbbbbbbbbbbbbbbbbbbbbbbbb"
  = "b9d955696c7654cd20086bec31670b11".
Proof. vm_compute. reflexivity. Qed.

Example hash_exemplo :
  gerar_hash_atleta
    (<["codigo_atleta" := SInt 123]>
       (<["contrato_numero" := SStr "456"]>
          (<["data_publicacao" := SStr "2024-01-01"]> ∅)))
  = Some "84aa30f71520b8337a143dad1b2ab15f".
Proof. vm_compute. reflexivity. Qed.

Example hash_latin1 :
  gerar_hash_atleta
    (<["codigo_atleta" := SStr (String (ascii_of_nat 233) EmptyString)]>
       (<["contrato_numero" := SInt 1]>
          (<["data_publicacao" := SNone]> ∅)))
  = Some "5339a9a39c57277e9a2721e3f461f0bd".
Proof. vm_compute. reflexivity. Qed.

Example hash_sem_contrato :
  gerar_hash_atleta (<["codigo_atleta" := SInt 123]> ∅) = None.
Proof. vm_compute. reflexivity. Qed.

Example hash_ordem :
  gerar_hash_atleta (chaves (SStr "1") (SStr "2") (SStr "d"))
  <> gerar_hash_atleta (chaves (SStr "2") (SStr "1") (SStr "d")).
Proof. vm_compute. discriminate. Qed.

Example hash_sem_normalizar :
  gerar_hash_atleta (chaves (SStr "1 ") (SStr "2") (SStr "d"))
  <> gerar_hash_atleta (chaves (SStr "1") (SStr "2") (SStr "d")).
Proof. vm_compute. discriminate. Qed.

Example hash_tipos :
  gerar_hash_atleta (chaves (SInt 1) (SStr "2") (SStr "d"))
  = gerar_hash_atleta (chaves (SStr "1") (SStr "2") (SStr "d")) /\
  gerar_hash_atleta (chaves (SInt 1) (SStr "2") (SStr "d"))
  <> gerar_hash_atleta (chaves (SBool true) (SStr "2") (SStr "d")).
Proof. vm_compute. split; [reflexivity|discriminate]. Qed.

Example lower_exemplo : lower "Captcha INCORRETO" = "captcha incorreto".
Proof. reflexivity. Qed.

Example contem_captcha :
  contem "captcha" (lower "<p>CAPTCHA invalido</p>") = true /\
  contem "captcha" (lower "[]") = false.
Proof. split; reflexivity. Qed.

(** ** The fingerprint *)

Lemma hexdigest_length (r : Md5.regs) :
  String.length (Md5.hexdigest r) = 32%nat.
Proof. reflexivity. Qed.

Lemma md5_hexdigest_length (s : string) :
  String.length (md5_hexdigest s) = 32%nat.
Proof. apply hexdigest_length. Qed.

Lemma gerar_hash_atleta_campos (a : atleta) (codigo contrato data : scalar) :
  a !! "codigo_atleta" = Some codigo ->
  a !! "contrato_numero" = Some contrato ->
  a !! "data_publicacao" = Some data ->
  gerar_hash_atleta a = Some (md5_hexdigest (identificador codigo contrato data)).
Proof.
  intros Hc Hn Hd. unfold gerar_hash_atleta.
  rewrite Hc, Hn, Hd. reflexivity.
Qed.

Lemma gerar_hash_atleta_Some (a : atleta) (k : string) :
  gerar_hash_atleta a = Some k ->
  exists codigo contrato data,
    a !! "codigo_atleta" = Some codigo /\
    a !! "contrato_numero" = Some contrato /\
    a !! "data_publicacao" = Some data /\
    k = md5_hexdigest (identificador codigo contrato data).
Proof.
  unfold gerar_hash_atleta. intros H.
  destruct (a !! "codigo_atleta") as [c|] eqn:Hc; [|discriminate].
  destruct (a !! "contrato_numero") as [n|] eqn:Hn; [|discriminate].
  destruct (a !! "data_publicacao") as [d|] eqn:Hd; [|discriminate].
  simpl in H. injection H as <-. eauto 8.
Qed.

(** C2.  Two records that hold the same three key fields get the same
    fingerprint, whatever their other fields: it is the MD5 hex digest of
    the three values as they are, joined by [_] in the order codigo,
    contrato, data, and it is 32 characters long. *)
Theorem gerar_hash_atleta_deterministico
  (a1 a2 : atleta) (codigo contrato data : scalar) :
  a1 !! "codigo_atleta" = Some codigo ->
  a1 !! "contrato_numero" = Some contrato ->
  a1 !! "data_publicacao" = Some data ->
  a2 !! "codigo_atleta" = Some codigo ->
  a2 !! "contrato_numero" = Some contrato ->
  a2 !! "data_publicacao" = Some data ->
  gerar_hash_atleta a1 = gerar_hash_atleta a2 /\
  gerar_hash_atleta a1
  = Some (md5_hexdigest
            (py_str codigo +:+ "_" +:+ py_str contrato +:+ "_" +:+ py_str data)) /\
  forall k, gerar_hash_atleta a1 = Some k -> String.length k = 32%nat.
Proof.
  intros H1 H2 H3 H4 H5 H6.
  rewrite (gerar_hash_atleta_campos a1 codigo contrato data) by assumption.
  rewrite (gerar_hash_atleta_campos a2 codigo contrato data) by assumption.
  split; [reflexivity|]. split; [reflexivity|].
  intros k Hk. injection Hk as <-. apply md5_hexdigest_length.
Qed.

Lemma gerar_hash_atleta_deterministico_witness :
  atleta_exemplo "Ana" SNone <> atleta_exemplo "Bia" (SInt 7) /\
  gerar_hash_atleta (atleta_exemplo "Ana" SNone)
  = gerar_hash_atleta (atleta_exemplo "Bia" (SInt 7)).
Proof.
  split.
  - intros H.
    assert (Hn : atleta_exemplo "Ana" SNone !! "nome"
                 = atleta_exemplo "Bia" (SInt 7) !! "nome") by (rewrite H; reflexivity).
    vm_compute in Hn. discriminate.
  - refine (proj1 (gerar_hash_atleta_deterministico
                     (atleta_exemplo "Ana" SNone) (atleta_exemplo "Bia" (SInt 7))
                     (SInt 123) (SStr "456") (SStr "2024-01-01") _ _ _ _ _ _));
      vm_compute; reflexivity.
Defined.

(** ** Day roll-over *)

Section Rollover.

Context (E : ambiente).

Lemma limpar_historico_primeira_chamada (d : string) (st : estado) :
  ultimo_dia_verificado st = None ->
  limpar_historico_se_novo_dia E d st = (false, com_dia d st).
Proof. intros H. unfold limpar_historico_se_novo_dia. rewrite H. reflexivity. Qed.

Lemma limpar_historico_mesmo_dia (d : string) (st : estado) :
  ultimo_dia_verificado st = Some d ->
  limpar_historico_se_novo_dia E d st = (false, st).
Proof.
  intros H. unfold limpar_historico_se_novo_dia. rewrite H.
  destruct (decide (d <> d)) as [Hne|_]; [contradiction Hne|]; reflexivity.
Qed.

Lemma limpar_historico_outro_dia (d d0 : string) (st : estado) :
  ultimo_dia_verificado st = Some d0 ->
  d <> d0 ->
  arquivo_historico st = Ausente \/ remover_arquivo E (rastro st) = Ret tt ->
  exists st',
    limpar_historico_se_novo_dia E d st = (true, st') /\
    ultimo_dia_verificado st' = Some d /\
    arquivo_historico st' = Ausente.
Proof.
  intros H Hne Hrem. unfold limpar_historico_se_novo_dia. rewrite H.
  destruct (decide (d <> d0)) as [_|Heq]; [|contradiction].
  destruct (arquivo_historico st) eqn:Ha.
  - eexists; split; [reflexivity|]. simpl. auto.
  - destruct Hrem as [Hrem|Hrem]; [discriminate|]. rewrite Hrem.
    eexists; split; [reflexivity|]. simpl. auto.
  - destruct Hrem as [Hrem|Hrem]; [discriminate|]. rewrite Hrem.
    eexists; split; [reflexivity|]. simpl. auto.
Qed.

(** C6.  The first call records the date and reports no roll-over; a call
    with the recorded date reports none and changes nothing; a call with
    another date, when the removal of the ledger file does not raise
    (or there is no file), leaves no file, records the new date and
    reports the roll-over. *)
Theorem limpar_historico_se_novo_dia_virada (st : estado) (d1 d2 : string) :
  ultimo_dia_verificado st = None ->
  d2 <> d1 ->
  arquivo_historico st = Ausente \/ remover_arquivo E (rastro st) = Ret tt ->
  let '(b1, st1) := limpar_historico_se_novo_dia E d1 st in
  let '(b2, st2) := limpar_historico_se_novo_dia E d1 st1 in
  let '(b3, st3) := limpar_historico_se_novo_dia E d2 st2 in
  (b1, b2, b3) = (false, false, true) /\
  ultimo_dia_verificado st1 = Some d1 /\
  arquivo_historico st1 = arquivo_historico st /\
  st2 = st1 /\
  ultimo_dia_verificado st3 = Some d2 /\
  arquivo_historico st3 = Ausente.
Proof.
  intros Hnone Hne Hrem.
  rewrite (limpar_historico_primeira_chamada d1 st Hnone).
  rewrite (limpar_historico_mesmo_dia d1 (com_dia d1 st) eq_refl).
  destruct (limpar_historico_outro_dia d2 d1 (com_dia d1 st) eq_refl Hne Hrem)
    as (st3 & -> & Hd & Ha).
  repeat split; assumption.
Qed.

(** C10.  When the removal of the ledger file raises, the call reports no
    roll-over and keeps the recorded date and the file; the next call with
    a date other than the recorded one tries the removal again, and
    completes the roll-over if the removal then works. *)
Theorem limpar_historico_se_novo_dia_falha (st : estado) (d d0 : string) :
  ultimo_dia_verificado st = Some d0 ->
  d <> d0 ->
  arquivo_historico st <> Ausente ->
  remover_arquivo E (rastro st) = Raise ->
  let '(b1, st1) := limpar_historico_se_novo_dia E d st in
  b1 = false /\
  ultimo_dia_verificado st1 = Some d0 /\
  arquivo_historico st1 = arquivo_historico st /\
  rastro st1 = Remover Raise :: rastro st /\
  forall d', d' <> d0 ->
    let '(b2, st2) := limpar_historico_se_novo_dia E d' st1 in
    rastro st2 = Remover (remover_arquivo E (rastro st1)) :: rastro st1 /\
    (remover_arquivo E (rastro st1) = Ret tt ->
     b2 = true /\ ultimo_dia_verificado st2 = Some d' /\
     arquivo_historico st2 = Ausente).
Proof.
  destruct st as [u a tr]. simpl. intros -> Hne Ha Hrem.
  unfold limpar_historico_se_novo_dia. simpl.
  destruct (decide (d <> d0)) as [_|Heq]; [|contradiction].
  destruct a as [|h|]; [contradiction| |]; rewrite Hrem; simpl;
    (repeat split; [idtac]); intros d' Hd';
    (destruct (decide (d' <> d0)) as [_|Heq]; [|contradiction]);
    destruct (remover_arquivo E (Remover Raise :: tr)) as [[]|]; simpl;
    (split; [reflexivity|]); intros; try discriminate; auto.
Qed.

End Rollover.

Lemma limpar_historico_se_novo_dia_virada_witness :
  let E := amb_padrao (fun _ => resposta_lista []) (fun _ _ => Ret true) in
  let st := Estado None (Gravado historico_exemplo) [] in
  let '(b1, st1) := limpar_historico_se_novo_dia E "2024-01-01" st in
  let '(b2, st2) := limpar_historico_se_novo_dia E "2024-01-01" st1 in
  let '(b3, st3) := limpar_historico_se_novo_dia E "2024-01-02" st2 in
  (b1, b2, b3) = (false, false, true) /\
  ultimo_dia_verificado st1 = Some "2024-01-01"%string /\
  arquivo_historico st1 = Gravado historico_exemplo /\
  st2 = st1 /\
  ultimo_dia_verificado st3 = Some "2024-01-02"%string /\
  arquivo_historico st3 = Ausente.
Proof.
  intros E st.
  apply (limpar_historico_se_novo_dia_virada E st "2024-01-01" "2024-01-02").
  - reflexivity.
  - discriminate.
  - right. reflexivity.
Defined.

Lemma limpar_historico_se_novo_dia_falha_witness :
  let st := Estado (Some "2024-01-01"%string) (Gravado historico_exemplo) [] in
  let '(b1, st1) :=
    limpar_historico_se_novo_dia amb_remocao_falha "2024-01-02" st in
  b1 = false /\
  ultimo_dia_verificado st1 = Some "2024-01-01"%string /\
  arquivo_historico st1 = Gravado historico_exemplo /\
  rastro st1 = [Remover Raise] /\
  forall d', d' <> "2024-01-01"%string ->
    let '(b2, st2) := limpar_historico_se_novo_dia amb_remocao_falha d' st1 in
    rastro st2 = Remover (remover_arquivo amb_remocao_falha (rastro st1)) :: rastro st1 /\
    (remover_arquivo amb_remocao_falha (rastro st1) = Ret tt ->
     b2 = true /\ ultimo_dia_verificado st2 = Some d' /\
     arquivo_historico st2 = Ausente).
Proof.
  intros st.
  apply (limpar_historico_se_novo_dia_falha amb_remocao_falha st
           "2024-01-02" "2024-01-01").
  - reflexivity.
  - discriminate.
  - discriminate.
  - reflexivity.
Defined.

(** ** The processor: batches that bring nothing new *)

Section Processor.

Context (E : ambiente).

Lemma filtrar_novos_ja_postados (l : list item) (h : historico) :
  forallb (ja_postado h) l = true ->
  filtrar_novos l h = None \/ filtrar_novos l h = Some [].
Proof.
  induction l as [|it l IH]; simpl; intros Hall; [right; reflexivity|].
  apply andb_true_iff in Hall as [Hit Hl].
  destruct it as [a|]; [|discriminate]. simpl in Hit.
  destruct (gerar_hash_atleta a) as [k|]; [|discriminate]. simpl.
  apply bool_decide_eq_true in Hit as [reg Hreg].
  destruct (a !! "nome"); simpl; [|left; reflexivity].
  destruct (IH Hl) as [-> | ->]; simpl; [left; reflexivity|].
  rewrite Hreg. right; reflexivity.
Qed.

(** The early returns of [processar_resultados]. *)
Lemma processar_resultados_nada_novo (resp : resposta) (h : historico)
  (st : estado) :
  match resp_json resp with
  | JsonLista l => filtrar_novos l h = None \/ filtrar_novos l h = Some []
  | _ => True
  end ->
  processar_resultados E resp h st = (0, h, st).
Proof.
  unfold processar_resultados.
  destruct (resp_json resp) as [| |[|it l]]; try reflexivity.
  intros [-> | ->]; reflexivity.
Qed.

(** C7.  A batch whose records all have their fingerprint in the ledger:
    the count is 0, no call leaves the method (so nothing is published
    and nothing is written), and the ledger and the file are as before;
    a second run on the result does the same. *)
Theorem processar_resultados_idempotente (resp : resposta) (l : list item)
  (h : historico) (st : estado) :
  resp_json resp = JsonLista l ->
  forallb (ja_postado h) l = true ->
  let '(n1, h1, st1) := processar_resultados E resp h st in
  let '(n2, h2, st2) := processar_resultados E resp h1 st1 in
  n1 = 0 /\ h1 = h /\ st1 = st /\
  eventos_desde (rastro st) (rastro st1) = [] /\
  n2 = 0 /\ h2 = h /\ st2 = st.
Proof.
  intros Hl Hall.
  assert (Hr : processar_resultados E resp h st = (0, h, st)).
  { apply processar_resultados_nada_novo. rewrite Hl.
    apply filtrar_novos_ja_postados, Hall. }
  rewrite Hr, Hr. repeat split.
  unfold eventos_desde. rewrite Nat.sub_diag. reflexivity.
Qed.

End Processor.

Lemma processar_resultados_idempotente_witness :
  let E := amb_padrao (fun _ => resposta_lista []) (fun _ _ => Ret true) in
  let resp := resposta_lista [atleta_exemplo "Ana" SNone; atleta_exemplo "Bia" (SInt 7)] in
  let st := Estado (Some "2024-01-01"%string) (Gravado historico_exemplo) [] in
  let '(n1, h1, st1) := processar_resultados E resp historico_exemplo st in
  let '(n2, h2, st2) := processar_resultados E resp h1 st1 in
  n1 = 0 /\ h1 = historico_exemplo /\ st1 = st /\
  eventos_desde (rastro st) (rastro st1) = [] /\
  n2 = 0 /\ h2 = historico_exemplo /\ st2 = st.
Proof.
  intros E resp st.
  apply (processar_resultados_idempotente E resp
           (IDict <$> [atleta_exemplo "Ana" SNone; atleta_exemplo "Bia" (SInt 7)])
           historico_exemplo st).
  - reflexivity.
  - vm_compute. reflexivity.
Defined.

(** ** Traces *)

Lemma eventos_desde_app (evs tr : list event) :
  eventos_desde tr (evs ++ tr) = evs.
Proof.
  unfold eventos_desde. rewrite length_app.
  replace (length evs + length tr - length tr)%nat with (length evs) by lia.
  apply take_app_length.
Qed.

Lemma eventos_desde_cons (ev : event) (evs tr : list event) :
  eventos_desde tr (ev :: evs ++ tr) = ev :: evs.
Proof. apply (eventos_desde_app (ev :: evs) tr). Qed.

Lemma eventos_desde_refl (tr : list event) : eventos_desde tr tr = [].
Proof. apply (eventos_desde_app [] tr). Qed.

Lemma estende_nil (tr : list event) : tr = [] ++ tr.
Proof. reflexivity. Qed.

Lemma estende_cons (ev : event) (evs tr tr' : list event) :
  tr' = evs ++ tr -> ev :: tr' = (ev :: evs) ++ tr.
Proof. intros ->. reflexivity. Qed.

Lemma estende_trans (evs1 evs2 tr0 tr1 tr2 : list event) :
  tr1 = evs1 ++ tr0 -> tr2 = evs2 ++ tr1 -> tr2 = (evs2 ++ evs1) ++ tr0.
Proof. intros -> ->. apply app_assoc. Qed.

Ltac estende := repeat first [apply estende_nil | apply estende_cons].

Lemma contar_app (P : event -> bool) (evs1 evs2 : list event) :
  contar P (evs1 ++ evs2) = (contar P evs1 + contar P evs2)%nat.
Proof. induction evs1 as [|ev evs1 IH]; simpl; [reflexivity|]. rewrite IH. lia. Qed.

Lemma valido_campos (a : atleta) :
  valido a ->
  exists k nome codigo,
    gerar_hash_atleta a = Some k /\
    a !! "nome" = Some nome /\
    a !! "codigo_atleta" = Some codigo /\
    forall agora, exists reg, novo_registro a agora = Some (k, reg).
Proof.
  intros [[k Hk] [nome Hnome]].
  destruct (gerar_hash_atleta_Some a k Hk) as (c & n & d & Hc & Hn & Hd & _).
  exists k, nome, c. repeat split; try assumption.
  intros agora. unfold novo_registro. rewrite Hk, Hnome, Hc, Hn, Hd.
  simpl. eauto.
Qed.

Ltac valida :=
  repeat constructor; vm_compute; eexists; reflexivity.

Section ProcessorLoop.

Context (E : ambiente).

Lemma salvar_historico_rastro (h : historico) (st : estado) :
  rastro (salvar_historico E h st)
  = Salvar h (gravar_arquivo E (rastro st) h) :: rastro st.
Proof. unfold salvar_historico. destruct (gravar_arquivo _ _ _); reflexivity. Qed.

Lemma salvar_historico_dia (h : historico) (st : estado) :
  ultimo_dia_verificado (salvar_historico E h st) = ultimo_dia_verificado st.
Proof. unfold salvar_historico. destruct (gravar_arquivo _ _ _); reflexivity. Qed.

Lemma salvar_historico_arquivo (h : historico) (st : estado) :
  arquivo_historico (salvar_historico E h st)
  = match gravar_arquivo E (rastro st) h with
    | GravOk => Gravado h
    | GravFalhaAbrir => arquivo_historico st
    | GravFalhaEscrita => Ilegivel
    end.
Proof. unfold salvar_historico. destruct (gravar_arquivo _ _ _); reflexivity. Qed.

Lemma processar_atleta_contagem (a : atleta) (p : progresso) :
  valido a ->
  limpeza_funciona E ->
  exists evs p',
    processar_atleta E a p = (Ret tt, p') /\
    rastro (pr_estado p') = evs ++ rastro (pr_estado p) /\
    contar e_foto evs = 1%nat /\
    contar e_card evs = contar e_foto_retornou evs /\
    contar e_postar evs = contar e_card_verdadeiro evs /\
    pr_postados p' = pr_postados p + Z.of_nat (contar e_postar_sucesso evs).
Proof.
  intros Hv Hlimpa.
  destruct (valido_campos a Hv) as (k & nome & codigo & Hk & Hnome & Hcod & Hreg).
  destruct p as [h n st].
  unfold processar_atleta, tentar_atleta. rewrite Hnome, Hcod.
  destruct (baixar_foto_atleta E (rastro st) codigo nome) as [foto|] eqn:H1.
  2:{ simpl. do 2 eexists. split; [reflexivity|]. simpl.
      split; [estende|]. simpl. repeat split; lia. }
  destruct (criar_card_atleta E _ a foto) as [card|] eqn:H2.
  2:{ unfold limpar. rewrite Hlimpa. destruct (verdadeiro foto || verdadeiro None);
      simpl; do 2 eexists; (split; [reflexivity|]); simpl;
      (split; [estende|]); simpl; repeat split; lia. }
  destruct (verdadeiro card) eqn:Hcard.
  2:{ unfold limpar, salvar_se_postou. rewrite Hlimpa. simpl.
      destruct (0 <? n); destruct (verdadeiro foto || verdadeiro card);
      simpl; do 2 eexists; (split; [reflexivity|]); simpl;
      rewrite ?salvar_historico_rastro;
      (split; [estende|]); simpl; rewrite ?Hcard; repeat split; lia. }
  destruct (postar_no_x E _ a card) as [[|]|] eqn:H3.
  - destruct (Hreg (agora_isoformat E
      (rastro (registrar (PostarNoX a card (Ret true))
         (registrar (CriarCard a foto (Ret card))
            (registrar (BaixarFoto codigo nome (Ret foto)) st))))))
      as [reg ->].
    unfold limpar, salvar_se_postou. rewrite Hlimpa. simpl.
    destruct (0 <? n + 1); destruct (verdadeiro foto || verdadeiro card);
      simpl; do 2 eexists; (split; [reflexivity|]); simpl;
      rewrite ?salvar_historico_rastro;
      (split; [estende|]); simpl; rewrite ?Hcard; repeat split; lia.
  - unfold limpar, salvar_se_postou. rewrite Hlimpa. simpl.
    destruct (0 <? n); destruct (verdadeiro foto || verdadeiro card);
      simpl; do 2 eexists; (split; [reflexivity|]); simpl;
      rewrite ?salvar_historico_rastro;
      (split; [estende|]); simpl; rewrite ?Hcard; repeat split; lia.
  - unfold limpar. rewrite Hlimpa. simpl.
    destruct (verdadeiro foto || verdadeiro card);
      simpl; do 2 eexists; (split; [reflexivity|]); simpl;
      (split; [estende|]); simpl; rewrite ?Hcard; repeat split; lia.
Qed.

Lemma processar_novos_contagem (novos : list atleta) :
  Forall valido novos ->
  limpeza_funciona E ->
  forall p, exists evs p',
    processar_novos E novos p = (Ret tt, p') /\
    rastro (pr_estado p') = evs ++ rastro (pr_estado p) /\
    contar e_foto evs = length novos /\
    contar e_card evs = contar e_foto_retornou evs /\
    contar e_postar evs = contar e_card_verdadeiro evs /\
    pr_postados p' = pr_postados p + Z.of_nat (contar e_postar_sucesso evs).
Proof.
  intros Hall Hlimpa. induction Hall as [|a novos Ha _ IH]; intros p.
  - exists [], p. simpl. repeat split; lia.
  - destruct (processar_atleta_contagem a p Ha Hlimpa)
      as (evs1 & p1 & Hrun1 & Htr1 & Hf1 & Hc1 & Hp1 & Hn1).
    destruct (IH p1) as (evs2 & p2 & Hrun2 & Htr2 & Hf2 & Hc2 & Hp2 & Hn2).
    exists (evs2 ++ evs1), p2. simpl. rewrite Hrun1, Hrun2.
    split; [reflexivity|].
    split; [apply (estende_trans _ _ _ _ _ Htr1 Htr2)|].
    rewrite !contar_app. repeat split; lia.
Qed.

Lemma processar_atleta_posta (a : atleta) (p : progresso) :
  valido a -> estagios_funcionam E a -> limpeza_funciona E ->
  exists p' e1 e2 card r,
    processar_atleta E a p = (Ret tt, p') /\
    rastro (pr_estado p') = e2 ++ PostarNoX a card r :: e1 ++ rastro (pr_estado p) /\
    (r = Ret true ->
     exists k, gerar_hash_atleta a = Some k /\ is_Some (pr_historico p' !! k)).
Proof.
  intros Hv [Hfoto Hcard] Hlimpa.
  destruct (valido_campos a Hv) as (k & nome & codigo & Hk & Hnome & Hcod & Hreg).
  destruct p as [h n st].
  unfold processar_atleta, tentar_atleta. rewrite Hnome, Hcod.
  destruct (baixar_foto_atleta E (rastro st) codigo nome) as [foto|] eqn:H1;
    [|exfalso; exact (Hfoto _ _ _ Hcod Hnome H1)].
  set (st1 := registrar (BaixarFoto codigo nome (Ret foto)) st).
  destruct (Hcard (rastro st1) foto) as (card & -> & Hverd). rewrite Hverd.
  set (st2 := registrar (CriarCard a foto (Ret card)) st1).
  assert (Hor : verdadeiro foto || verdadeiro card = true)
    by (rewrite Hverd; apply orb_true_r).
  unfold limpar.
  destruct (postar_no_x E (rastro st2) a card) as [[|]|] eqn:H3.
  - set (st3 := registrar (PostarNoX a card (Ret true)) st2).
    destruct (Hreg (agora_isoformat E (rastro st3))) as [reg ->].
    rewrite Hor, Hlimpa. unfold salvar_se_postou. simpl pr_postados.
    destruct (0 <? n + 1); simpl;
      eexists _, [_; _], _, card, (Ret true);
      (split; [reflexivity|]); simpl; rewrite ?salvar_historico_rastro;
      (split; [simpl; estende|]);
      intros _; exists k; (split; [exact Hk|]); apply lookup_insert_is_Some';
      left; reflexivity.
  - rewrite Hor, Hlimpa. unfold salvar_se_postou. simpl pr_postados.
    destruct (0 <? n); simpl;
      eexists _, [_; _], _, card, (Ret false);
      (split; [reflexivity|]); simpl; rewrite ?salvar_historico_rastro;
      (split; [simpl; estende|]); intros [=].
  - rewrite Hor, Hlimpa. simpl.
    eexists _, [_; _], _, card, Raise.
    split; [reflexivity|]. simpl. split; [estende|]. intros [=].
Qed.

Lemma processar_novos_posta (novos : list atleta) :
  Forall valido novos ->
  limpeza_funciona E ->
  forall p a, a ∈ novos -> estagios_funcionam E a ->
  exists evs p' card r,
    processar_novos E novos p = (Ret tt, p') /\
    rastro (pr_estado p') = evs ++ rastro (pr_estado p) /\
    PostarNoX a card r ∈ evs.
Proof.
  intros Hall Hlimpa. induction Hall as [|x novos Hx Hall IH]; intros p a Hin Ha.
  - inversion Hin.
  - simpl. apply elem_of_cons in Hin as [->|Hin].
    + destruct (processar_atleta_posta x p Hx Ha Hlimpa)
        as (p1 & e1 & e2 & card & r & Hrun1 & Htr1 & _).
      destruct (processar_novos_contagem novos Hall Hlimpa p1)
        as (evs2 & p2 & Hrun2 & Htr2 & _).
      exists (evs2 ++ e2 ++ PostarNoX x card r :: e1), p2, card, r.
      rewrite Hrun1, Hrun2. split; [reflexivity|]. split.
      * rewrite Htr2, Htr1, <- !app_assoc. reflexivity.
      * apply elem_of_app. right. apply elem_of_app. right. left.
    + destruct (processar_atleta_contagem x p Hx Hlimpa)
        as (evs1 & p1 & Hrun1 & Htr1 & _).
      destruct (IH p1 a Hin Ha) as (evs2 & p2 & card & r & Hrun2 & Htr2 & Hpost).
      exists (evs2 ++ evs1), p2, card, r.
      rewrite Hrun1, Hrun2. split; [reflexivity|]. split.
      * rewrite Htr2, Htr1, <- app_assoc. reflexivity.
      * apply elem_of_app. left. exact Hpost.
Qed.

Lemma filtrar_novos_omap (l : list item) (h : historico) (novos : list atleta) :
  filtrar_novos l h = Some novos -> novos = omap (novo h) l.
Proof.
  revert novos. induction l as [|it l IH]; simpl; intros novos H.
  - injection H as <-. reflexivity.
  - destruct it as [a|]; [|discriminate].
    destruct (gerar_hash_atleta a) as [k|] eqn:Hk; [|discriminate]. simpl in H.
    destruct (a !! "nome"); [|discriminate]. simpl in H.
    destruct (filtrar_novos l h) as [ns|]; [|discriminate]. simpl in H.
    injection H as <-. rewrite (IH ns eq_refl).
    change (omap (novo h) (IDict a :: l))
      with (match novo h (IDict a) with
            | Some y => y :: omap (novo h) l
            | None => omap (novo h) l
            end).
    assert (Hn : novo h (IDict a) = match h !! k with None => Some a | Some _ => None end).
    { simpl. rewrite Hk. reflexivity. }
    rewrite Hn. destruct (h !! k); reflexivity.
Qed.

Lemma filtrar_novos_validos (l : list item) (h : historico) (novos : list atleta) :
  filtrar_novos l h = Some novos ->
  Forall (fun a => valido a /\
            exists k, gerar_hash_atleta a = Some k /\ h !! k = None) novos.
Proof.
  revert novos. induction l as [|it l IH]; simpl; intros novos H.
  - injection H as <-. constructor.
  - destruct it as [a|]; [|discriminate].
    destruct (gerar_hash_atleta a) as [k|] eqn:Hk; [|discriminate]. simpl in H.
    destruct (a !! "nome") eqn:Hn; [|discriminate]. simpl in H.
    destruct (filtrar_novos l h) as [ns|]; [|discriminate]. simpl in H.
    injection H as <-. specialize (IH ns eq_refl).
    destruct (h !! k) eqn:Hh; [assumption|].
    constructor; [|assumption]. unfold valido. rewrite Hk, Hn. eauto 6.
Qed.

Lemma filtrar_novos_vazio (l : list atleta) :
  Forall valido l -> filtrar_novos (IDict <$> l) ∅ = Some l.
Proof.
  induction 1 as [|a l [[k Hk] [nome Hnome]] _ IH]; [reflexivity|].
  simpl. rewrite Hk. simpl. rewrite Hnome. simpl.
  change (list_fmap atleta item IDict l) with (IDict <$> l).
  rewrite IH. simpl. rewrite lookup_empty. reflexivity.
Qed.

Lemma processar_resultados_lista (resp : resposta) (l : list item)
  (h : historico) (st : estado) (a : atleta) (novos : list atleta) :
  resp_json resp = JsonLista l ->
  filtrar_novos l h = Some (a :: novos) ->
  processar_resultados E resp h st
  = match processar_novos E (a :: novos) (Progresso h 0 st) with
    | (Raise, p) => (0, pr_historico p, pr_estado p)
    | (Ret _, p) =>
      (pr_postados p, pr_historico p,
       salvar_historico E (pr_historico p) (pr_estado p))
    end.
Proof.
  intros Hl Hf. unfold processar_resultados. rewrite Hl.
  destruct l as [|it l]; [discriminate|]. rewrite Hf. reflexivity.
Qed.

(** C4.  When the clean-up of the [finally] clause does not raise, no
    exception of the download, the card, the posting or the save stops
    the batch: every new record has its download attempted, every
    download that returned is followed by the card call, every card that
    came back usable is followed by the posting, and the count returned
    is the number of postings that returned success; so a new record
    whose own download and card work has its posting called, whatever
    the other records of the batch raise. *)
Theorem processar_resultados_isolamento (resp : resposta) (l : list item)
  (h : historico) (st : estado) (novos : list atleta) :
  limpeza_funciona E ->
  resp_json resp = JsonLista l ->
  filtrar_novos l h = Some novos ->
  let '(n, _, st') := processar_resultados E resp h st in
  let evs := eventos_desde (rastro st) (rastro st') in
  contar e_foto evs = length novos /\
  contar e_card evs = contar e_foto_retornou evs /\
  contar e_postar evs = contar e_card_verdadeiro evs /\
  n = Z.of_nat (contar e_postar_sucesso evs) /\
  forall a, a ∈ novos -> estagios_funcionam E a ->
    exists card r, PostarNoX a card r ∈ evs.
Proof.
  intros Hlimpa Hl Hf. destruct novos as [|a novos].
  - rewrite processar_resultados_nada_novo by (rewrite Hl; right; exact Hf).
    rewrite eventos_desde_refl. simpl. repeat split; try reflexivity.
    intros a Hin. inversion Hin.
  - rewrite (processar_resultados_lista resp l h st a novos Hl Hf).
    assert (Hval : Forall valido (a :: novos)).
    { eapply Forall_impl; [apply (filtrar_novos_validos l h _ Hf)|].
      intros x [Hx _]. exact Hx. }
    destruct (processar_novos_contagem (a :: novos) Hval Hlimpa (Progresso h 0 st))
      as (evs & p' & Hrun & Htr & Hf1 & Hc1 & Hp1 & Hn1).
    rewrite Hrun, salvar_historico_rastro, Htr. simpl in Htr |- *.
    rewrite eventos_desde_cons.
    simpl. simpl in Hn1. repeat split; try assumption; try lia.
    intros x Hin Hx.
    destruct (processar_novos_posta (a :: novos) Hval Hlimpa (Progresso h 0 st)
                x Hin Hx) as (evs' & p'' & card & r & Hrun' & Htr' & Hpost).
    rewrite Hrun in Hrun'. injection Hrun' as <-.
    rewrite Htr in Htr'. simpl in Htr'. apply app_inv_tail in Htr'. subst evs'.
    exists card, r. right. exact Hpost.
Qed.

End ProcessorLoop.

(** ** Example: a batch of three, the card of the second raises *)

Lemma processar_resultados_isolamento_witness :
  let '(n, _, st') :=
    processar_resultados amb_card_falha (resposta_lista lote_de_tres) ∅
      estado_inicial in
  let evs := eventos_desde [] (rastro st') in
  contar e_foto evs = 3%nat /\
  contar e_card evs = contar e_foto_retornou evs /\
  contar e_postar evs = contar e_card_verdadeiro evs /\
  n = Z.of_nat (contar e_postar_sucesso evs) /\
  forall a, a ∈ lote_de_tres -> estagios_funcionam amb_card_falha a ->
    exists card r, PostarNoX a card r ∈ evs.
Proof.
  apply (processar_resultados_isolamento amb_card_falha
           (resposta_lista lote_de_tres) (IDict <$> lote_de_tres) ∅
           estado_inicial lote_de_tres).
  - intros tr foto card. reflexivity.
  - reflexivity.
  - apply filtrar_novos_vazio. valida.
Defined.

Example isolamento_lote_de_tres :
  let '(n, h, st') :=
    processar_resultados amb_card_falha (resposta_lista lote_de_tres) ∅
      estado_inicial in
  n = 2 /\
  size h = 2%nat /\
  arquivo_historico st' = Gravado h /\
  omap (fun ev => match ev with
                  | PostarNoX a _ r => Some (a !! "nome", r)
                  | CriarCard a _ Raise => Some (a !! "nome", Raise)
                  | _ => None
                  end) (rastro st')
  = [ (Some (SStr "Caio"), Ret true);
      (Some (SStr "Bia"), Raise);
      (Some (SStr "Ana"), Ret true) ].
Proof. vm_compute. repeat split; reflexivity. Qed.

(** ** The last save of [processar_resultados] *)

Section FinalSave.

Context (E : ambiente).

(** C8, as the code has it.  When the batch brings at least one new
    record and no exception leaves the loop over the new records, the
    method ends with [salvar_historico] of the final ledger, and the file
    holds that ledger if the write works.  For any other batch (not JSON,
    not a list, empty, an element the first loop raises on, or all
    records already in the ledger) it returns 0 and saves nothing. *)
Theorem processar_resultados_salva_no_fim (resp : resposta) (h : historico)
  (st : estado) :
  let '(n, h', st') := processar_resultados E resp h st in
  match
    match resp_json resp with
    | JsonLista l => filtrar_novos l h
    | _ => None
    end
  with
  | Some (a :: novos) =>
    (processar_novos E (a :: novos) (Progresso h 0 st)).1 = Ret tt ->
    exists st_antes,
      st' = salvar_historico E h' st_antes /\
      (gravar_arquivo E (rastro st_antes) h' = GravOk ->
       arquivo_historico st' = Gravado h')
  | _ => (n, h', st') = (0, h, st)
  end.
Proof.
  destruct (resp_json resp) as [| |l] eqn:Hl;
    try (rewrite processar_resultados_nada_novo by (rewrite Hl; exact I);
         reflexivity).
  destruct (filtrar_novos l h) as [[|a novos]|] eqn:Hf;
    try (rewrite processar_resultados_nada_novo by (rewrite Hl; auto);
         reflexivity).
  rewrite (processar_resultados_lista E resp l h st a novos Hl Hf).
  destruct (processar_novos E (a :: novos) (Progresso h 0 st)) as [[[]|] p];
    simpl; [|discriminate].
  intros _. exists (pr_estado p). split; [reflexivity|].
  intros Hok. rewrite salvar_historico_arquivo, Hok. reflexivity.
Qed.

End FinalSave.

(** The claim that every call ends with a save fails: after a read of the
    ledger file failed (the ledger in memory is empty, the file holds one
    entry), an empty batch returns without a save. *)
Lemma processar_resultados_sempre_salva_counterexample :
  let E := amb_padrao (fun _ => resposta_lista []) (fun _ _ => Ret true) in
  let st := Estado (Some "2024-01-01"%string) (Gravado historico_exemplo)
              [Ler false; CriarPastas (Ret tt)] in
  let '(n, h', st') := processar_resultados E (resposta_lista []) ∅ st in
  contar e_salvar (eventos_desde (rastro st) (rastro st')) = 0%nat /\
  arquivo_historico st' <> Gravado h'.
Proof.
  vm_compute. split; [reflexivity|]. intros H. discriminate H.
Qed.

Lemma processar_resultados_salva_no_fim_witness :
  let E := amb_padrao (fun _ => resposta_lista []) (fun _ _ => Ret true) in
  let '(n, h', st') :=
    processar_resultados E (resposta_lista lote_de_tres) ∅ estado_inicial in
  exists st_antes,
    st' = salvar_historico E h' st_antes /\ arquivo_historico st' = Gravado h'.
Proof.
  intros E.
  pose proof (processar_resultados_salva_no_fim E
                (resposta_lista lote_de_tres) ∅ estado_inicial) as H.
  destruct (processar_resultados E (resposta_lista lote_de_tres) ∅
              estado_inicial) as [[n h'] st'].
  assert (Hf : filtrar_novos (IDict <$> lote_de_tres) ∅ = Some lote_de_tres)
    by (apply filtrar_novos_vazio; valida).
  unfold resposta_lista in H. cbn [resp_json] in H. rewrite Hf in H.
  destruct H as (st_antes & Hst & Hok); [vm_compute; reflexivity|].
  exists st_antes. split; [exact Hst|]. apply Hok. reflexivity.
Defined.

(** ** The ledger holds published records only *)

Lemma publicado_mono (evs evs' : list event) (k : string) :
  evs ⊆ evs' -> publicado evs k -> publicado evs' k.
Proof. intros Hsub (a & c & Hin & Hk). exists a, c. split; [apply Hsub, Hin|exact Hk]. Qed.

Lemma publicado_app_l (evs tr : list event) (k : string) :
  publicado evs k -> publicado (evs ++ tr) k.
Proof. apply publicado_mono. intros x Hx. apply elem_of_app. left. exact Hx. Qed.

Lemma publicado_app_r (evs tr : list event) (k : string) :
  publicado tr k -> publicado (evs ++ tr) k.
Proof. apply publicado_mono. intros x Hx. apply elem_of_app. right. exact Hx. Qed.

Lemma novo_registro_hash (a : atleta) (agora k : string) (reg : registro) :
  novo_registro a agora = Some (k, reg) -> gerar_hash_atleta a = Some k.
Proof.
  unfold novo_registro. intros H.
  destruct (gerar_hash_atleta a) as [k'|]; [|discriminate]. simpl in H.
  destruct (a !! "nome"); [|discriminate]. simpl in H.
  destruct (a !! "codigo_atleta"); [|discriminate]. simpl in H.
  destruct (a !! "contrato_numero"); [|discriminate]. simpl in H.
  destruct (a !! "data_publicacao"); [|discriminate]. simpl in H.
  injection H as <- _. reflexivity.
Qed.

Section Invariante.

Context (E : ambiente).

(** An invariant of the loop is kept by the whole loop, whether it ends
    or an exception leaves it. *)
Lemma processar_novos_inv (I : progresso -> Prop) (novos : list atleta) :
  (forall a p, a ∈ novos -> I p -> I (processar_atleta E a p).2) ->
  forall p, I p -> I (processar_novos E novos p).2.
Proof.
  induction novos as [|a novos IH]; intros Hstep p Hp; [exact Hp|].
  simpl. specialize (Hstep a p) as Ha.
  destruct (processar_atleta E a p) as [[[]|] p2]; simpl in *.
  - apply IH; [|apply Ha; [left|exact Hp]].
    intros a' p' Hin. apply Hstep. right. exact Hin.
  - apply Ha; [left|exact Hp].
Qed.

Lemma cobre_mono (h0 : historico) (evs evs' : list event) (h : historico) :
  evs ⊆ evs' -> cobre h0 evs h -> cobre h0 evs' h.
Proof.
  intros Hsub Hc k Hk. destruct (Hc k Hk) as [?|?]; [left; assumption|].
  right. eapply publicado_mono; eassumption.
Qed.

Lemma cobre_cons (h0 : historico) (ev : event) (evs : list event)
  (h : historico) :
  cobre h0 evs h -> cobre h0 (ev :: evs) h.
Proof. apply cobre_mono. intros x Hx. right. exact Hx. Qed.

Lemma inv_ledger_registrar h0 c0 tr0 h st (ev : event) :
  inv_ledger h0 c0 tr0 h st -> inv_ledger h0 c0 tr0 h (registrar ev st).
Proof.
  intros (evs & Htr & Hh & Hc). exists (ev :: evs). simpl.
  split; [rewrite Htr; reflexivity|].
  split; [apply cobre_cons, Hh|].
  destruct Hc as [Hc0|Hcs]; [left; exact Hc0|right].
  destruct (arquivo_historico st); try exact I.
  apply cobre_cons, Hcs.
Qed.

Lemma inv_ledger_salvar h0 c0 tr0 h st :
  inv_ledger h0 c0 tr0 h st ->
  inv_ledger h0 c0 tr0 h (salvar_historico E h st).
Proof.
  intros (evs & Htr & Hh & Hc).
  exists (Salvar h (gravar_arquivo E (rastro st) h) :: evs).
  rewrite salvar_historico_rastro, salvar_historico_arquivo, Htr.
  split; [reflexivity|].
  split; [apply cobre_cons, Hh|].
  destruct (gravar_arquivo E (evs ++ tr0) h).
  - right. apply cobre_cons, Hh.
  - destruct Hc as [Hc0|Hcs]; [left; exact Hc0|right].
    destruct (arquivo_historico st); try exact I.
    apply cobre_cons, Hcs.
  - right. exact I.
Qed.

Lemma inv_ledger_inserir h0 c0 tr0 h st a card k reg :
  inv_ledger h0 c0 tr0 h st ->
  gerar_hash_atleta a = Some k ->
  inv_ledger h0 c0 tr0 (<[k := reg]> h)
    (registrar (PostarNoX a card (Ret true)) st).
Proof.
  intros (evs & Htr & Hh & Hc) Hk.
  exists (PostarNoX a card (Ret true) :: evs). simpl.
  split; [rewrite Htr; reflexivity|]. split.
  - intros k' Hk'. destruct (decide (k = k')) as [<-|Hne].
    + right. exists a, card. split; [left|exact Hk].
    + rewrite lookup_insert_ne in Hk' by exact Hne.
      exact (cobre_cons _ _ _ _ Hh k' Hk').
  - destruct Hc as [Hc0|Hcs]; [left; exact Hc0|right].
    destruct (arquivo_historico st); try exact I.
    apply cobre_cons, Hcs.
Qed.

Lemma inv_salvar_se_postou h0 c0 tr0 (p : progresso) :
  inv_progresso h0 c0 tr0 p -> inv_progresso h0 c0 tr0 (salvar_se_postou E p).
Proof.
  intros Hp. unfold salvar_se_postou. destruct (0 <? pr_postados p); [|exact Hp].
  apply inv_ledger_salvar, Hp.
Qed.

Lemma inv_tentar_atleta h0 c0 tr0 (a : atleta) (p : progresso) :
  inv_progresso h0 c0 tr0 p ->
  inv_progresso h0 c0 tr0 (tentar_atleta E a p).2.
Proof.
  destruct p as [h n st]. intros Hp. unfold tentar_atleta.
  destruct (a !! "nome") as [nome|]; [|exact Hp].
  destruct (a !! "codigo_atleta") as [codigo|]; [|exact Hp].
  pose proof (inv_ledger_registrar h0 c0 tr0 h st
    (BaixarFoto codigo nome (baixar_foto_atleta E (rastro st) codigo nome)) Hp)
    as H1.
  destruct (baixar_foto_atleta E (rastro st) codigo nome) as [foto|];
    [|exact H1].
  set (st1 := registrar (BaixarFoto codigo nome (Ret foto)) st) in *.
  pose proof (inv_ledger_registrar h0 c0 tr0 h st1
    (CriarCard a foto (criar_card_atleta E (rastro st1) a foto)) H1) as H2.
  destruct (criar_card_atleta E (rastro st1) a foto) as [card|]; [|exact H2].
  set (st2 := registrar (CriarCard a foto (Ret card)) st1) in *.
  destruct (verdadeiro card).
  2:{ apply (inv_salvar_se_postou h0 c0 tr0 (Progresso h n st2)), H2. }
  destruct (postar_no_x E (rastro st2) a card) as [[|]|] eqn:H3.
  - set (st3 := registrar (PostarNoX a card (Ret true)) st2).
    destruct (novo_registro a (agora_isoformat E (rastro st3)))
      as [[k reg]|] eqn:Hreg.
    + apply (inv_salvar_se_postou h0 c0 tr0
               (Progresso (<[k := reg]> h) (n + 1) st3)).
      apply inv_ledger_inserir; [exact H2|].
      eapply novo_registro_hash, Hreg.
    + apply inv_ledger_registrar, H2.
  - apply (inv_salvar_se_postou h0 c0 tr0
             (Progresso h n (registrar (PostarNoX a card (Ret false)) st2))).
    apply inv_ledger_registrar, H2.
  - apply inv_ledger_registrar, H2.
Qed.

Lemma inv_processar_atleta h0 c0 tr0 (a : atleta) (p : progresso) :
  inv_progresso h0 c0 tr0 p ->
  inv_progresso h0 c0 tr0 (processar_atleta E a p).2.
Proof.
  intros Hp. unfold processar_atleta.
  pose proof (inv_tentar_atleta h0 c0 tr0 a p Hp) as Ht.
  destruct (tentar_atleta E a p) as [[foto card] p1]. simpl in Ht.
  unfold limpar. destruct (verdadeiro foto || verdadeiro card); [|exact Ht].
  apply inv_ledger_registrar, Ht.
Qed.

Lemma inv_processar_resultados (resp : resposta) (h : historico) (st : estado) :
  inv_ledger h (arquivo_historico st) (rastro st)
    (processar_resultados E resp h st).1.2 (processar_resultados E resp h st).2.
Proof.
  assert (H0 : inv_ledger h (arquivo_historico st) (rastro st) h st).
  { exists []. split; [reflexivity|]. split; [|left; reflexivity].
    intros k Hk. left. exact Hk. }
  unfold processar_resultados.
  destruct (resp_json resp) as [| |[|it l]]; try exact H0.
  destruct (filtrar_novos (it :: l) h) as [[|a novos]|]; try exact H0.
  pose proof (processar_novos_inv
    (inv_progresso h (arquivo_historico st) (rastro st)) (a :: novos)
    (fun a' p' _ => inv_processar_atleta _ _ _ a' p') (Progresso h 0 st) H0)
    as Hloop.
  destruct (processar_novos E (a :: novos) (Progresso h 0 st)) as [[[]|] p];
    simpl in *; [|exact Hloop].
  apply inv_ledger_salvar, Hloop.
Qed.

Lemma inv_ledger_ok (h : historico) (c : conteudo) (tr : list event)
  (h' : historico) (st' : estado) :
  inv_ledger h c tr h' st' ->
  ledger_ok tr h -> arquivo_ok tr c ->
  ledger_ok (rastro st') h' /\ arquivo_ok (rastro st') (arquivo_historico st').
Proof.
  intros (evs & Htr & Hh & Hc) Hok Hfok. rewrite Htr.
  assert (Hcov : forall hx, cobre h evs hx -> ledger_ok (evs ++ tr) hx).
  { intros hx Hx k Hk. destruct (Hx k Hk) as [Hold|Hnew].
    - apply publicado_app_r, Hok, Hold.
    - apply publicado_app_l, Hnew. }
  split; [apply Hcov, Hh|].
  destruct Hc as [Heq|Hcs].
  - rewrite Heq. destruct c; try exact I.
    intros k Hk. apply publicado_app_r, Hfok, Hk.
  - destruct (arquivo_historico st') as [|hs|]; try exact I.
    apply Hcov, Hcs.
Qed.

(** C5.  Every key that [processar_resultados] adds to the ledger, in
    memory or in the file, is the fingerprint of a record whose posting
    returned success during the call; so a ledger, and a ledger file,
    whose keys were all published stay so. *)
Theorem processar_resultados_so_publicados (resp : resposta) (h : historico)
  (st : estado) :
  let '(_, h', st') := processar_resultados E resp h st in
  let evs := eventos_desde (rastro st) (rastro st') in
  (forall k, is_Some (h' !! k) -> is_Some (h !! k) \/ publicado evs k) /\
  (arquivo_historico st' = arquivo_historico st \/
   forall hs, arquivo_historico st' = Gravado hs ->
     forall k, is_Some (hs !! k) -> is_Some (h !! k) \/ publicado evs k) /\
  (ledger_ok (rastro st) h ->
   arquivo_ok (rastro st) (arquivo_historico st) ->
   ledger_ok (rastro st') h' /\ arquivo_ok (rastro st') (arquivo_historico st')).
Proof.
  pose proof (inv_processar_resultados resp h st) as Hinv.
  destruct (processar_resultados E resp h st) as [[n h'] st']. simpl in Hinv.
  pose proof (inv_ledger_ok _ _ _ _ _ Hinv) as Hok.
  destruct Hinv as (evs & Htr & Hh & Hc).
  rewrite Htr, eventos_desde_app. rewrite Htr in Hok.
  split; [exact Hh|]. split; [|exact Hok].
  destruct Hc as [Hc0|Hcs]; [left; exact Hc0|right].
  intros hs Hhs. rewrite Hhs in Hcs. exact Hcs.
Qed.

End Invariante.

Lemma processar_resultados_so_publicados_witness :
  let '(_, h', st') :=
    processar_resultados amb_card_falha (resposta_lista lote_de_tres) ∅
      estado_inicial in
  ledger_ok (rastro st') h' /\ arquivo_ok (rastro st') (arquivo_historico st').
Proof.
  pose proof (processar_resultados_so_publicados amb_card_falha
                (resposta_lista lote_de_tres) ∅ estado_inicial) as H.
  destruct (processar_resultados amb_card_falha (resposta_lista lote_de_tres)
              ∅ estado_inicial) as [[n h'] st'].
  destruct H as (_ & _ & H). apply H.
  - intros k [x Hx]. rewrite lookup_empty in Hx. discriminate.
  - exact I.
Defined.

(** ** Two records of one batch with the same fingerprint *)

Section Duplicados.

Context (E : ambiente).

Lemma processar_novos_app (l1 l2 : list atleta) (p : progresso) :
  processar_novos E (l1 ++ l2) p
  = match processar_novos E l1 p with
    | (Ret _, p1) => processar_novos E l2 p1
    | (Raise, p1) => (Raise, p1)
    end.
Proof.
  revert p. induction l1 as [|a l1 IH]; intros p; simpl; [reflexivity|].
  destruct (processar_atleta E a p) as [[[]|] p1]; [apply IH|reflexivity].
Qed.

Lemma tentar_atleta_historico (a : atleta) (p : progresso) (k : string) :
  is_Some (pr_historico p !! k) ->
  is_Some (pr_historico (tentar_atleta E a p).2 !! k).
Proof.
  destruct p as [h n st]. intros Hk. unfold tentar_atleta, salvar_se_postou.
  repeat case_match; simpl; try exact Hk.
  all: apply lookup_insert_is_Some'; right; exact Hk.
Qed.

Lemma processar_atleta_historico (a : atleta) (p : progresso) (k : string) :
  is_Some (pr_historico p !! k) ->
  is_Some (pr_historico (processar_atleta E a p).2 !! k).
Proof.
  intros Hk. unfold processar_atleta.
  pose proof (tentar_atleta_historico a p k Hk) as Ht.
  destruct (tentar_atleta E a p) as [[foto card] p1].
  destruct (limpar E foto card (pr_estado p1)). exact Ht.
Qed.

Lemma processar_novos_historico (novos : list atleta) (p : progresso)
  (k : string) :
  is_Some (pr_historico p !! k) ->
  is_Some (pr_historico (processar_novos E novos p).2 !! k).
Proof.
  apply (processar_novos_inv E (fun q => is_Some (pr_historico q !! k))).
  intros a q _. apply processar_atleta_historico.
Qed.

Lemma novo_Some (h : historico) (a : atleta) (k : string) :
  gerar_hash_atleta a = Some k -> h !! k = None -> novo h (IDict a) = Some a.
Proof. intros Hk Hh. simpl. rewrite Hk, Hh. reflexivity. Qed.

Lemma omap_novo_cons (h : historico) (a : atleta) (k : string) (l : list item) :
  gerar_hash_atleta a = Some k -> h !! k = None ->
  omap (novo h) (IDict a :: l) = a :: omap (novo h) l.
Proof.
  intros Hk Hh.
  change (omap (novo h) (IDict a :: l))
    with (match novo h (IDict a) with
          | Some y => y :: omap (novo h) l
          | None => omap (novo h) l
          end).
  rewrite (novo_Some h a k Hk Hh). reflexivity.
Qed.

Lemma processar_novos_retorna (novos : list atleta) (p : progresso) :
  Forall valido novos -> limpeza_funciona E ->
  exists evs p',
    processar_novos E novos p = (Ret tt, p') /\
    rastro (pr_estado p') = evs ++ rastro (pr_estado p).
Proof.
  intros Hv Hl.
  destruct (processar_novos_contagem E novos Hv Hl p) as (evs & p' & H1 & H2 & _).
  eauto.
Qed.

(** C9.  Two elements of one batch, at different places, whose
    fingerprint is the same and is not a key of the ledger: the first
    loop keeps both; and when the download and the card of the two work
    and the clean-up does not raise, the posting is called for the first
    and later for the second, although a successful posting of the first
    has put the fingerprint in the ledger. *)
Theorem processar_resultados_duplicados (resp : resposta)
  (l1 l2 l3 : list item) (a1 a2 : atleta) (k : string) (h : historico)
  (st : estado) (novos : list atleta) :
  resp_json resp = JsonLista (l1 ++ IDict a1 :: l2 ++ IDict a2 :: l3) ->
  gerar_hash_atleta a1 = Some k ->
  gerar_hash_atleta a2 = Some k ->
  h !! k = None ->
  filtrar_novos (l1 ++ IDict a1 :: l2 ++ IDict a2 :: l3) h = Some novos ->
  (exists n1 n2 n3, novos = n1 ++ a1 :: n2 ++ a2 :: n3) /\
  (estagios_funcionam E a1 -> estagios_funcionam E a2 -> limpeza_funciona E ->
   let '(_, h', st') := processar_resultados E resp h st in
   exists e1 e2 e3 card1 r1 card2 r2,
     eventos_desde (rastro st) (rastro st')
     = e3 ++ PostarNoX a2 card2 r2 :: e2 ++ PostarNoX a1 card1 r1 :: e1 /\
     (r1 = Ret true -> is_Some (h' !! k))).
Proof.
  intros Hl Hk1 Hk2 Hh Hf.
  assert (Hnovos : novos = omap (novo h) l1 ++ a1 :: omap (novo h) l2
                             ++ a2 :: omap (novo h) l3).
  { rewrite (filtrar_novos_omap _ _ _ Hf).
    rewrite omap_app, (omap_novo_cons h a1 k _ Hk1 Hh).
    rewrite omap_app, (omap_novo_cons h a2 k _ Hk2 Hh). reflexivity. }
  split; [eauto|].
  intros He1 He2 Hlimpa.
  assert (Hval : Forall valido novos).
  { eapply Forall_impl; [apply (filtrar_novos_validos _ _ _ Hf)|].
    intros x [Hx _]. exact Hx. }
  set (n1 := omap (novo h) l1) in *. set (n2 := omap (novo h) l2) in *.
  set (n3 := omap (novo h) l3) in *.
  assert (Hv : Forall valido n1 /\ valido a1 /\ Forall valido n2 /\
               valido a2 /\ Forall valido n3).
  { rewrite Hnovos in Hval.
    apply Forall_app in Hval as [H1 Hval]. apply Forall_cons in Hval as [Ha1 Hval].
    apply Forall_app in Hval as [H2 Hval]. apply Forall_cons in Hval as [Ha2 H3].
    auto. }
  destruct Hv as (Hv1 & Hva1 & Hv2 & Hva2 & Hv3).
  destruct novos as [|a0 resto] eqn:Hn0; [destruct n1; discriminate|].
  rewrite (processar_resultados_lista E resp _ h st a0 resto Hl Hf), Hnovos.
  destruct (processar_novos_retorna n1 (Progresso h 0 st) Hv1 Hlimpa)
    as (ev1 & p1 & Hr1 & Ht1).
  destruct (processar_atleta_posta E a1 p1 Hva1 He1 Hlimpa)
    as (p2 & ea & eb & card1 & r1 & Hr2 & Ht2 & Hled).
  destruct (processar_novos_retorna n2 p2 Hv2 Hlimpa) as (ev3 & p3 & Hr3 & Ht3).
  destruct (processar_atleta_posta E a2 p3 Hva2 He2 Hlimpa)
    as (p4 & ec & ed & card2 & r2 & Hr4 & Ht4 & _).
  destruct (processar_novos_retorna n3 p4 Hv3 Hlimpa) as (ev5 & p5 & Hr5 & Ht5).
  assert (Hresto : processar_novos E (n2 ++ a2 :: n3) p2 = (Ret tt, p5)).
  { rewrite processar_novos_app, Hr3. simpl. rewrite Hr4. exact Hr5. }
  assert (Hrun : processar_novos E (n1 ++ a1 :: n2 ++ a2 :: n3) (Progresso h 0 st)
                 = (Ret tt, p5)).
  { rewrite processar_novos_app, Hr1. simpl. rewrite Hr2. exact Hresto. }
  rewrite Hrun.
  set (g := gravar_arquivo E (rastro (pr_estado p5)) (pr_historico p5)).
  assert (Htr : rastro (salvar_historico E (pr_historico p5) (pr_estado p5))
    = ((Salvar (pr_historico p5) g :: ev5 ++ ed) ++ PostarNoX a2 card2 r2
         :: (ec ++ ev3 ++ eb) ++ PostarNoX a1 card1 r1 :: ea ++ ev1)
      ++ rastro st).
  { rewrite salvar_historico_rastro. fold g.
    rewrite Ht5, Ht4, Ht3, Ht2, Ht1. simpl.
    repeat (rewrite <- app_assoc || rewrite <- app_comm_cons). reflexivity. }
  rewrite Htr, eventos_desde_app.
  exists (ea ++ ev1), (ec ++ ev3 ++ eb), (Salvar (pr_historico p5) g :: ev5 ++ ed),
    card1, r1, card2, r2.
  split; [reflexivity|].
  - intros Hsuc. destruct (Hled Hsuc) as (k' & Hk' & Hin).
    assert (k' = k) by congruence. subst k'.
    pose proof (processar_novos_historico (n2 ++ a2 :: n3) p2 k Hin) as Hfin.
    rewrite Hresto in Hfin. exact Hfin.
Qed.

End Duplicados.

Lemma processar_resultados_duplicados_witness :
  let '(_, h', st') :=
    processar_resultados amb_tudo_certo (resposta_lista lote_duplicado) ∅
      estado_inicial in
  exists e1 e2 e3 card1 r1 card2 r2,
    eventos_desde [] (rastro st')
    = e3 ++ PostarNoX (atleta_exemplo "Bia" (SInt 7)) card2 r2
        :: e2 ++ PostarNoX (atleta_exemplo "Ana" SNone) card1 r1 :: e1 /\
    (r1 = Ret true -> is_Some (h' !! "84aa30f71520b8337a143dad1b2ab15f")).
Proof.
  refine (proj2 (processar_resultados_duplicados amb_tudo_certo
            (resposta_lista lote_duplicado) [] [] []
            (atleta_exemplo "Ana" SNone) (atleta_exemplo "Bia" (SInt 7))
            "84aa30f71520b8337a143dad1b2ab15f" ∅ estado_inicial lote_duplicado
            _ _ _ _ _) _ _ _).
  - reflexivity.
  - vm_compute. reflexivity.
  - vm_compute. reflexivity.
  - apply lookup_empty.
  - apply (filtrar_novos_vazio lote_duplicado). valida.
  - split; [intros; discriminate|]. intros tr foto. eexists. split; reflexivity.
  - split; [intros; discriminate|]. intros tr foto. eexists. split; reflexivity.
  - intros tr foto card. reflexivity.
Defined.

Example duplicados_postados_duas_vezes :
  let '(n, h', st') :=
    processar_resultados amb_tudo_certo (resposta_lista lote_duplicado) ∅
      estado_inicial in
  n = 2 /\ size h' = 1%nat /\
  omap (fun ev => match ev with
                  | PostarNoX a _ r => Some (a !! "nome", r)
                  | _ => None
                  end) (rastro st')
  = [ (Some (SStr "Bia"), Ret true); (Some (SStr "Ana"), Ret true) ].
Proof. vm_compute. repeat split; reflexivity. Qed.

(** ** The fetch loop *)

Lemma contar_zero (P Q : event -> bool) (evs : list event) :
  (forall ev, Q ev = true -> P ev = false) ->
  Forall (fun ev => Q ev = true) evs ->
  contar P evs = 0%nat.
Proof.
  intros HPQ Hall. induction Hall as [|ev evs Hev _ IH]; simpl; [reflexivity|].
  rewrite (HPQ ev Hev), IH. reflexivity.
Qed.

Section Fetch.

Context (E : ambiente).

Lemma tentativas_ocr_curto (csrf data : string) (h : historico) (ts : list Z) :
  ocr_sempre_curto E ->
  forall st, exists evs st',
    tentativas E csrf data h ts st = (false, st') /\
    rastro st' = evs ++ rastro st /\
    Forall (fun ev => e_captcha_ou_ocr ev = true) evs /\
    contar e_captcha evs = length ts.
Proof.
  intros Hocr. induction ts as [|t ts IH]; intros st.
  - exists [], st. repeat split. constructor.
  - simpl.
    destruct (baixar_captcha E (rastro st)) as [img|].
    + destruct (Hocr (BaixarCaptcha (Ret img) :: rastro st) img)
        as (texto & -> & Hlen).
      apply Nat.ltb_lt in Hlen. rewrite Hlen.
      destruct (IH (registrar (OcrCaptcha img (Ret texto))
                      (registrar (BaixarCaptcha (Ret img)) st)))
        as (evs & st' & Hrun & Htr & Hall & Hcount).
      exists (evs ++ [OcrCaptcha img (Ret texto); BaixarCaptcha (Ret img)]), st'.
      split; [exact Hrun|]. split; [rewrite Htr, <- app_assoc; reflexivity|].
      split.
      * apply Forall_app. split; [exact Hall|]. repeat constructor.
      * rewrite contar_app, Hcount. simpl. lia.
    + destruct (IH (registrar (BaixarCaptcha Raise) st))
        as (evs & st' & Hrun & Htr & Hall & Hcount).
      exists (evs ++ [BaixarCaptcha Raise]), st'.
      split; [exact Hrun|]. split; [rewrite Htr, <- app_assoc; reflexivity|].
      split.
      * apply Forall_app. split; [exact Hall|]. repeat constructor.
      * rewrite contar_app, Hcount. simpl. lia.
Qed.

Lemma limpar_historico_preparo (d : string) (st : estado) :
  exists prep,
    rastro (limpar_historico_se_novo_dia E d st).2 = prep ++ rastro st /\
    Forall (fun ev => e_preparo ev = true) prep.
Proof.
  unfold limpar_historico_se_novo_dia.
  destruct (ultimo_dia_verificado st) as [u|]; [|exists []; split; [reflexivity|constructor]].
  destruct (decide (d <> u)); [|exists []; split; [reflexivity|constructor]].
  destruct (arquivo_historico st);
    [exists []; split; [reflexivity|constructor]| |];
    destruct (remover_arquivo E (rastro st)); simpl;
    eexists [_]; (split; [reflexivity|]); repeat constructor.
Qed.

Lemma carregar_historico_efeito (st : estado) :
  let '(_, st') := carregar_historico E st in
  ultimo_dia_verificado st' = ultimo_dia_verificado st /\
  arquivo_historico st' = arquivo_historico st /\
  exists prep,
    rastro st' = prep ++ rastro st /\
    Forall (fun ev => e_preparo ev = true) prep.
Proof.
  unfold carregar_historico.
  destruct (arquivo_historico st) eqn:Ha; simpl; rewrite ?Ha;
    (split; [reflexivity|]); (split; [reflexivity|]).
  - exists []. split; [reflexivity|constructor].
  - eexists [_]. split; [reflexivity|]. repeat constructor.
  - eexists [_]. split; [reflexivity|]. repeat constructor.
Qed.

(** The shape of a cycle: it stops before the attempts (an exception of
    [criar_pastas], of [obter_data_hoje] or of [pegar_csrf_token]), or it
    runs the attempts with the token and the loaded ledger. *)
Lemma buscar_estrutura (d : string) (st : estado) :
  let st0 := (limpar_historico_se_novo_dia E d st).2 in
  let '(r, st') := buscar_e_processar_novos E d st in
  exists prep,
    Forall (fun ev => e_preparo ev = true) prep /\
    ((rastro st' = prep ++ rastro st /\ r <> Ret true /\
      arquivo_historico st' = arquivo_historico st0 /\
      ultimo_dia_verificado st' = ultimo_dia_verificado st0) \/
     (exists tok data st4 b,
        rastro st4 = PegarCsrfToken (Ret tok) :: prep ++ rastro st /\
        arquivo_historico st4 = arquivo_historico st0 /\
        ultimo_dia_verificado st4 = ultimo_dia_verificado st0 /\
        tentativas E tok data (carregado E st0)
          (seqZ 1 (Z.min (MAX_TENTATIVAS E) 50)) st4 = (b, st') /\
        r = Ret b)).
Proof.
  intros st0. unfold buscar_e_processar_novos. fold st0.
  destruct (limpar_historico_preparo d st) as (p0 & Hp0 & Hall0). fold st0 in Hp0.
  destruct (criar_pastas E (rastro st0)) as [[]|] eqn:H1.
  2:{ exists (CriarPastas Raise :: p0). split; [constructor; [reflexivity|exact Hall0]|].
      left. simpl. rewrite Hp0. repeat split. discriminate. }
  unfold carregado.
  set (st1 := registrar (CriarPastas (Ret tt)) st0).
  pose proof (carregar_historico_efeito st1) as Hc.
  destruct (carregar_historico E st1) as [h st2].
  destruct Hc as (Hu2 & Ha2 & p2 & Hp2 & Hall2).
  assert (Hprep : Forall (fun ev => e_preparo ev = true)
                    (p2 ++ CriarPastas (Ret tt) :: p0)).
  { apply Forall_app. split; [exact Hall2|]. constructor; [reflexivity|exact Hall0]. }
  assert (Htr2 : rastro st2 = (p2 ++ CriarPastas (Ret tt) :: p0) ++ rastro st).
  { rewrite Hp2. simpl. rewrite Hp0, <- app_assoc. reflexivity. }
  destruct (obter_data_hoje E (rastro st2)) as [data|] eqn:H3.
  2:{ exists (ObterDataHoje Raise :: p2 ++ CriarPastas (Ret tt) :: p0).
      split; [constructor; [reflexivity|exact Hprep]|].
      left. simpl. rewrite Htr2, Hu2, Ha2. repeat split. discriminate. }
  set (st3 := registrar (ObterDataHoje (Ret data)) st2).
  destruct (pegar_csrf_token E (rastro st3)) as [tok|] eqn:H4.
  2:{ exists (PegarCsrfToken Raise :: ObterDataHoje (Ret data)
               :: p2 ++ CriarPastas (Ret tt) :: p0).
      split; [repeat (constructor; [reflexivity|]); exact Hprep|].
      left. simpl. rewrite Htr2, Hu2, Ha2. repeat split. discriminate. }
  set (st4 := registrar (PegarCsrfToken (Ret tok)) st3).
  destruct (tentativas E tok data h (seqZ 1 (Z.min (MAX_TENTATIVAS E) 50)) st4)
    as [b st5] eqn:Hrun.
  exists (ObterDataHoje (Ret data) :: p2 ++ CriarPastas (Ret tt) :: p0).
  split; [constructor; [reflexivity|exact Hprep]|].
  right. exists tok, data, st4, b. simpl. rewrite Htr2, Hu2, Ha2.
  repeat split. exact Hrun.
Qed.

(** C3.  When the OCR always returns a text of fewer than 3 characters
    and the cycle has acquired its token, the cycle returns [False] after
    downloading a CAPTCHA [min(MAX_TENTATIVAS, 50)] times (no time when
    that number is not positive) and sends no search. *)
Theorem buscar_e_processar_novos_ocr_curto (d : string) (st : estado) :
  ocr_sempre_curto E ->
  let '(r, st') := buscar_e_processar_novos E d st in
  let evs := eventos_desde (rastro st) (rastro st') in
  (exists tok, PegarCsrfToken (Ret tok) ∈ evs) ->
  r = Ret false /\
  contar e_captcha evs = Z.to_nat (Z.min (MAX_TENTATIVAS E) 50) /\
  (0 <= MAX_TENTATIVAS E ->
   Z.of_nat (contar e_captcha evs) = Z.min (MAX_TENTATIVAS E) 50) /\
  contar e_busca evs = 0%nat.
Proof.
  intros Hocr. pose proof (buscar_estrutura d st) as Hs. cbv zeta in Hs.
  destruct (buscar_e_processar_novos E d st) as [r st'].
  destruct Hs as (prep & Hall & [[Htr _]|(tok & data & st4 & b & Hs)]);
    [|destruct Hs as (Htr4 & _ & _ & Hrun & ->)]; cbv zeta.
  - rewrite Htr, eventos_desde_app. intros [tok Hin]. exfalso.
    rewrite Forall_forall in Hall. specialize (Hall _ Hin). discriminate.
  - destruct (tentativas_ocr_curto tok data (carregado E
                (limpar_historico_se_novo_dia E d st).2)
                (seqZ 1 (Z.min (MAX_TENTATIVAS E) 50)) Hocr st4)
      as (evs & st'' & Hrun' & Htr & Hloop & Hcount).
    rewrite Hrun in Hrun'. injection Hrun' as -> <-.
    rewrite length_seqZ in Hcount.
    assert (Hev : rastro st'
                  = (evs ++ PegarCsrfToken (Ret tok) :: prep) ++ rastro st).
    { rewrite Htr, Htr4, <- app_assoc. reflexivity. }
    rewrite Hev, eventos_desde_app. intros _.
    assert (Hcap : contar e_captcha (evs ++ PegarCsrfToken (Ret tok) :: prep)
                   = Z.to_nat (Z.min (MAX_TENTATIVAS E) 50)).
    { rewrite contar_app, Hcount. simpl.
      rewrite (contar_zero e_captcha e_preparo prep); [lia| |exact Hall].
      intros [] Hev'; try discriminate; reflexivity. }
    split; [reflexivity|]. split; [exact Hcap|]. split; [rewrite Hcap; lia|].
    rewrite contar_app. simpl.
    rewrite (contar_zero e_busca e_captcha_ou_ocr evs);
      [|intros [] Hev'; try discriminate; reflexivity|exact Hloop].
    rewrite (contar_zero e_busca e_preparo prep); [reflexivity| |exact Hall].
    intros [] Hev'; try discriminate; reflexivity.
Qed.

End Fetch.

Lemma buscar_e_processar_novos_ocr_curto_witness :
  let '(r, st') :=
    buscar_e_processar_novos amb_ocr_curto "2024-01-01" estado_inicial in
  let evs := eventos_desde [] (rastro st') in
  r = Ret false /\
  contar e_captcha evs = 50%nat /\
  contar e_busca evs = 0%nat.
Proof.
  pose proof (buscar_e_processar_novos_ocr_curto amb_ocr_curto "2024-01-01"
                estado_inicial) as H.
  destruct (buscar_e_processar_novos amb_ocr_curto "2024-01-01" estado_inicial)
    as [r st'] eqn:Hb.
  vm_compute in Hb. injection Hb as <- <-.
  destruct H as (Hr & Hn & _ & Hb).
  - intros tr img. exists "a"%string. split; [reflexivity|]. simpl. lia.
  - exists "csrf"%string. apply list_elem_of_lookup. exists 100%nat.
    vm_compute. reflexivity.
  - repeat split; assumption.
Defined.

(** ** A published fingerprint stays in the ledger file *)

Section Persistencia.

Context (E : ambiente).

Section Passo.

Context (novos : list atleta) (h0 : historico) (c0 : conteudo)
  (u0 : option string) (tr0 : list event).

Local Abbreviation J := (inv_persistencia novos h0 c0 u0 tr0).

(** Calls that are no successful posting and leave the file alone. *)
Lemma invp_eventos (h : historico) (n : Z) (st st' : estado)
  (mais : list event) :
  J (Progresso h n st) ->
  rastro st' = mais ++ rastro st ->
  ultimo_dia_verificado st' = ultimo_dia_verificado st ->
  arquivo_historico st' = arquivo_historico st ->
  (forall a c r, PostarNoX a c r ∈ mais -> a ∈ novos /\ r <> Ret true) ->
  J (Progresso h n st').
Proof.
  intros (evs & Htr & Hu & Hn & Hsub & Hnov & Hsuc & Hpos & Hzero)
    Htr' Hu' Ha' Hmais.
  simpl in *. exists (mais ++ evs). simpl.
  split; [rewrite Htr', Htr, app_assoc; reflexivity|].
  split; [congruence|]. split; [exact Hn|]. split; [exact Hsub|].
  split; [|split; [|split]].
  - intros a c r Hin. apply elem_of_app in Hin as [Hin|Hin].
    + apply (Hmais a c r Hin).
    + apply (Hnov a c r Hin).
  - intros a c k Hin Hk. apply elem_of_app in Hin as [Hin|Hin].
    + destruct (Hmais a c (Ret true) Hin) as [_ Hne]. contradiction.
    + apply (Hsuc a c k Hin Hk).
  - intros Hp. rewrite Ha'. apply Hpos, Hp.
  - intros Hz. rewrite Ha'. apply Hzero, Hz.
Qed.

Lemma invp_registrar (h : historico) (n : Z) (st : estado) (ev : event) :
  e_postar ev = false ->
  J (Progresso h n st) -> J (Progresso h n (registrar ev st)).
Proof.
  intros Hev Hp. apply (invp_eventos h n st _ [ev] Hp); try reflexivity.
  intros a c r Hin. apply list_elem_of_singleton in Hin. subst ev. discriminate.
Qed.

Lemma invp_postar_falha (h : historico) (n : Z) (st : estado) (a : atleta)
  (c : caminho) (r : outcome bool) :
  a ∈ novos -> r <> Ret true ->
  J (Progresso h n st) -> J (Progresso h n (registrar (PostarNoX a c r) st)).
Proof.
  intros Ha Hr Hp. apply (invp_eventos h n st _ [PostarNoX a c r] Hp);
    try reflexivity.
  intros a' c' r' Hin. apply list_elem_of_singleton in Hin.
  injection Hin as -> -> ->. split; assumption.
Qed.

Lemma invp_salvar (h : historico) (n : Z) (st : estado) :
  gravacao_funciona E -> 0 < n ->
  J (Progresso h n st) -> J (Progresso h n (salvar_historico E h st)).
Proof.
  intros Hg Hn0 (evs & Htr & Hu & Hn & Hsub & Hnov & Hsuc & Hpos & Hzero).
  simpl in *. exists (Salvar h (gravar_arquivo E (rastro st) h) :: evs). simpl.
  rewrite salvar_historico_rastro, salvar_historico_dia,
    salvar_historico_arquivo, Hg, Htr.
  split; [reflexivity|]. split; [exact Hu|]. split; [exact Hn|].
  split; [exact Hsub|]. split; [|split; [|split]].
  - intros a c r Hin. apply elem_of_cons in Hin as [Hin|Hin]; [discriminate|].
    apply (Hnov a c r Hin).
  - intros a c k Hin Hk. apply elem_of_cons in Hin as [Hin|Hin]; [discriminate|].
    apply (Hsuc a c k Hin Hk).
  - reflexivity.
  - lia.
Qed.

Lemma invp_salvar_se_postou (p : progresso) :
  gravacao_funciona E -> J p -> J (salvar_se_postou E p).
Proof.
  intros Hg Hp. destruct p as [h n st]. unfold salvar_se_postou. simpl.
  destruct (0 <? n) eqn:Hn; [|exact Hp].
  apply invp_salvar; [exact Hg|apply Z.ltb_lt, Hn|exact Hp].
Qed.

Lemma invp_sucesso (h : historico) (n : Z) (st : estado) (a : atleta)
  (c : caminho) (k : string) (reg : registro) :
  gravacao_funciona E -> a ∈ novos -> gerar_hash_atleta a = Some k ->
  J (Progresso h n st) ->
  J (salvar_se_postou E
       (Progresso (<[k := reg]> h) (n + 1)
          (registrar (PostarNoX a c (Ret true)) st))).
Proof.
  intros Hg Ha Hk (evs & Htr & Hu & Hn & Hsub & Hnov & Hsuc & Hpos & Hzero).
  simpl in *. unfold salvar_se_postou. simpl.
  replace (0 <? n + 1) with true by (symmetry; apply Z.ltb_lt; lia).
  exists (Salvar (<[k := reg]> h) GravOk :: PostarNoX a c (Ret true) :: evs).
  simpl.
  rewrite salvar_historico_rastro, salvar_historico_dia,
    salvar_historico_arquivo, !Hg. simpl. rewrite Htr.
  split; [reflexivity|]. split; [exact Hu|]. split; [lia|].
  split; [|split; [|split; [|split]]].
  - intros k' Hk'. apply lookup_insert_is_Some'. right. apply Hsub, Hk'.
  - intros a' c' r' Hin. apply elem_of_cons in Hin as [Hin|Hin]; [discriminate|].
    apply elem_of_cons in Hin as [Hin|Hin].
    + injection Hin as -> _ _. exact Ha.
    + apply (Hnov a' c' r' Hin).
  - intros a' c' k' Hin Hk'.
    apply elem_of_cons in Hin as [Hin|Hin]; [discriminate|].
    split; [|lia]. apply lookup_insert_is_Some'.
    apply elem_of_cons in Hin as [Hin|Hin].
    + injection Hin as -> _. left. congruence.
    + right. apply (Hsuc a' c' k' Hin Hk').
  - reflexivity.
  - lia.
Qed.

Lemma invp_processar_atleta (a : atleta) (p : progresso) :
  gravacao_funciona E -> a ∈ novos -> valido a ->
  J p -> J (processar_atleta E a p).2.
Proof.
  intros Hg Ha Hv Hp.
  destruct (valido_campos a Hv) as (k & nome & codigo & Hk & Hnome & Hcod & Hreg).
  destruct p as [h n st].
  assert (Hlimpar : forall foto card p1,
    J p1 ->
    J (Progresso (pr_historico p1) (pr_postados p1)
         (limpar E foto card (pr_estado p1)).2)).
  { intros foto card [h1 n1 st1] H1. unfold limpar. simpl.
    destruct (verdadeiro foto || verdadeiro card); [|exact H1].
    apply invp_registrar; [reflexivity|exact H1]. }
  assert (Hfim : forall foto card p1,
    J p1 ->
    J (let '(r, st2) := limpar E foto card (pr_estado p1) in
       (r, Progresso (pr_historico p1) (pr_postados p1) st2)).2).
  { intros foto card p1 H1. specialize (Hlimpar foto card p1 H1).
    destruct (limpar E foto card (pr_estado p1)). exact Hlimpar. }
  unfold processar_atleta, tentar_atleta. rewrite Hnome, Hcod.
  pose proof (invp_registrar h n st
    (BaixarFoto codigo nome (baixar_foto_atleta E (rastro st) codigo nome))
    eq_refl Hp) as H1.
  destruct (baixar_foto_atleta E (rastro st) codigo nome) as [foto|];
    [|apply Hfim, H1].
  set (st1 := registrar (BaixarFoto codigo nome (Ret foto)) st) in *.
  pose proof (invp_registrar h n st1
    (CriarCard a foto (criar_card_atleta E (rastro st1) a foto)) eq_refl H1)
    as H2.
  destruct (criar_card_atleta E (rastro st1) a foto) as [card|];
    [|apply Hfim, H2].
  set (st2 := registrar (CriarCard a foto (Ret card)) st1) in *.
  destruct (verdadeiro card).
  2:{ apply Hfim, (invp_salvar_se_postou (Progresso h n st2) Hg H2). }
  destruct (postar_no_x E (rastro st2) a card) as [[|]|] eqn:H3.
  - set (st3 := registrar (PostarNoX a card (Ret true)) st2).
    destruct (Hreg (agora_isoformat E (rastro st3))) as [reg ->].
    apply Hfim, invp_sucesso; assumption.
  - apply Hfim, (invp_salvar_se_postou (Progresso h n _) Hg).
    apply invp_postar_falha; [exact Ha|discriminate|exact H2].
  - apply Hfim. apply invp_postar_falha; [exact Ha|discriminate|exact H2].
Qed.

End Passo.

Lemma efeito_refl (h : historico) (st : estado) : efeito h st st.
Proof.
  split; [reflexivity|]. exists []. split; [reflexivity|].
  split; [intros a c r Hin; inversion Hin|].
  split; [left; reflexivity|]. intros a c k Hin; inversion Hin.
Qed.

Lemma efeito_registrar (h : historico) (st st' : estado) (ev : event) :
  e_postar ev = false ->
  efeito h (registrar ev st) st' -> efeito h st st'.
Proof.
  intros Hev (Hu & evs & Htr & Hnov & Hfile & Hsuc).
  split; [exact Hu|]. exists (evs ++ [ev]).
  split; [rewrite Htr, <- app_assoc; reflexivity|].
  assert (Hin : forall a c r, PostarNoX a c r ∈ evs ++ [ev] ->
                              PostarNoX a c r ∈ evs).
  { intros a c r Hin. apply elem_of_app in Hin as [Hin|Hin]; [exact Hin|].
    apply list_elem_of_singleton in Hin. subst ev. discriminate. }
  split; [intros a c r Ha; apply (Hnov a c r), Hin, Ha|].
  split; [exact Hfile|].
  intros a c k Ha. apply (Hsuc a c k), Hin, Ha.
Qed.

Lemma processar_resultados_efeito (resp : resposta) (h : historico)
  (st : estado) :
  gravacao_funciona E ->
  efeito h st (processar_resultados E resp h st).2.
Proof.
  intros Hg. unfold processar_resultados.
  destruct (resp_json resp) as [| |[|it l]]; try apply efeito_refl.
  destruct (filtrar_novos (it :: l) h) as [[|a novos]|] eqn:Hf;
    try apply efeito_refl.
  pose proof (filtrar_novos_validos _ _ _ Hf) as Hval.
  rewrite Forall_forall in Hval.
  pose proof (processar_novos_inv E
    (inv_persistencia (a :: novos) h (arquivo_historico st)
       (ultimo_dia_verificado st) (rastro st)) (a :: novos)) as Hloop.
  specialize (Hloop (fun a' p' Hin =>
    invp_processar_atleta _ _ _ _ _ a' p' Hg Hin (proj1 (Hval a' Hin)))
    (Progresso h 0 st)).
  assert (H0 : inv_persistencia (a :: novos) h (arquivo_historico st)
                 (ultimo_dia_verificado st) (rastro st) (Progresso h 0 st)).
  { exists []. simpl.
    split; [reflexivity|]. split; [reflexivity|]. split; [lia|].
    split; [intros k Hk; exact Hk|].
    split; [intros a' c r Hin; inversion Hin|].
    split; [intros a' c k Hin; inversion Hin|].
    split; [lia|reflexivity]. }
  specialize (Hloop H0).
  destruct (processar_novos E (a :: novos) (Progresso h 0 st)) as [r p].
  simpl in Hloop.
  destruct Hloop as (evs & Htr & Hu & Hn & Hsub & Hnov & Hsuc & Hpos & Hzero).
  assert (Hfresh : forall a' c r', PostarNoX a' c r' ∈ evs ->
            exists k, gerar_hash_atleta a' = Some k /\ h !! k = None).
  { intros a' c r' Hin. apply (Hval a'), (Hnov a' c r' Hin). }
  destruct r as [[]|]; simpl.
  - split; [rewrite salvar_historico_dia; exact Hu|].
    exists (Salvar (pr_historico p) GravOk :: evs).
    rewrite salvar_historico_rastro, salvar_historico_arquivo, Hg, Htr.
    split; [reflexivity|]. split; [|split].
    + intros a' c r' Hin. apply elem_of_cons in Hin as [Hin|Hin]; [discriminate|].
      apply (Hfresh a' c r' Hin).
    + right. exists (pr_historico p). split; [reflexivity|exact Hsub].
    + intros a' c k Hin Hk. apply elem_of_cons in Hin as [Hin|Hin]; [discriminate|].
      exists (pr_historico p). split; [reflexivity|].
      apply (Hsuc a' c k Hin Hk).
  - split; [exact Hu|]. exists evs. split; [exact Htr|]. split; [exact Hfresh|].
    split.
    + destruct (Z.eq_dec (pr_postados p) 0) as [Hz|Hnz].
      * left. apply Hzero, Hz.
      * right. exists (pr_historico p). split; [apply Hpos; lia|exact Hsub].
    + intros a' c k Hin Hk. destruct (Hsuc a' c k Hin Hk) as [Hin' Hp].
      exists (pr_historico p). split; [apply Hpos, Hp|exact Hin'].
Qed.

Lemma tentativas_efeito (csrf data : string) (h : historico) (ts : list Z) :
  gravacao_funciona E ->
  forall st, efeito h st (tentativas E csrf data h ts st).2.
Proof.
  intros Hg. induction ts as [|t ts IH]; intros st; [apply efeito_refl|].
  simpl.
  destruct (baixar_captcha E (rastro st)) as [img|];
    [|apply (efeito_registrar h st _ (BaixarCaptcha Raise) eq_refl), IH].
  apply (efeito_registrar h st _ (BaixarCaptcha (Ret img)) eq_refl).
  set (st1 := registrar (BaixarCaptcha (Ret img)) st).
  change (BaixarCaptcha (Ret img) :: rastro st) with (rastro st1).
  destruct (ocr_captcha E (rastro st1) img) as [texto|];
    [|apply (efeito_registrar h st1 _ (OcrCaptcha img Raise) eq_refl), IH].
  apply (efeito_registrar h st1 _ (OcrCaptcha img (Ret texto)) eq_refl).
  set (st2 := registrar (OcrCaptcha img (Ret texto)) st1).
  change (OcrCaptcha img (Ret texto) :: rastro st1) with (rastro st2).
  destruct (String.length texto <? 3)%nat; [apply IH|].
  destruct (tentar_busca E (rastro st2) csrf texto data) as [resp|];
    [|apply (efeito_registrar h st2 _ (TentarBusca csrf texto data Raise) eq_refl),
        IH].
  apply (efeito_registrar h st2 _ (TentarBusca csrf texto data (Ret resp)) eq_refl).
  destruct (contem "captcha" (lower (resp_text resp))); [apply IH|].
  simpl. apply processar_resultados_efeito, Hg.
Qed.

Lemma limpar_historico_dia (d : string) (st : estado) :
  remocao_funciona E ->
  ultimo_dia_verificado (limpar_historico_se_novo_dia E d st).2 = Some d.
Proof.
  intros Hr. unfold limpar_historico_se_novo_dia.
  destruct (ultimo_dia_verificado st) as [u|] eqn:Hu; [|reflexivity].
  destruct (decide (d <> u)) as [Hne|Heq].
  - destruct (arquivo_historico st); [reflexivity| |]; rewrite Hr; reflexivity.
  - simpl. rewrite Hu. f_equal. symmetry. apply dec_stable, Heq.
Qed.

Lemma postar_em_preparo (a : atleta) (c : caminho) (r : outcome bool)
  (prep : list event) :
  Forall (fun ev => e_preparo ev = true) prep ->
  PostarNoX a c r ∈ prep -> False.
Proof.
  intros Hall Hin. rewrite Forall_forall in Hall.
  specialize (Hall _ Hin). discriminate.
Qed.

Lemma postar_no_ciclo (a : atleta) (c : caminho) (r : outcome bool)
  (evs prep : list event) (ev : event) :
  Forall (fun ev => e_preparo ev = true) prep ->
  e_postar ev = false ->
  PostarNoX a c r ∈ evs ++ ev :: prep -> PostarNoX a c r ∈ evs.
Proof.
  intros Hall Hev Hin. apply elem_of_app in Hin as [Hin|Hin]; [exact Hin|].
  apply elem_of_cons in Hin as [Hin|Hin]; [subst ev; discriminate|].
  destruct (postar_em_preparo a c r prep Hall Hin).
Qed.

(** A cycle, when writes and removals work: it leaves its date recorded,
    and every fingerprint it posted with success in the ledger file. *)
Lemma ciclo_persiste (d : string) (st : estado) :
  gravacao_funciona E -> remocao_funciona E ->
  let st' := (buscar_e_processar_novos E d st).2 in
  ultimo_dia_verificado st' = Some d /\
  forall a c k,
    PostarNoX a c (Ret true) ∈ eventos_desde (rastro st) (rastro st') ->
    gerar_hash_atleta a = Some k -> persistido k st'.
Proof.
  intros Hg Hr. pose proof (buscar_estrutura E d st) as Hs. cbv zeta in Hs.
  pose proof (limpar_historico_dia d st Hr) as Hd.
  destruct (buscar_e_processar_novos E d st) as [r st']. simpl.
  destruct Hs as (prep & Hall & [(Htr & _ & _ & Hu)|(tok & data & st4 & b & Hs)]).
  - split; [congruence|]. rewrite Htr, eventos_desde_app.
    intros a c k Hin. destruct (postar_em_preparo _ _ _ _ Hall Hin).
  - destruct Hs as (Htr4 & _ & Hu4 & Hrun & _).
    pose proof (tentativas_efeito tok data
      (carregado E (limpar_historico_se_novo_dia E d st).2)
      (seqZ 1 (Z.min (MAX_TENTATIVAS E) 50)) Hg st4) as Hef.
    rewrite Hrun in Hef. simpl in Hef.
    destruct Hef as (Hu & evs & Htr & _ & _ & Hsuc).
    split; [congruence|].
    assert (Hev : rastro st'
                  = (evs ++ PegarCsrfToken (Ret tok) :: prep) ++ rastro st).
    { rewrite Htr, Htr4, <- app_assoc. reflexivity. }
    rewrite Hev, eventos_desde_app. intros a c k Hin Hk.
    apply (Hsuc a c k); [|exact Hk].
    apply (postar_no_ciclo _ _ _ _ _ (PegarCsrfToken (Ret tok)) Hall eq_refl Hin).
Qed.

(** A later cycle on the same day, when writes and reads work: the
    fingerprint stays in the file, and no record that has it is posted. *)
Lemma ciclo_seguinte (d : string) (st : estado) (k : string) :
  gravacao_funciona E -> leitura_funciona E ->
  ultimo_dia_verificado st = Some d ->
  persistido k st ->
  let st' := (buscar_e_processar_novos E d st).2 in
  ultimo_dia_verificado st' = Some d /\
  persistido k st' /\
  forall a c r,
    PostarNoX a c r ∈ eventos_desde (rastro st) (rastro st') ->
    gerar_hash_atleta a <> Some k.
Proof.
  intros Hg Hl Hd (hs & Hfile & Hk).
  pose proof (buscar_estrutura E d st) as Hs. cbv zeta in Hs.
  rewrite (limpar_historico_mesmo_dia E d st Hd) in Hs. simpl in Hs.
  assert (Hcar : carregado E st = hs).
  { unfold carregado, carregar_historico. simpl. rewrite Hfile, Hl. reflexivity. }
  rewrite Hcar in Hs.
  destruct (buscar_e_processar_novos E d st) as [r st']. simpl.
  destruct Hs as (prep & Hall & [(Htr & _ & Ha & Hu)|(tok & data & st4 & b & Hs)]).
  - split; [congruence|]. split; [exists hs; split; [congruence|exact Hk]|].
    rewrite Htr, eventos_desde_app.
    intros a c r' Hin. destruct (postar_em_preparo _ _ _ _ Hall Hin).
  - destruct Hs as (Htr4 & Ha4 & Hu4 & Hrun & _).
    pose proof (tentativas_efeito tok data hs
      (seqZ 1 (Z.min (MAX_TENTATIVAS E) 50)) Hg st4) as Hef.
    rewrite Hrun in Hef. simpl in Hef.
    destruct Hef as (Hu & evs & Htr & Hnov & Hf & _).
    split; [congruence|]. split.
    + destruct Hf as [Hsame|(hs' & Hhs' & Hsub)].
      * exists hs. split; [congruence|exact Hk].
      * exists hs'. split; [exact Hhs'|apply Hsub, Hk].
    + assert (Hev : rastro st'
                    = (evs ++ PegarCsrfToken (Ret tok) :: prep) ++ rastro st).
      { rewrite Htr, Htr4, <- app_assoc. reflexivity. }
      rewrite Hev, eventos_desde_app. intros a c r' Hin Hka.
      destruct (Hnov a c r'
                  (postar_no_ciclo _ _ _ _ _ (PegarCsrfToken (Ret tok))
                     Hall eq_refl Hin))
        as (k' & Hk' & Hnone).
      assert (k' = k) by congruence. subst k'.
      rewrite Hnone in Hk. destruct Hk as [x Hx]. discriminate.
Qed.

Lemma ciclos_seguintes (d : string) (ds : list string) (k : string) :
  gravacao_funciona E -> leitura_funciona E ->
  Forall (eq d) ds ->
  forall st,
    ultimo_dia_verificado st = Some d -> persistido k st ->
    ultimo_dia_verificado (ciclos E ds st) = Some d /\
    persistido k (ciclos E ds st).
Proof.
  intros Hg Hl Hds. induction Hds as [|d' ds <- _ IH]; intros st Hd Hk.
  - split; assumption.
  - simpl. destruct (ciclo_seguinte d st k Hg Hl Hd Hk) as (Hd' & Hk' & _).
    apply IH; assumption.
Qed.

(** C1, as the code has it.  When the writes, reads and removals of the
    ledger file work and the date does not change: once a cycle has
    posted a record with success, no later cycle calls the posting for a
    record with the same fingerprint. *)
Theorem sem_postagem_repetida (d : string) (ds : list string) (st0 : estado)
  (a1 : atleta) (card1 : caminho) (k : string) :
  gravacao_funciona E -> leitura_funciona E -> remocao_funciona E ->
  Forall (eq d) ds ->
  let st1 := (buscar_e_processar_novos E d st0).2 in
  let st2 := ciclos E ds st1 in
  let st3 := (buscar_e_processar_novos E d st2).2 in
  PostarNoX a1 card1 (Ret true) ∈ eventos_desde (rastro st0) (rastro st1) ->
  gerar_hash_atleta a1 = Some k ->
  forall a2 card2 r2,
    PostarNoX a2 card2 r2 ∈ eventos_desde (rastro st2) (rastro st3) ->
    gerar_hash_atleta a2 <> Some k.
Proof.
  intros Hg Hl Hr Hds st1 st2 st3 Hpost Hk.
  destruct (ciclo_persiste d st0 Hg Hr) as [Hd1 Hp1]. fold st1 in Hd1, Hp1.
  specialize (Hp1 a1 card1 k Hpost Hk).
  destruct (ciclos_seguintes d ds k Hg Hl Hds st1 Hd1 Hp1) as [Hd2 Hp2].
  fold st2 in Hd2, Hp2.
  destruct (ciclo_seguinte d st2 k Hg Hl Hd2 Hp2) as (_ & _ & Hno).
  exact Hno.
Qed.

End Persistencia.

(** ** The ledger file along a run *)

Section LedgerRun.

Context (E : ambiente).

Lemma ledger_ok_app (pre tr : list event) (h : historico) :
  ledger_ok tr h -> ledger_ok (pre ++ tr) h.
Proof. intros Hok k Hk. apply publicado_app_r, Hok, Hk. Qed.

Lemma arquivo_ok_app (pre tr : list event) (c : conteudo) :
  arquivo_ok tr c -> arquivo_ok (pre ++ tr) c.
Proof. destruct c; try exact id. apply ledger_ok_app. Qed.

Lemma carregado_ok (tr : list event) (st0 : estado) :
  arquivo_ok tr (arquivo_historico st0) -> ledger_ok tr (carregado E st0).
Proof.
  intros Hok. unfold carregado, carregar_historico. simpl.
  assert (Hvazio : ledger_ok tr ∅).
  { intros k [x Hx]. rewrite lookup_empty in Hx. discriminate. }
  destruct (arquivo_historico st0); simpl; try exact Hvazio.
  destruct (ler_arquivo E _); [exact Hok|exact Hvazio].
Qed.

Lemma limpar_historico_arquivo (d : string) (st : estado) :
  let st0 := (limpar_historico_se_novo_dia E d st).2 in
  arquivo_historico st0 = arquivo_historico st \/
  arquivo_historico st0 = Ausente.
Proof.
  unfold limpar_historico_se_novo_dia.
  destruct (ultimo_dia_verificado st) as [u|]; [|left; reflexivity].
  destruct (decide (d <> u)); [|left; reflexivity].
  destruct (arquivo_historico st) eqn:Ha; [left; simpl; auto| |];
    destruct (remover_arquivo E (rastro st)); simpl; auto.
Qed.

Lemma tentativas_arquivo_ok (csrf data : string) (h : historico) (ts : list Z) :
  forall st,
    ledger_ok (rastro st) h ->
    arquivo_ok (rastro st) (arquivo_historico st) ->
    let st' := (tentativas E csrf data h ts st).2 in
    arquivo_ok (rastro st') (arquivo_historico st').
Proof.
  assert (Hreg : forall ev st,
    ledger_ok (rastro st) h /\ arquivo_ok (rastro st) (arquivo_historico st) ->
    ledger_ok (rastro (registrar ev st)) h /\
    arquivo_ok (rastro (registrar ev st)) (arquivo_historico (registrar ev st))).
  { intros ev st [H1 H2]. split.
    - apply (ledger_ok_app [ev]), H1.
    - apply (arquivo_ok_app [ev]), H2. }
  induction ts as [|t ts IH]; intros st Hh Hf; [exact Hf|].
  pose proof (conj Hh Hf) as H0. simpl.
  destruct (baixar_captcha E (rastro st)) as [img|];
    [|apply IH; apply (Hreg _ _ H0)].
  apply (Hreg (BaixarCaptcha (Ret img))) in H0.
  set (st1 := registrar (BaixarCaptcha (Ret img)) st) in *.
  change (BaixarCaptcha (Ret img) :: rastro st) with (rastro st1).
  destruct (ocr_captcha E (rastro st1) img) as [texto|];
    [|apply IH; apply (Hreg _ _ H0)].
  apply (Hreg (OcrCaptcha img (Ret texto))) in H0.
  set (st2 := registrar (OcrCaptcha img (Ret texto)) st1) in *.
  change (OcrCaptcha img (Ret texto) :: rastro st1) with (rastro st2).
  destruct (String.length texto <? 3)%nat; [apply IH; apply H0|].
  destruct (tentar_busca E (rastro st2) csrf texto data) as [resp|];
    [|apply IH; apply (Hreg _ _ H0)].
  apply (Hreg (TentarBusca csrf texto data (Ret resp))) in H0.
  set (st3 := registrar (TentarBusca csrf texto data (Ret resp)) st2) in *.
  destruct (contem "captcha" (lower (resp_text resp))); [apply IH; apply H0|].
  simpl.
  apply (inv_ledger_ok _ _ _ _ _ (inv_processar_resultados E resp h st3));
    apply H0.
Qed.

(** A cycle keeps the ledger file to published fingerprints, whatever the
    collaborators and the disk do. *)
Lemma buscar_e_processar_novos_arquivo_ok (d : string) (st : estado) :
  arquivo_ok (rastro st) (arquivo_historico st) ->
  let st' := (buscar_e_processar_novos E d st).2 in
  arquivo_ok (rastro st') (arquivo_historico st').
Proof.
  intros Hok. pose proof (buscar_estrutura E d st) as Hs. cbv zeta in Hs.
  pose proof (limpar_historico_arquivo d st) as Ha0. cbv zeta in Ha0.
  set (st0 := (limpar_historico_se_novo_dia E d st).2) in *.
  assert (Hok0 : forall pre, arquivo_ok (pre ++ rastro st) (arquivo_historico st0)).
  { intros pre. destruct Ha0 as [-> | ->]; [apply arquivo_ok_app, Hok|exact I]. }
  destruct (buscar_e_processar_novos E d st) as [r st']. simpl.
  destruct Hs as (prep & Hall & [(Htr & _ & Ha & _)|(tok & data & st4 & b & Hs)]).
  - rewrite Htr, Ha. apply Hok0.
  - destruct Hs as (Htr4 & Ha4 & _ & Hrun & _).
    pose proof (tentativas_arquivo_ok tok data (carregado E st0)
      (seqZ 1 (Z.min (MAX_TENTATIVAS E) 50)) st4) as Hfim.
    rewrite Hrun in Hfim. apply Hfim.
    + apply carregado_ok. rewrite Htr4.
      apply (Hok0 (PegarCsrfToken (Ret tok) :: prep)).
    + rewrite Htr4, Ha4. apply (Hok0 (PegarCsrfToken (Ret tok) :: prep)).
Qed.

(** Along a run that starts with such a file (an absent one, say), every
    fingerprint in the ledger file is that of a record some posting of
    which returned success. *)
Lemma ciclos_arquivo_ok (dias : list string) :
  forall st,
    arquivo_ok (rastro st) (arquivo_historico st) ->
    arquivo_ok (rastro (ciclos E dias st)) (arquivo_historico (ciclos E dias st)).
Proof.
  induction dias as [|d dias IH]; intros st Hok; [exact Hok|].
  simpl. apply IH, buscar_e_processar_novos_arquivo_ok, Hok.
Qed.

End LedgerRun.

(** ** Example: the same fingerprint in two cycles *)

Ltac ocorre :=
  apply list_elem_of_lookup;
  first [ exists 0%nat; vm_compute; reflexivity
        | exists 1%nat; vm_compute; reflexivity
        | exists 2%nat; vm_compute; reflexivity
        | exists 3%nat; vm_compute; reflexivity
        | exists 4%nat; vm_compute; reflexivity ].

(** The claim that two records with one fingerprint, met in two cycles,
    get at most one posting call fails in three ways: the first posting
    returned failure (the record is tried again); the day changed
    between the cycles (the ledger file was removed); the write of the
    ledger file failed (the error is logged and the run goes on). *)
Lemma postagem_repetida_counterexample :
  let ana := atleta_exemplo "Ana" SNone in
  let bia := atleta_exemplo "Bia" (SInt 7) in
  let card := Some "card.png"%string in
  let dois_ciclos E d1 d2 :=
    let st1 := (buscar_e_processar_novos E d1 estado_inicial).2 in
    let st2 := (buscar_e_processar_novos E d2 st1).2 in
    (eventos_desde [] (rastro st1), eventos_desde (rastro st1) (rastro st2)) in
  ana <> bia /\
  gerar_hash_atleta ana = gerar_hash_atleta bia /\
  (let '(c1, c2) :=
     dois_ciclos (amb_dois_ciclos (Ret false)) "2024-01-01" "2024-01-01" in
   PostarNoX ana card (Ret false) ∈ c1 /\ PostarNoX bia card (Ret false) ∈ c2) /\
  (let '(c1, c2) :=
     dois_ciclos (amb_dois_ciclos (Ret true)) "2024-01-01" "2024-01-02" in
   PostarNoX ana card (Ret true) ∈ c1 /\ PostarNoX bia card (Ret true) ∈ c2) /\
  (let '(c1, c2) :=
     dois_ciclos (com_gravar (fun _ _ => GravFalhaAbrir)
                    (amb_dois_ciclos (Ret true))) "2024-01-01" "2024-01-01" in
   PostarNoX ana card (Ret true) ∈ c1 /\ PostarNoX bia card (Ret true) ∈ c2).
Proof.
  intros ana bia card dois_ciclos.
  split.
  { intros H.
    assert (Hn : ana !! "nome" = bia !! "nome") by (rewrite H; reflexivity).
    vm_compute in Hn. discriminate. }
  split; [vm_compute; reflexivity|].
  repeat split; ocorre.
Qed.

Lemma sem_postagem_repetida_witness :
  let E := amb_dois_ciclos (Ret true) in
  let d := "2024-01-01"%string in
  let st1 := (buscar_e_processar_novos E d estado_inicial).2 in
  let st2 := ciclos E [d] st1 in
  let st3 := (buscar_e_processar_novos E d st2).2 in
  PostarNoX (atleta_exemplo "Ana" SNone) (Some "card.png"%string) (Ret true)
    ∈ eventos_desde [] (rastro st1) /\
  forall a2 card2 r2,
    PostarNoX a2 card2 r2 ∈ eventos_desde (rastro st2) (rastro st3) ->
    gerar_hash_atleta a2 <> Some "84aa30f71520b8337a143dad1b2ab15f"%string.
Proof.
  intros E d st1 st2 st3.
  assert (Hpost : PostarNoX (atleta_exemplo "Ana" SNone)
                    (Some "card.png"%string) (Ret true)
                    ∈ eventos_desde [] (rastro st1)) by ocorre.
  split; [exact Hpost|].
  apply (sem_postagem_repetida E d [d] estado_inicial
           (atleta_exemplo "Ana" SNone) (Some "card.png"%string)
           "84aa30f71520b8337a143dad1b2ab15f").
  - intros tr h. reflexivity.
  - intros tr. reflexivity.
  - intros tr. reflexivity.
  - repeat constructor.
  - exact Hpost.
  - vm_compute. reflexivity.
Defined.

Example dois_ciclos_mesmo_dia :
  let E := amb_dois_ciclos (Ret true) in
  let st1 := (buscar_e_processar_novos E "2024-01-01" estado_inicial).2 in
  let st2 := (buscar_e_processar_novos E "2024-01-01" st1).2 in
  contar e_postar (eventos_desde [] (rastro st1)) = 1%nat /\
  contar e_postar (eventos_desde (rastro st1) (rastro st2)) = 0%nat /\
  contar e_busca (eventos_desde (rastro st1) (rastro st2)) = 1%nat.
Proof. vm_compute. repeat split; reflexivity. Qed.

(** * Further properties of the code *)

(** ** The fingerprint does not keep the field boundaries *)

Lemma append_assoc (s1 s2 s3 : string) :
  (s1 +:+ s2) +:+ s3 = s1 +:+ s2 +:+ s3.
Proof.
  induction s1 as [|c s1 IH]; [reflexivity|].
  change (String c ((s1 +:+ s2) +:+ s3) = String c (s1 +:+ s2 +:+ s3)).
  f_equal. exact IH.
Qed.

Lemma append_length (s1 s2 : string) :
  String.length (s1 +:+ s2) = (String.length s1 + String.length s2)%nat.
Proof.
  induction s1 as [|c s1 IH]; [reflexivity|].
  change (S (String.length (s1 +:+ s2))
          = S (String.length s1 + String.length s2)).
  f_equal. exact IH.
Qed.

(** X1.  The identifier joins the three values with [_] and nothing marks
    where a value ends: moving a part [_y] from the end of the code to the
    start of the contract number gives another record with the same
    fingerprint; and an integer and the text of its digits give the same
    fingerprint. *)
Theorem gerar_hash_atleta_ambiguo (x y z : string) (n : Z) (c d : scalar) :
  chaves (SStr (x +:+ "_" +:+ y)) (SStr z) d
  <> chaves (SStr x) (SStr (y +:+ "_" +:+ z)) d /\
  gerar_hash_atleta (chaves (SStr (x +:+ "_" +:+ y)) (SStr z) d)
  = gerar_hash_atleta (chaves (SStr x) (SStr (y +:+ "_" +:+ z)) d) /\
  chaves (SInt n) c d <> chaves (SStr (pretty n)) c d /\
  gerar_hash_atleta (chaves (SInt n) c d)
  = gerar_hash_atleta (chaves (SStr (pretty n)) c d).
Proof.
  assert (Hcod : forall a b e, chaves a b e !! "codigo_atleta" = Some a).
  { intros a b e. unfold chaves. apply lookup_insert_eq. }
  assert (Hcon : forall a b e, chaves a b e !! "contrato_numero" = Some b).
  { intros a b e. unfold chaves. rewrite lookup_insert_ne by discriminate.
    apply lookup_insert_eq. }
  assert (Hdat : forall a b e, chaves a b e !! "data_publicacao" = Some e).
  { intros a b e. unfold chaves. rewrite !lookup_insert_ne by discriminate.
    apply lookup_insert_eq. }
  assert (Hhash : forall a b e, gerar_hash_atleta (chaves a b e)
                    = Some (md5_hexdigest (identificador a b e))).
  { intros a b e. apply gerar_hash_atleta_campos; auto. }
  split; [|split; [|split]].
  - intros Heq. pose proof (Hcod (SStr (x +:+ "_" +:+ y)) (SStr z) d) as H1.
    rewrite Heq, Hcod in H1. injection H1 as H1.
    apply (f_equal String.length) in H1. rewrite append_length in H1.
    simpl in H1. lia.
  - rewrite !Hhash. unfold identificador. simpl py_str.
    rewrite !append_assoc. reflexivity.
  - intros Heq. pose proof (Hcod (SInt n) c d) as H1.
    rewrite Heq, Hcod in H1. discriminate.
  - rewrite !Hhash. reflexivity.
Qed.

(** ** The day check, in full *)

(** X2.  [limpar_historico_se_novo_dia] reports a roll-over exactly when a
    day was recorded, the date differs from it, and the ledger file is
    missing or its removal returns.  After a roll-over the file is gone
    and the date recorded; without one the file is as it was, and the
    recorded day is the date unless the removal raised.  The call never
    creates or rewrites the file. *)
Theorem limpar_historico_se_novo_dia_caracterizado (E : ambiente)
  (d : string) (st : estado) :
  let '(b, st') := limpar_historico_se_novo_dia E d st in
  (b = true <->
   exists d0, ultimo_dia_verificado st = Some d0 /\ d <> d0 /\
     (arquivo_historico st = Ausente \/ remover_arquivo E (rastro st) = Ret tt)) /\
  (b = true ->
   arquivo_historico st' = Ausente /\ ultimo_dia_verificado st' = Some d) /\
  (b = false ->
   arquivo_historico st' = arquivo_historico st /\
   (ultimo_dia_verificado st' = Some d \/
    ultimo_dia_verificado st' = ultimo_dia_verificado st /\
    rastro st' = Remover Raise :: rastro st)).
Proof.
  destruct st as [u a tr]. unfold limpar_historico_se_novo_dia. simpl.
  destruct u as [d0|].
  2:{ split; [split; [discriminate|intros (d0 & H & _); discriminate]|].
      split; [discriminate|]. intros _. simpl. auto. }
  destruct (decide (d <> d0)) as [Hne|Heq].
  2:{ apply dec_stable in Heq. subst d0.
      split; [split; [discriminate|intros (d0 & [= <-] & Hne & _); contradiction]|].
      split; [discriminate|]. intros _. simpl. auto. }
  destruct a as [|h|].
  - split; [split; [intros _; exists d0; auto|reflexivity]|].
    split; [intros _; simpl; auto|discriminate].
  - destruct (remover_arquivo E tr) as [[]|] eqn:Hr; simpl.
    + split; [split; [intros _; exists d0; auto|reflexivity]|].
      split; [intros _; auto|discriminate].
    + split; [split; [discriminate|]|].
      * intros (d1 & _ & _ & [H|H]); discriminate.
      * split; [discriminate|]. intros _. auto.
  - destruct (remover_arquivo E tr) as [[]|] eqn:Hr; simpl.
    + split; [split; [intros _; exists d0; auto|reflexivity]|].
      split; [intros _; auto|discriminate].
    + split; [split; [discriminate|]|].
      * intros (d1 & _ & _ & [H|H]); discriminate.
      * split; [discriminate|]. intros _. auto.
Qed.

(** ** The ledger file, written then read *)

(** X3.  [carregar_historico] after [salvar_historico]: when the write
    and the read work, the ledger read is the ledger saved; when the
    write fails after the file was opened, the ledger read is empty (the
    entries of the old file are lost too); when the file cannot be
    opened, the read gives what the old file gives.  Reading changes
    neither the file nor the recorded day. *)
Theorem salvar_carregar_historico (E : ambiente) (h : historico) (st : estado) :
  let st1 := salvar_historico E h st in
  let '(h', st2) := carregar_historico E st1 in
  arquivo_historico st2 = arquivo_historico st1 /\
  ultimo_dia_verificado st2 = ultimo_dia_verificado st /\
  (gravar_arquivo E (rastro st) h = GravOk ->
   ler_arquivo E (rastro st1) = true -> h' = h) /\
  (gravar_arquivo E (rastro st) h = GravFalhaEscrita -> h' = ∅) /\
  (gravar_arquivo E (rastro st) h = GravFalhaAbrir ->
   h' = match arquivo_historico st with
        | Gravado h0 => if ler_arquivo E (rastro st1) then h0 else ∅
        | _ => ∅
        end).
Proof.
  destruct st as [u a tr]. unfold salvar_historico, carregar_historico. simpl.
  destruct (gravar_arquivo E tr h) eqn:Hg; simpl.
  - repeat split; try discriminate. intros _ ->. reflexivity.
  - destruct a as [|h0|]; simpl; repeat split; discriminate.
  - repeat split; discriminate.
Qed.

Lemma salvar_carregar_historico_witness :
  let st := Estado (Some "2024-01-01"%string) Ausente [] in
  (carregar_historico amb_tudo_certo
     (salvar_historico amb_tudo_certo historico_exemplo st)).1
  = historico_exemplo.
Proof.
  intros st.
  pose proof (salvar_carregar_historico amb_tudo_certo historico_exemplo st) as H.
  cbv zeta in H.
  destruct (carregar_historico amb_tudo_certo
              (salvar_historico amb_tudo_certo historico_exemplo st)) as [h' st2].
  destruct H as (_ & _ & H & _). apply H; reflexivity.
Defined.

(** ** One malformed element stops the batch *)

Section Malformado.

Context (E : ambiente).

Lemma malformado_invalido (a : atleta) : malformado (IDict a) <-> ~ valido a.
Proof.
  unfold valido, gerar_hash_atleta. simpl. split.
  - intros [H|[H|[H|H]]] [[k Hk] [n Hn]]; rewrite H in *; try discriminate.
    + destruct (a !! "codigo_atleta"); discriminate.
    + destruct (a !! "codigo_atleta"); [|discriminate].
      destruct (a !! "contrato_numero"); discriminate.
  - intros Hnv.
    destruct (a !! "codigo_atleta") as [c|]; [|auto].
    destruct (a !! "contrato_numero") as [n|]; [|auto].
    destruct (a !! "data_publicacao") as [d|]; [|auto].
    destruct (a !! "nome") as [nome|]; [|auto].
    exfalso. apply Hnv. split; simpl; eauto.
Qed.

Lemma filtrar_novos_None (l : list item) (h : historico) :
  filtrar_novos l h = None <-> Exists malformado l.
Proof.
  induction l as [|it l IH]; simpl.
  - split; [discriminate|]. intros H. inversion H.
  - rewrite Exists_cons. destruct it as [a|]; [|split; [left; exact I|reflexivity]].
    rewrite malformado_invalido. unfold valido.
    destruct (gerar_hash_atleta a) as [k|] eqn:Hk; simpl.
    2:{ split; [intros _; left; intros [[x Hx] _]; discriminate|reflexivity]. }
    destruct (a !! "nome") as [nome|] eqn:Hn; simpl.
    2:{ split; [intros _; left; intros [_ [x Hx]]; discriminate|reflexivity]. }
    destruct (filtrar_novos l h) as [novos|]; simpl.
    + split; [discriminate|]. intros [Hnv|Hex].
      * exfalso. apply Hnv. eauto.
      * apply IH in Hex. discriminate.
    + split; [intros _; right; apply IH; reflexivity|reflexivity].
Qed.

(** X4.  When the list holds, anywhere, an element that is not an object
    or a record without [codigo_atleta], [contrato_numero],
    [data_publicacao] or [nome], [processar_resultados] returns 0 and
    calls nothing: no record of the batch is posted, the well-formed new
    ones included. *)
Theorem processar_resultados_malformado (resp : resposta) (l : list item)
  (h : historico) (st : estado) :
  resp_json resp = JsonLista l ->
  Exists malformado l ->
  processar_resultados E resp h st = (0, h, st).
Proof.
  intros Hl Hex. apply processar_resultados_nada_novo. rewrite Hl.
  left. apply filtrar_novos_None, Hex.
Qed.

End Malformado.

Lemma processar_resultados_malformado_witness :
  let resp := Resposta "[...]" (JsonLista ((IDict <$> lote_de_tres) ++ [IOutro])) in
  processar_resultados amb_tudo_certo resp ∅ estado_inicial
  = (0, ∅, estado_inicial).
Proof.
  intros resp.
  apply (processar_resultados_malformado amb_tudo_certo resp
           ((IDict <$> lote_de_tres) ++ [IOutro])).
  - reflexivity.
  - apply Exists_exists. exists IOutro. split; [|exact I].
    apply elem_of_app. right. left.
Defined.

(** ** What one turn of the loop over the new records does *)

Lemma novo_registro_de (a : atleta) (agora k : string) (reg : registro) :
  novo_registro a agora = Some (k, reg) ->
  registro_de a k reg /\ reg_data_postagem reg = agora.
Proof.
  unfold novo_registro, registro_de. intros H.
  destruct (gerar_hash_atleta a) as [k'|]; [|discriminate]. simpl in H.
  destruct (a !! "nome"); [|discriminate]. simpl in H.
  destruct (a !! "codigo_atleta"); [|discriminate]. simpl in H.
  destruct (a !! "contrato_numero"); [|discriminate]. simpl in H.
  destruct (a !! "data_publicacao"); [|discriminate]. simpl in H.
  injection H as <- <-. simpl. repeat split; reflexivity.
Qed.

Ltac so_de_a Hin :=
  repeat (apply elem_of_cons in Hin as [Hin|Hin];
          [try discriminate Hin; try (injection Hin as -> _ _; reflexivity)|]);
  try (inversion Hin; fail).

Section Delta.

Context (E : ambiente).

(** The calls of one turn, for any record and any world: only calls of
    the processor, at most one download and one posting, the posting for
    the record of the turn; the counter grows by at most one, and only
    with a posting that returned success; the ledger is untouched or gets
    the entry of the record. *)
Lemma processar_atleta_delta (a : atleta) (p : progresso) :
  exists evs,
    rastro (pr_estado (processar_atleta E a p).2) = evs ++ rastro (pr_estado p) /\
    ultimo_dia_verificado (pr_estado (processar_atleta E a p).2)
    = ultimo_dia_verificado (pr_estado p) /\
    Forall (fun ev => e_processador ev = true) evs /\
    (forall a' c r, PostarNoX a' c r ∈ evs -> a' = a) /\
    (contar e_postar evs <= 1)%nat /\
    (contar e_foto evs <= 1)%nat /\
    pr_postados p <= pr_postados (processar_atleta E a p).2 /\
    pr_postados (processar_atleta E a p).2
    <= pr_postados p + Z.of_nat (contar e_postar_sucesso evs) /\
    (pr_historico (processar_atleta E a p).2 = pr_historico p \/
     exists k reg,
       registro_de a k reg /\
       pr_historico (processar_atleta E a p).2 = <[k := reg]> (pr_historico p)).
Proof.
  destruct p as [h n st].
  unfold processar_atleta, tentar_atleta, limpar, salvar_se_postou.
  repeat case_match; simplify_eq/=;
    rewrite ?salvar_historico_rastro, ?salvar_historico_dia;
    eexists; (split; [simpl; estende|]); (split; [reflexivity|]);
    (split; [repeat constructor|]);
    (split; [intros a' c' r' Hin; so_de_a Hin|]);
    simpl; (split; [lia|]); (split; [lia|]); (split; [lia|]);
    (split; [lia|]);
    first [ left; reflexivity
          | right; match goal with
                   | H : novo_registro _ _ = Some _ |- _ =>
                     apply novo_registro_de in H as [H _]; eauto
                   end ].
Qed.

End Delta.

Lemma contar_le (P Q : event -> bool) (evs : list event) :
  (forall ev, P ev = true -> Q ev = true) ->
  (contar P evs <= contar Q evs)%nat.
Proof.
  intros HPQ. induction evs as [|ev evs IH]; simpl; [lia|].
  destruct (P ev) eqn:HP; [rewrite (HPQ ev HP)|destruct (Q ev)]; lia.
Qed.

Lemma filtrar_novos_length (l : list item) (h : historico) (novos : list atleta) :
  filtrar_novos l h = Some novos -> (length novos <= length l)%nat.
Proof.
  revert novos. induction l as [|it l IH]; simpl; intros novos H.
  - injection H as <-. simpl. lia.
  - destruct it as [a|]; [|discriminate].
    destruct (gerar_hash_atleta a) as [k|]; [|discriminate]. simpl in H.
    destruct (a !! "nome"); [|discriminate]. simpl in H.
    destruct (filtrar_novos l h) as [ns|]; [|discriminate]. simpl in H.
    specialize (IH ns eq_refl). injection H as <-.
    destruct (h !! k); simpl; lia.
Qed.

Lemma filtrar_novos_elem (l : list item) (h : historico) (novos : list atleta)
  (a : atleta) :
  filtrar_novos l h = Some novos -> a ∈ novos -> IDict a ∈ l.
Proof.
  intros Hf Hin. rewrite (filtrar_novos_omap l h novos Hf) in Hin.
  apply list_elem_of_omap in Hin as (it & Hit & Hnovo).
  destruct it as [b|]; [|discriminate]. simpl in Hnovo.
  destruct (gerar_hash_atleta b) as [k|]; [|discriminate].
  destruct (h !! k); [discriminate|]. injection Hnovo as ->. exact Hit.
Qed.

Section DeltaLoop.

Context (E : ambiente).

Lemma processar_novos_delta (novos : list atleta) :
  forall p, exists evs,
    rastro (pr_estado (processar_novos E novos p).2) = evs ++ rastro (pr_estado p) /\
    ultimo_dia_verificado (pr_estado (processar_novos E novos p).2)
    = ultimo_dia_verificado (pr_estado p) /\
    Forall (fun ev => e_processador ev = true) evs /\
    (forall a c r, PostarNoX a c r ∈ evs -> a ∈ novos) /\
    (contar e_postar evs <= length novos)%nat /\
    (contar e_foto evs <= length novos)%nat /\
    pr_postados p <= pr_postados (processar_novos E novos p).2 /\
    pr_postados (processar_novos E novos p).2
    <= pr_postados p + Z.of_nat (contar e_postar_sucesso evs) /\
    (forall k reg, pr_historico (processar_novos E novos p).2 !! k = Some reg ->
       pr_historico p !! k = Some reg \/
       exists a, a ∈ novos /\ registro_de a k reg) /\
    (forall k reg, pr_historico p !! k = Some reg ->
       (forall a, a ∈ novos -> gerar_hash_atleta a <> Some k) ->
       pr_historico (processar_novos E novos p).2 !! k = Some reg).
Proof.
  induction novos as [|a novos IH]; intros p.
  - exists []. simpl. repeat split; auto; try lia.
    intros a c r Hin. inversion Hin.
  - destruct (processar_atleta_delta E a p)
      as (e1 & Htr1 & Hu1 & Hp1 & Ha1 & Hc1 & Hf1 & Hlo1 & Hhi1 & Hh1).
    assert (Hloop : (processar_novos E (a :: novos) p).2
                    = (processar_novos E novos (processar_atleta E a p).2).2
                    \/ (processar_novos E (a :: novos) p).2
                       = (processar_atleta E a p).2).
    { simpl. destruct (processar_atleta E a p) as [[[]|] p1]; auto. }
    assert (Hold : forall k reg,
      pr_historico (processar_atleta E a p).2 !! k = Some reg ->
      pr_historico p !! k = Some reg \/ registro_de a k reg).
    { intros k reg Hk. destruct Hh1 as [Heq|(k' & reg' & Hde & Heq)];
        rewrite Heq in Hk; [left; exact Hk|].
      destruct (decide (k' = k)) as [->|Hne].
      - rewrite lookup_insert_eq in Hk. injection Hk as ->. right. exact Hde.
      - rewrite lookup_insert_ne in Hk by exact Hne. left. exact Hk. }
    assert (Hkeep : forall k reg, pr_historico p !! k = Some reg ->
      gerar_hash_atleta a <> Some k ->
      pr_historico (processar_atleta E a p).2 !! k = Some reg).
    { intros k reg Hk Hne. destruct Hh1 as [Heq|(k' & reg' & Hde & Heq)];
        rewrite Heq; [exact Hk|].
      rewrite lookup_insert_ne; [exact Hk|].
      intros ->. apply Hne. apply Hde. }
    destruct Hloop as [Hl|Hl]; rewrite Hl.
    + destruct (IH (processar_atleta E a p).2)
        as (e2 & Htr2 & Hu2 & Hp2 & Ha2 & Hc2 & Hf2 & Hlo2 & Hhi2 & Hn2 & Hk2).
      exists (e2 ++ e1).
      split; [rewrite Htr2, Htr1, app_assoc; reflexivity|].
      split; [congruence|].
      split; [apply Forall_app; auto|].
      split.
      { intros a' c r Hin. apply elem_of_app in Hin as [Hin|Hin].
        - right. apply (Ha2 a' c r Hin).
        - rewrite (Ha1 a' c r Hin). left. }
      rewrite !contar_app. simpl length.
      split; [lia|]. split; [lia|]. split; [lia|]. split; [lia|]. split.
      { intros k reg Hk. destruct (Hn2 k reg Hk) as [Hk1|(a' & Hin & Hde)].
        - destruct (Hold k reg Hk1) as [?|Hde]; [left; assumption|].
          right. exists a. split; [left|exact Hde].
        - right. exists a'. split; [right; exact Hin|exact Hde]. }
      { intros k reg Hk Hne. apply Hk2.
        - apply Hkeep; [exact Hk|]. apply Hne. left.
        - intros a' Hin. apply Hne. right. exact Hin. }
    + exists e1. split; [exact Htr1|]. split; [exact Hu1|]. split; [exact Hp1|].
      split; [intros a' c r Hin; rewrite (Ha1 a' c r Hin); left|].
      simpl length. split; [lia|]. split; [lia|]. split; [lia|]. split; [lia|].
      split.
      { intros k reg Hk. destruct (Hold k reg Hk) as [?|Hde]; [left; assumption|].
        right. exists a. split; [left|exact Hde]. }
      { intros k reg Hk Hne. apply Hkeep; [exact Hk|]. apply Hne. left. }
Qed.

(** The same for the whole method; [novos] is what the first loop keeps
    (nothing, when it raises or the response is no list). *)
Lemma processar_resultados_delta (resp : resposta) (h : historico) (st : estado) :
  exists evs novos,
    match resp_json resp with
    | JsonLista l => filtrar_novos l h = Some novos \/
                     (filtrar_novos l h = None /\ novos = [])
    | _ => novos = []
    end /\
    rastro (processar_resultados E resp h st).2 = evs ++ rastro st /\
    ultimo_dia_verificado (processar_resultados E resp h st).2
    = ultimo_dia_verificado st /\
    Forall (fun ev => e_processador ev = true) evs /\
    (forall a c r, PostarNoX a c r ∈ evs -> a ∈ novos) /\
    (contar e_postar evs <= length novos)%nat /\
    (contar e_foto evs <= length novos)%nat /\
    0 <= (processar_resultados E resp h st).1.1
    <= Z.of_nat (contar e_postar_sucesso evs) /\
    (forall k reg, (processar_resultados E resp h st).1.2 !! k = Some reg ->
       h !! k = Some reg \/ exists a, a ∈ novos /\ registro_de a k reg) /\
    (forall k reg, h !! k = Some reg ->
       (forall a, a ∈ novos -> gerar_hash_atleta a <> Some k) ->
       (processar_resultados E resp h st).1.2 !! k = Some reg).
Proof.
  assert (Hnada : forall novos,
    match resp_json resp with
    | JsonLista l => filtrar_novos l h = Some novos \/
                     (filtrar_novos l h = None /\ novos = [])
    | _ => novos = []
    end ->
    novos = [] ->
    processar_resultados E resp h st = (0, h, st) ->
    exists evs novos,
      match resp_json resp with
      | JsonLista l => filtrar_novos l h = Some novos \/
                       (filtrar_novos l h = None /\ novos = [])
      | _ => novos = []
      end /\
      rastro (processar_resultados E resp h st).2 = evs ++ rastro st /\
      ultimo_dia_verificado (processar_resultados E resp h st).2
      = ultimo_dia_verificado st /\
      Forall (fun ev => e_processador ev = true) evs /\
      (forall a c r, PostarNoX a c r ∈ evs -> a ∈ novos) /\
      (contar e_postar evs <= length novos)%nat /\
      (contar e_foto evs <= length novos)%nat /\
      0 <= (processar_resultados E resp h st).1.1
      <= Z.of_nat (contar e_postar_sucesso evs) /\
      (forall k reg, (processar_resultados E resp h st).1.2 !! k = Some reg ->
         h !! k = Some reg \/ exists a, a ∈ novos /\ registro_de a k reg) /\
      (forall k reg, h !! k = Some reg ->
         (forall a, a ∈ novos -> gerar_hash_atleta a <> Some k) ->
         (processar_resultados E resp h st).1.2 !! k = Some reg)).
  { intros novos Hm -> ->. exists [], []. simpl.
    split; [exact Hm|]. repeat split; auto; try lia.
    intros a c r Hin. inversion Hin. }
  destruct (resp_json resp) as [| |l] eqn:Hl.
  - apply (Hnada []); auto. apply processar_resultados_nada_novo. rewrite Hl. exact I.
  - apply (Hnada []); auto. apply processar_resultados_nada_novo. rewrite Hl. exact I.
  - destruct (filtrar_novos l h) as [[|a novos]|] eqn:Hf.
    + apply (Hnada []); auto.
      apply processar_resultados_nada_novo. rewrite Hl. auto.
    + rewrite (processar_resultados_lista E resp l h st a novos Hl Hf).
      destruct (processar_novos_delta (a :: novos) (Progresso h 0 st))
        as (evs & Htr & Hu & Hp & Ha & Hc & Hfo & Hlo & Hhi & Hn & Hk).
      destruct (processar_novos E (a :: novos) (Progresso h 0 st)) as [[[]|] p];
        simpl in *.
      * exists (Salvar (pr_historico p)
                  (gravar_arquivo E (rastro (pr_estado p)) (pr_historico p)) :: evs),
          (a :: novos).
        rewrite salvar_historico_rastro, salvar_historico_dia, Htr.
        split; [left; reflexivity|]. split; [reflexivity|]. split; [exact Hu|].
        split; [constructor; [reflexivity|exact Hp]|].
        split; [intros a' c r Hin; apply elem_of_cons in Hin as [Hin|Hin];
                [discriminate|apply (Ha a' c r Hin)]|].
        simpl. repeat split; auto; lia.
      * exists evs, (a :: novos).
        split; [left; reflexivity|]. split; [exact Htr|]. split; [exact Hu|].
        split; [exact Hp|]. split; [exact Ha|].
        simpl. repeat split; auto; lia.
    + apply (Hnada []); auto.
      apply processar_resultados_nada_novo. rewrite Hl. auto.
Qed.

End DeltaLoop.

(** ** What [processar_resultados] may post and write, in any world *)

Section Postagens.

Context (E : ambiente).

(** X5.  Whatever the collaborators and the disk do, [processar_resultados]
    calls only the download, the card, the posting, the clean-up and the
    save; it posts only records of the list whose fingerprint is not in
    the ledger it was given, makes no more postings than the list has
    elements, returns a count between 0 and the number of postings that
    returned success, and leaves the recorded day alone. *)
Theorem processar_resultados_postagens (resp : resposta) (h : historico)
  (st : estado) :
  let '(n, _, st') := processar_resultados E resp h st in
  let evs := eventos_desde (rastro st) (rastro st') in
  Forall (fun ev => e_processador ev = true) evs /\
  (forall a c r, PostarNoX a c r ∈ evs ->
     IDict a ∈ lista_de resp /\
     exists k, gerar_hash_atleta a = Some k /\ h !! k = None) /\
  (contar e_postar evs <= length (lista_de resp))%nat /\
  0 <= n <= Z.of_nat (contar e_postar_sucesso evs) /\
  n <= Z.of_nat (length (lista_de resp)) /\
  ultimo_dia_verificado st' = ultimo_dia_verificado st.
Proof.
  destruct (processar_resultados_delta E resp h st)
    as (evs & novos & Hm & Htr & Hu & Hp & Ha & Hc & _ & Hn & _).
  destruct (processar_resultados E resp h st) as [[n h'] st']. simpl in *.
  rewrite Htr, eventos_desde_app.
  assert (Hnovos : (length novos <= length (lista_de resp))%nat /\
    forall a, a ∈ novos -> IDict a ∈ lista_de resp /\
      exists k, gerar_hash_atleta a = Some k /\ h !! k = None).
  { unfold lista_de. destruct (resp_json resp) as [| |l];
      try (subst novos; split; [simpl; lia|intros a Hin; inversion Hin]).
    destruct Hm as [Hf|[_ ->]]; [|split; [simpl; lia|intros a Hin; inversion Hin]].
    split; [apply (filtrar_novos_length l h novos Hf)|].
    intros a Hin. split; [apply (filtrar_novos_elem l h novos a Hf Hin)|].
    pose proof (filtrar_novos_validos l h novos Hf) as Hv.
    rewrite Forall_forall in Hv. apply (Hv a Hin). }
  destruct Hnovos as [Hlen Hel].
  pose proof (contar_le e_postar_sucesso e_postar evs) as Hle.
  assert (contar e_postar_sucesso evs <= contar e_postar evs)%nat.
  { apply Hle. intros [] Hev; try discriminate. reflexivity. }
  split; [exact Hp|]. split; [intros a c r Hin; apply Hel, (Ha a c r Hin)|].
  split; [lia|]. split; [exact Hn|]. split; [lia|]. exact Hu.
Qed.

(** X6.  [processar_resultados] never changes or removes an entry the
    ledger already has; an entry it adds sits under the fingerprint of a
    record of the list, holds that fingerprint in its [hash] field and
    repeats the name and the three key fields of the record. *)
Theorem processar_resultados_entradas (resp : resposta) (h : historico)
  (st : estado) :
  let '(_, h', _) := processar_resultados E resp h st in
  (forall k reg, h !! k = Some reg -> h' !! k = Some reg) /\
  (forall k reg, h' !! k = Some reg ->
     h !! k = Some reg \/
     h !! k = None /\ exists a, IDict a ∈ lista_de resp /\ registro_de a k reg).
Proof.
  destruct (processar_resultados_delta E resp h st)
    as (evs & novos & Hm & _ & _ & _ & _ & _ & _ & _ & Hnew & Hkeep).
  destruct (processar_resultados E resp h st) as [[n h'] st']. simpl in *.
  assert (Hel : forall a, a ∈ novos -> IDict a ∈ lista_de resp /\
      exists k, gerar_hash_atleta a = Some k /\ h !! k = None).
  { unfold lista_de. destruct (resp_json resp) as [| |l];
      try (subst novos; intros a Hin; inversion Hin).
    destruct Hm as [Hf|[_ ->]]; [|intros a Hin; inversion Hin].
    intros a Hin. split; [apply (filtrar_novos_elem l h novos a Hf Hin)|].
    pose proof (filtrar_novos_validos l h novos Hf) as Hv.
    rewrite Forall_forall in Hv. apply (Hv a Hin). }
  split.
  - intros k reg Hk. apply Hkeep; [exact Hk|].
    intros a Hin Hka. destruct (Hel a Hin) as [_ (k' & Hk' & Hnone)].
    congruence.
  - intros k reg Hk. destruct (Hnew k reg Hk) as [Hold|(a & Hin & Hde)];
      [left; exact Hold|right].
    destruct (Hel a Hin) as [Hl (k' & Hk' & Hnone)].
    assert (k' = k) by (destruct Hde as [Hh _]; congruence). subst k'.
    split; [exact Hnone|]. exists a. split; assumption.
Qed.

End Postagens.

(** ** An exception of the clean-up *)

Section LimpezaLevanta.

Context (E : ambiente).

Lemma processar_atleta_limpeza_levanta (a : atleta) (p : progresso) :
  valido a ->
  (forall tr codigo nome, exists f,
     baixar_foto_atleta E tr codigo nome = Ret f /\ verdadeiro f = true) ->
  (forall tr f c, limpar_arquivos_atleta E tr f c = Raise) ->
  exists p1 evs f c,
    processar_atleta E a p = (Raise, p1) /\
    rastro (pr_estado p1) = LimparArquivos f c Raise :: evs ++ rastro (pr_estado p) /\
    contar e_foto evs = 1%nat /\
    (forall a' c' r, PostarNoX a' c' r ∈ evs -> a' = a) /\
    (forall c', PostarNoX a c' (Ret true) ∈ evs ->
       0 <= pr_postados p ->
       exists k g, gerar_hash_atleta a = Some k /\
         is_Some (pr_historico p1 !! k) /\
         Salvar (pr_historico p1) g ∈ evs).
Proof.
  intros Hv Hfoto Hlimpa.
  destruct (valido_campos a Hv) as (k & nome & codigo & Hk & Hnome & Hcod & Hreg).
  destruct p as [h n st].
  unfold processar_atleta, tentar_atleta. rewrite Hnome, Hcod.
  destruct (Hfoto (rastro st) codigo nome) as (foto & -> & Hverd).
  set (st1 := registrar (BaixarFoto codigo nome (Ret foto)) st).
  unfold limpar.
  destruct (criar_card_atleta E (rastro st1) a foto) as [card|] eqn:H2.
  - set (st2 := registrar (CriarCard a foto (Ret card)) st1).
    destruct (verdadeiro card) eqn:Hc.
    + destruct (postar_no_x E (rastro st2) a card) as [[|]|] eqn:H3.
      * set (st3 := registrar (PostarNoX a card (Ret true)) st2).
        destruct (Hreg (agora_isoformat E (rastro st3))) as [reg ->].
        unfold salvar_se_postou. simpl pr_postados.
        destruct (0 <? n + 1) eqn:Hn; simpl; rewrite Hverd; simpl;
          rewrite Hlimpa; eexists _, _, foto, card;
          (split; [reflexivity|]); simpl; rewrite ?salvar_historico_rastro;
          (split; [simpl; apply f_equal; estende|]);
          (split; [reflexivity|]);
          (split; [intros a' c' r' Hin; so_de_a Hin|]).
        -- intros c' _ _. exists k. eexists. split; [exact Hk|].
           split; [apply lookup_insert_is_Some'; left; reflexivity|]. left.
        -- intros c' _ Hpos. apply Z.ltb_ge in Hn. simpl in Hpos. lia.
      * unfold salvar_se_postou. simpl pr_postados.
        destruct (0 <? n) eqn:Hn; simpl; rewrite Hverd; simpl;
          rewrite Hlimpa; eexists _, _, foto, card;
          (split; [reflexivity|]); simpl; rewrite ?salvar_historico_rastro;
          (split; [simpl; apply f_equal; estende|]);
          (split; [reflexivity|]);
          (split; [intros a' c' r' Hin; so_de_a Hin|]);
          intros c' Hin; exfalso; so_de_a Hin.
      * simpl. rewrite Hverd. simpl. rewrite Hlimpa.
        eexists _, _, foto, card. split; [reflexivity|]. simpl.
        split; [apply f_equal; estende|]. split; [reflexivity|].
        split; [intros a' c' r' Hin; so_de_a Hin|].
        intros c' Hin; exfalso; so_de_a Hin.
    + unfold salvar_se_postou. simpl pr_postados.
      destruct (0 <? n) eqn:Hn; simpl; rewrite Hverd; simpl;
        rewrite Hlimpa; eexists _, _, foto, card;
        (split; [reflexivity|]); simpl; rewrite ?salvar_historico_rastro;
        (split; [simpl; apply f_equal; estende|]);
        (split; [reflexivity|]);
        (split; [intros a' c' r' Hin; so_de_a Hin|]);
        intros c' Hin; exfalso; so_de_a Hin.
  - simpl. rewrite Hverd. simpl. rewrite Hlimpa.
    eexists _, _, foto, None. split; [reflexivity|]. simpl.
    split; [apply f_equal; estende|]. split; [reflexivity|].
    split; [intros a' c' r' Hin; so_de_a Hin|].
    intros c' Hin; exfalso; so_de_a Hin.
Qed.

(** X7.  An exception of [limpar_arquivos_atleta] in the [finally] clause
    ends the whole batch.  When the download gives a file and the clean-up
    raises, [processar_resultados] returns 0 after the first new record:
    the clean-up is its last call, one download was made, no other record
    is posted, and the final save is skipped; yet a posting of the first
    record that returned success has put its fingerprint in the ledger of
    the caller, which was saved before the clean-up. *)
Theorem processar_resultados_limpeza_levanta (resp : resposta)
  (l : list item) (h : historico) (st : estado) (a : atleta)
  (novos : list atleta) :
  resp_json resp = JsonLista l ->
  filtrar_novos l h = Some (a :: novos) ->
  (forall tr codigo nome, exists f,
     baixar_foto_atleta E tr codigo nome = Ret f /\ verdadeiro f = true) ->
  (forall tr f c, limpar_arquivos_atleta E tr f c = Raise) ->
  let '(n, h', st') := processar_resultados E resp h st in
  let evs := eventos_desde (rastro st) (rastro st') in
  n = 0 /\
  (exists f c, head evs = Some (LimparArquivos f c Raise)) /\
  contar e_foto evs = 1%nat /\
  (forall a' c r, PostarNoX a' c r ∈ evs -> a' = a) /\
  (forall c, PostarNoX a c (Ret true) ∈ evs ->
     exists k g, gerar_hash_atleta a = Some k /\ is_Some (h' !! k) /\
       Salvar h' g ∈ evs).
Proof.
  intros Hl Hf Hfoto Hlimpa.
  rewrite (processar_resultados_lista E resp l h st a novos Hl Hf).
  pose proof (filtrar_novos_validos l h (a :: novos) Hf) as Hv.
  apply Forall_cons in Hv as [[Hv _] _].
  destruct (processar_atleta_limpeza_levanta a (Progresso h 0 st) Hv Hfoto Hlimpa)
    as (p1 & evs & f & c & Hrun & Htr & Hcf & Ha & Hs).
  simpl processar_novos. rewrite Hrun. simpl in Htr. rewrite Htr.
  change (LimparArquivos f c Raise :: evs ++ rastro st)
    with ((LimparArquivos f c Raise :: evs) ++ rastro st).
  rewrite eventos_desde_app. cbv zeta.
  split; [reflexivity|]. split; [exists f, c; reflexivity|].
  split; [simpl; exact Hcf|]. split.
  - intros a' c' r Hin. apply elem_of_cons in Hin as [Hin|Hin]; [discriminate|].
    apply (Ha a' c' r Hin).
  - intros c' Hin. apply elem_of_cons in Hin as [Hin|Hin]; [discriminate|].
    destruct (Hs c' Hin) as (k & g & Hk & Hsome & Hsal); [simpl; lia|].
    exists k, g. split; [exact Hk|]. split; [exact Hsome|]. right. exact Hsal.
Qed.

End LimpezaLevanta.

Lemma processar_resultados_limpeza_levanta_witness :
  let '(n, h', st') :=
    processar_resultados amb_limpeza_falha (resposta_lista lote_de_tres) ∅
      estado_inicial in
  let evs := eventos_desde (rastro estado_inicial) (rastro st') in
  n = 0 /\
  (exists f c, head evs = Some (LimparArquivos f c Raise)) /\
  contar e_foto evs = 1%nat /\
  (forall a' c r, PostarNoX a' c r ∈ evs -> a' = atleta_n "Ana" 1) /\
  (forall c, PostarNoX (atleta_n "Ana" 1) c (Ret true) ∈ evs ->
     exists k g, gerar_hash_atleta (atleta_n "Ana" 1) = Some k /\
       is_Some (h' !! k) /\ Salvar h' g ∈ evs).
Proof.
  refine (processar_resultados_limpeza_levanta amb_limpeza_falha
            (resposta_lista lote_de_tres) (IDict <$> lote_de_tres) ∅
            estado_inicial (atleta_n "Ana" 1)
            [atleta_n "Bia" 2; atleta_n "Caio" 3] eq_refl _ _ _).
  - apply filtrar_novos_vazio. valida.
  - intros tr codigo nome. eexists. split; reflexivity.
  - intros tr f c. reflexivity.
Defined.

(** ** The attempts of a cycle, in any world *)

Lemma filtrados_da_lista (resp : resposta) (h : historico)
  (novos : list atleta) :
  match resp_json resp with
  | JsonLista l => filtrar_novos l h = Some novos \/
                   (filtrar_novos l h = None /\ novos = [])
  | _ => novos = []
  end ->
  (length novos <= length (lista_de resp))%nat /\
  forall a, a ∈ novos ->
    IDict a ∈ lista_de resp /\
    exists k, gerar_hash_atleta a = Some k /\ h !! k = None.
Proof.
  intros Hm. unfold lista_de. destruct (resp_json resp) as [| |l];
    try (subst novos; split; [simpl; lia|intros a Hin; inversion Hin]).
  destruct Hm as [Hf|[_ ->]]; [|split; [simpl; lia|intros a Hin; inversion Hin]].
  split; [apply (filtrar_novos_length l h novos Hf)|].
  intros a Hin. split; [apply (filtrar_novos_elem l h novos a Hf Hin)|].
  pose proof (filtrar_novos_validos l h novos Hf) as Hv.
  rewrite Forall_forall in Hv. apply (Hv a Hin).
Qed.

Ltac fora Hin :=
  repeat (apply elem_of_cons in Hin as [Hin|Hin]; [try discriminate Hin|]);
  try (inversion Hin; fail).

Section Tentativas.

Context (E : ambiente).

(** An attempt that ended in [continue], followed by the rest of the
    loop. *)
Lemma tentativas_ok_continua (csrf data : string) (h : historico) (n : nat)
  (b : bool) (evs pre : list event) :
  tentativas_ok E csrf data h n b evs ->
  Forall (fun ev => e_captcha_ou_ocr ev || e_busca ev = true) pre ->
  contar e_captcha pre = 1%nat ->
  (contar e_busca pre <= 1)%nat ->
  contar e_aceita pre = 0%nat ->
  (forall tok txt d r, TentarBusca tok txt d r ∈ pre ->
     tok = csrf /\ d = data /\ (3 <= String.length txt)%nat /\
     (exists img, OcrCaptcha img (Ret txt) ∈ pre) /\
     exists tr, r = tentar_busca E tr tok txt d) ->
  tentativas_ok E csrf data h (S n) b (evs ++ pre).
Proof.
  intros (Hall & Hcap & Hbus & Hac & Hf & Hs & Hp) Hpre Hc1 Hb1 Ha1 Hs1.
  assert (Hproc : contar e_processador pre = 0%nat).
  { apply (contar_zero _ (fun ev => e_captcha_ou_ocr ev || e_busca ev));
      [|exact Hpre]. intros []; simpl; intros; congruence. }
  split.
  { apply Forall_app. split; [exact Hall|].
    eapply Forall_impl; [exact Hpre|]. intros ev Hev. unfold e_tentativa.
    rewrite Hev. reflexivity. }
  rewrite !contar_app.
  split; [lia|]. split; [lia|]. split; [lia|]. split.
  { intros Hb. destruct (Hf Hb). lia. }
  split.
  - intros tok txt d r Hin. apply elem_of_app in Hin as [Hin|Hin].
    + destruct (Hs tok txt d r Hin) as (? & ? & ? & [img Hocr] & ?).
      repeat split; try assumption.
      exists img. apply elem_of_app. left. exact Hocr.
    + destruct (Hs1 tok txt d r Hin) as (? & ? & ? & [img Hocr] & ?).
      repeat split; try assumption.
      exists img. apply elem_of_app. right. exact Hocr.
  - intros a c r Hin. apply elem_of_app in Hin as [Hin|Hin].
    + destruct (Hp a c r Hin) as (txt & resp & Hb' & Hrest).
      exists txt, resp. split; [apply elem_of_app; left; exact Hb'|exact Hrest].
    + exfalso. rewrite Forall_forall in Hpre. specialize (Hpre _ Hin).
      discriminate.
Qed.

Lemma tentativas_delta (csrf data : string) (h : historico) (ts : list Z) :
  forall st, exists evs,
    rastro (tentativas E csrf data h ts st).2 = evs ++ rastro st /\
    ultimo_dia_verificado (tentativas E csrf data h ts st).2
    = ultimo_dia_verificado st /\
    tentativas_ok E csrf data h (length ts)
      (tentativas E csrf data h ts st).1 evs.
Proof.
  induction ts as [|t ts IH]; intros st.
  - exists []. simpl. split; [reflexivity|]. split; [reflexivity|].
    unfold tentativas_ok. simpl. split; [constructor|].
    repeat split; auto; intros; match goal with H : _ ∈ [] |- _ => inversion H end.
  - cbn [tentativas length].
    destruct (baixar_captcha E (rastro st)) as [img|] eqn:H1.
    2:{ destruct (IH (registrar (BaixarCaptcha Raise) st)) as (evs & Htr & Hu & Hok).
        exists (evs ++ [BaixarCaptcha Raise]).
        split; [rewrite Htr, <- app_assoc; reflexivity|]. split; [exact Hu|].
        apply tentativas_ok_continua; [exact Hok|repeat constructor|reflexivity
          |simpl; lia|reflexivity|intros tok txt d r Hin; fora Hin]. }
    set (st1 := registrar (BaixarCaptcha (Ret img)) st).
    destruct (ocr_captcha E (rastro st1) img) as [txt|] eqn:H2.
    2:{ destruct (IH (registrar (OcrCaptcha img Raise) st1)) as (evs & Htr & Hu & Hok).
        exists (evs ++ [OcrCaptcha img Raise; BaixarCaptcha (Ret img)]).
        split; [rewrite Htr, <- app_assoc; reflexivity|]. split; [exact Hu|].
        apply tentativas_ok_continua; [exact Hok|repeat constructor|reflexivity
          |simpl; lia|reflexivity|intros tok txt d r Hin; fora Hin]. }
    set (st2 := registrar (OcrCaptcha img (Ret txt)) st1).
    destruct (String.length txt <? 3)%nat eqn:Hlen.
    { destruct (IH st2) as (evs & Htr & Hu & Hok).
      exists (evs ++ [OcrCaptcha img (Ret txt); BaixarCaptcha (Ret img)]).
      split; [rewrite Htr, <- app_assoc; reflexivity|]. split; [exact Hu|].
      apply tentativas_ok_continua; [exact Hok|repeat constructor|reflexivity
        |simpl; lia|reflexivity|intros tok txt' d r Hin; fora Hin]. }
    apply Nat.ltb_ge in Hlen.
    assert (Hs1 : forall r pre0 tok txt' d r',
      r = tentar_busca E (rastro st2) csrf txt data ->
      TentarBusca tok txt' d r'
        ∈ pre0 ++ [TentarBusca csrf txt data r; OcrCaptcha img (Ret txt);
                   BaixarCaptcha (Ret img)] ->
      (forall ev, ev ∈ pre0 -> e_processador ev = true) ->
      tok = csrf /\ d = data /\ (3 <= String.length txt')%nat /\
      (exists img', OcrCaptcha img' (Ret txt')
         ∈ pre0 ++ [TentarBusca csrf txt data r; OcrCaptcha img (Ret txt);
                    BaixarCaptcha (Ret img)]) /\
      exists tr, r' = tentar_busca E tr tok txt' d).
    { intros r pre0 tok txt' d r' Hr Hin Hpre0.
      apply elem_of_app in Hin as [Hin|Hin];
        [specialize (Hpre0 _ Hin); discriminate|].
      apply elem_of_cons in Hin as [Hin|Hin]; [|fora Hin].
      injection Hin as -> -> -> ->.
      repeat split; [exact Hlen| |exists (rastro st2); exact Hr].
      exists img. apply elem_of_app. right. right. left. }
    destruct (tentar_busca E (rastro st2) csrf txt data) as [resp|] eqn:H3.
    2:{ destruct (IH (registrar (TentarBusca csrf txt data Raise) st2))
          as (evs & Htr & Hu & Hok).
        exists (evs ++ [TentarBusca csrf txt data Raise;
                        OcrCaptcha img (Ret txt); BaixarCaptcha (Ret img)]).
        split; [rewrite Htr, <- app_assoc; reflexivity|]. split; [exact Hu|].
        apply tentativas_ok_continua; [exact Hok|repeat constructor|reflexivity
          |simpl; lia|reflexivity|].
        intros tok txt' d r Hin.
        apply (Hs1 Raise [] tok txt' d r eq_refl Hin).
        intros ev Hev. inversion Hev. }
    set (st3 := registrar (TentarBusca csrf txt data (Ret resp)) st2).
    destruct (contem "captcha" (lower (resp_text resp))) eqn:Hcap.
    { destruct (IH st3) as (evs & Htr & Hu & Hok).
      exists (evs ++ [TentarBusca csrf txt data (Ret resp);
                      OcrCaptcha img (Ret txt); BaixarCaptcha (Ret img)]).
      split; [rewrite Htr, <- app_assoc; reflexivity|]. split; [exact Hu|].
      apply tentativas_ok_continua; [exact Hok|repeat constructor|reflexivity
        |simpl; lia|simpl; rewrite Hcap; reflexivity|].
      intros tok txt' d r Hin.
      apply (Hs1 (Ret resp) [] tok txt' d r eq_refl Hin).
      intros ev Hev. inversion Hev. }
    destruct (processar_resultados_delta E resp h st3)
      as (pevs & novos & Hm & Htr & Hu & Hp & Ha & _).
    destruct (filtrados_da_lista resp h novos Hm) as [_ Hel].
    cbn [fst snd].
    exists (pevs ++ [TentarBusca csrf txt data (Ret resp);
                     OcrCaptcha img (Ret txt); BaixarCaptcha (Ret img)]).
    split; [rewrite Htr, <- app_assoc; reflexivity|]. split; [exact Hu|].
    assert (Hz : forall P, (forall ev, e_processador ev = true -> P ev = false) ->
                           contar P pevs = 0%nat).
    { intros P HP. apply (contar_zero P e_processador); [exact HP|exact Hp]. }
    unfold tentativas_ok. rewrite !contar_app.
    rewrite (Hz e_captcha), (Hz e_busca), (Hz e_aceita)
      by (intros []; simpl; intros; congruence).
    simpl. rewrite Hcap. simpl.
    split.
    { apply Forall_app. split; [|repeat constructor].
      eapply Forall_impl; [exact Hp|]. intros ev Hev. unfold e_tentativa.
      rewrite Hev. apply orb_true_r. }
    split; [lia|]. split; [lia|]. split; [reflexivity|].
    split; [discriminate|]. split.
    + intros tok txt' d r Hin.
      apply (Hs1 (Ret resp) pevs tok txt' d r eq_refl Hin).
      rewrite Forall_forall in Hp. exact Hp.
    + intros a c r Hin. apply elem_of_app in Hin as [Hin|Hin]; [|fora Hin].
      exists txt, resp. split; [apply elem_of_app; right; left|].
      split; [exact Hcap|]. apply Hel, (Ha a c r Hin).
Qed.

End Tentativas.

(** ** A cycle, in any world *)

Lemma nao_ocorre (Q : event -> bool) (ev : event) (evs : list event) :
  Forall (fun e => Q e = true) evs -> Q ev = false -> ev ∈ evs -> False.
Proof.
  intros Hall Hq Hin. rewrite Forall_forall in Hall.
  specialize (Hall _ Hin). congruence.
Qed.

Section Ciclo.

Context (E : ambiente).

Lemma limpar_historico_quieto (d : string) (st : estado) :
  exists q,
    rastro (limpar_historico_se_novo_dia E d st).2 = q ++ rastro st /\
    Forall (fun ev => e_quieto ev = true) q /\
    contar e_pastas q = 0%nat /\
    (ultimo_dia_verificado (limpar_historico_se_novo_dia E d st).2 = Some d \/
     (Remover Raise ∈ q /\
      ultimo_dia_verificado (limpar_historico_se_novo_dia E d st).2
      = ultimo_dia_verificado st)).
Proof.
  unfold limpar_historico_se_novo_dia.
  destruct (ultimo_dia_verificado st) as [u|] eqn:Hu;
    [|exists []; repeat split; auto; constructor].
  destruct (decide (d <> u)) as [Hne|Heq].
  - destruct (arquivo_historico st);
      [exists []; repeat split; auto; constructor| |];
      destruct (remover_arquivo E (rastro st)); simpl;
      eexists [_]; (split; [reflexivity|]); (split; [repeat constructor|]);
      (split; [reflexivity|]);
      first [left; reflexivity | right; split; [left|exact Hu]].
  - exists []. simpl. split; [reflexivity|]. split; [constructor|].
    split; [reflexivity|]. left. rewrite Hu. f_equal. symmetry.
    apply dec_stable, Heq.
Qed.

Lemma carregar_historico_quieto (st : estado) :
  exists q,
    rastro (carregar_historico E st).2 = q ++ rastro st /\
    Forall (fun ev => e_quieto ev = true) q /\
    contar e_pastas q = 0%nat /\
    ultimo_dia_verificado (carregar_historico E st).2
    = ultimo_dia_verificado st.
Proof.
  unfold carregar_historico.
  destruct (arquivo_historico st); simpl;
    [exists []|eexists [_]|eexists [_]];
    repeat split; repeat constructor.
Qed.

(** The four ways a cycle ends; [q] holds the calls before the one that
    raised, or before the token. *)
Lemma buscar_casos (d : string) (st : estado) :
  let st0 := (limpar_historico_se_novo_dia E d st).2 in
  let '(r, st') := buscar_e_processar_novos E d st in
  ultimo_dia_verificado st' = ultimo_dia_verificado st0 /\
  exists q,
    Forall (fun ev => e_quieto ev = true) q /\
    (ultimo_dia_verificado st0 = Some d \/
     (Remover Raise ∈ q /\
      ultimo_dia_verificado st0 = ultimo_dia_verificado st)) /\
    ((r = Raise /\ contar e_pastas q = 0%nat /\
      rastro st' = CriarPastas Raise :: q ++ rastro st) \/
     (r = Raise /\ contar e_pastas q = 1%nat /\
      rastro st' = ObterDataHoje Raise :: q ++ rastro st) \/
     (r = Ret false /\ contar e_pastas q = 1%nat /\
      rastro st' = PegarCsrfToken Raise :: q ++ rastro st) \/
     (exists tok data evs b,
        r = Ret b /\ contar e_pastas q = 1%nat /\
        ObterDataHoje (Ret data) ∈ q /\
        rastro st' = evs ++ PegarCsrfToken (Ret tok) :: q ++ rastro st /\
        tentativas_ok E tok data (carregado E st0) (limite_tentativas E)
          b evs)).
Proof.
  intros st0. unfold buscar_e_processar_novos. fold st0.
  destruct (limpar_historico_quieto d st) as (q0 & Hq0 & Hall0 & Hc0 & Hd0).
  fold st0 in Hq0, Hd0.
  destruct (criar_pastas E (rastro st0)) as [[]|] eqn:H1.
  2:{ split; [reflexivity|]. exists q0. split; [exact Hall0|].
      split; [exact Hd0|]. left. simpl. rewrite Hq0. auto. }
  unfold carregado.
  set (st1 := registrar (CriarPastas (Ret tt)) st0).
  destruct (carregar_historico_quieto st1) as (q2 & Hq2 & Hall2 & Hc2 & Hu2).
  destruct (carregar_historico E st1) as [h st2]. simpl in Hq2, Hu2.
  set (q := q2 ++ CriarPastas (Ret tt) :: q0).
  assert (Hq : Forall (fun ev => e_quieto ev = true) q).
  { apply Forall_app. split; [exact Hall2|]. constructor; [reflexivity|exact Hall0]. }
  assert (Hcq : contar e_pastas q = 1%nat).
  { unfold q. rewrite contar_app. simpl. lia. }
  assert (Htr2 : rastro st2 = q ++ rastro st).
  { rewrite Hq2. simpl. rewrite Hq0. unfold q. rewrite <- app_assoc. reflexivity. }
  assert (Hdq : ultimo_dia_verificado st0 = Some d \/
     (Remover Raise ∈ q /\
      ultimo_dia_verificado st0 = ultimo_dia_verificado st)).
  { destruct Hd0 as [?|[Hin ?]]; [left; assumption|right].
    split; [|assumption]. apply elem_of_app. right. right. exact Hin. }
  destruct (obter_data_hoje E (rastro st2)) as [data|] eqn:H3.
  2:{ split; [exact Hu2|]. exists q. split; [exact Hq|]. split; [exact Hdq|].
      right. left. simpl. rewrite Htr2. auto. }
  set (st3 := registrar (ObterDataHoje (Ret data)) st2).
  assert (Hq' : Forall (fun ev => e_quieto ev = true)
                  (ObterDataHoje (Ret data) :: q))
    by (constructor; [reflexivity|exact Hq]).
  assert (Hdq' : ultimo_dia_verificado st0 = Some d \/
     (Remover Raise ∈ ObterDataHoje (Ret data) :: q /\
      ultimo_dia_verificado st0 = ultimo_dia_verificado st)).
  { destruct Hdq as [?|[Hin ?]]; [left; assumption|right].
    split; [right; exact Hin|assumption]. }
  destruct (pegar_csrf_token E (rastro st3)) as [tok|] eqn:H4.
  2:{ split; [exact Hu2|]. exists (ObterDataHoje (Ret data) :: q).
      split; [exact Hq'|]. split; [exact Hdq'|].
      right. right. left. simpl. rewrite Htr2. auto. }
  set (st4 := registrar (PegarCsrfToken (Ret tok)) st3).
  destruct (tentativas_delta E tok data h
              (seqZ 1 (Z.min (MAX_TENTATIVAS E) 50)) st4)
    as (evs & Htr & Hu & Hok).
  rewrite length_seqZ in Hok.
  destruct (tentativas E tok data h (seqZ 1 (Z.min (MAX_TENTATIVAS E) 50)) st4)
    as [b st5]. simpl in Htr, Hu, Hok.
  split; [rewrite Hu; exact Hu2|].
  exists (ObterDataHoje (Ret data) :: q).
  split; [exact Hq'|]. split; [exact Hdq'|].
  right. right. right. exists tok, data, evs, b.
  split; [reflexivity|]. split; [simpl; exact Hcq|]. split; [left|].
  split; [rewrite Htr, Htr2; reflexivity|exact Hok].
Qed.

End Ciclo.

Lemma contar_nenhum (P : event -> bool) (evs : list event) :
  (forall ev, ev ∈ evs -> P ev = false) -> contar P evs = 0%nat.
Proof.
  induction evs as [|ev evs IH]; intros H; simpl; [reflexivity|].
  rewrite (H ev) by left. rewrite IH; [reflexivity|].
  intros ev' Hin. apply H. right. exact Hin.
Qed.

Lemma lower_append (s1 s2 : string) :
  lower (s1 +:+ s2) = lower s1 +:+ lower s2.
Proof.
  induction s1 as [|c s1 IH]; [reflexivity|].
  change (String c s1 +:+ s2) with (String c (s1 +:+ s2)). simpl lower.
  rewrite IH. reflexivity.
Qed.

Lemma prefix_append (s t : string) : String.prefix s (s +:+ t) = true.
Proof.
  induction s as [|c s IH].
  - destruct t; reflexivity.
  - change (String c s +:+ t) with (String c (s +:+ t)). simpl.
    destruct (ascii_dec c c) as [_|Hne]; [exact IH|contradiction].
Qed.

Lemma contem_prefix (sub s : string) :
  String.prefix sub s = true -> contem sub s = true.
Proof. destruct s; simpl; intros ->; reflexivity. Qed.

Lemma contem_meio (sub pre post : string) :
  contem sub (pre +:+ sub +:+ post) = true.
Proof.
  induction pre as [|c pre IH].
  - change (EmptyString +:+ sub +:+ post) with (sub +:+ post).
    apply contem_prefix, prefix_append.
  - change (String c pre +:+ sub +:+ post)
      with (String c (pre +:+ sub +:+ post)).
    simpl. rewrite IH. apply orb_true_r.
Qed.

Section CicloLimites.

Context (E : ambiente).

(** X8.  The bounds of a cycle, whatever the collaborators do: one call
    of [criar_pastas], at most one token request, at most
    [min(MAX_TENTATIVAS, 50)] CAPTCHA downloads, no more searches than
    downloads.  The cycle returns [True] exactly when a search was
    accepted, and then one search was; otherwise [processar_resultados]
    made no call; and it returns [False] only after the token request
    raised or every attempt was used. *)
Theorem buscar_e_processar_novos_limites (d : string) (st : estado) :
  let '(r, st') := buscar_e_processar_novos E d st in
  let evs := eventos_desde (rastro st) (rastro st') in
  contar e_pastas evs = 1%nat /\
  (contar e_token evs <= 1)%nat /\
  (contar e_captcha evs <= limite_tentativas E)%nat /\
  (contar e_captcha evs <= 50)%nat /\
  (contar e_busca evs <= contar e_captcha evs)%nat /\
  (r = Ret true <-> contar e_aceita evs = 1%nat) /\
  (r <> Ret true ->
   contar e_aceita evs = 0%nat /\ contar e_processador evs = 0%nat) /\
  (r = Ret false ->
   PegarCsrfToken Raise ∈ evs \/
   contar e_captcha evs = limite_tentativas E).
Proof.
  pose proof (buscar_casos E d st) as Hs. cbv zeta in Hs.
  destruct (buscar_e_processar_novos E d st) as [r st'].
  destruct Hs as (_ & q & Hq & _ & Hs). cbv zeta.
  assert (Hz : forall P, (forall ev, e_quieto ev = true -> P ev = false) ->
                         contar P q = 0%nat).
  { intros P HP. apply (contar_zero P e_quieto); [exact HP|exact Hq]. }
  assert (Hlim : (limite_tentativas E <= 50)%nat).
  { unfold limite_tentativas. lia. }
  destruct Hs as [(-> & Hc & Htr)|[(-> & Hc & Htr)|[(-> & Hc & Htr)|Hs]]].
  - rewrite Htr, eventos_desde_cons. simpl. rewrite Hc.
    rewrite (Hz e_token), (Hz e_captcha), (Hz e_busca), (Hz e_aceita),
      (Hz e_processador) by (intros []; simpl; intros; congruence).
    split; [lia|]. split; [lia|]. split; [lia|]. split; [lia|]. split; [lia|].
    split; [split; intros; [discriminate|lia]|].
    split; [auto|discriminate].
  - rewrite Htr, eventos_desde_cons. simpl. rewrite Hc.
    rewrite (Hz e_token), (Hz e_captcha), (Hz e_busca), (Hz e_aceita),
      (Hz e_processador) by (intros []; simpl; intros; congruence).
    split; [lia|]. split; [lia|]. split; [lia|]. split; [lia|]. split; [lia|].
    split; [split; intros; [discriminate|lia]|].
    split; [auto|discriminate].
  - rewrite Htr, eventos_desde_cons. simpl. rewrite Hc.
    rewrite (Hz e_token), (Hz e_captcha), (Hz e_busca), (Hz e_aceita),
      (Hz e_processador) by (intros []; simpl; intros; congruence).
    split; [lia|]. split; [lia|]. split; [lia|]. split; [lia|]. split; [lia|].
    split; [split; intros; [discriminate|lia]|].
    split; [auto|]. intros _. left. left.
  - destruct Hs as (tok & data & evs & b & -> & Hc & _ & Htr & Hok).
    destruct Hok as (Hall & Hcap & Hbus & Hac & Hf & _ & _).
    assert (Hy : forall P, (forall ev, e_tentativa ev = true -> P ev = false) ->
                           contar P evs = 0%nat).
    { intros P HP. apply (contar_zero P e_tentativa); [exact HP|exact Hall]. }
    replace (evs ++ PegarCsrfToken (Ret tok) :: q ++ rastro st)
      with ((evs ++ PegarCsrfToken (Ret tok) :: q) ++ rastro st) in Htr
      by (rewrite <- app_assoc; reflexivity).
    rewrite Htr, eventos_desde_app, !contar_app. simpl. rewrite Hc.
    rewrite (Hz e_token), (Hz e_captcha), (Hz e_busca), (Hz e_aceita),
      (Hz e_processador) by (intros []; simpl; intros; congruence).
    rewrite (Hy e_pastas), (Hy e_token)
      by (intros []; unfold e_tentativa; simpl; intros; congruence).
    split; [lia|]. split; [lia|]. split; [lia|]. split; [lia|]. split; [lia|].
    destruct b.
    + split; [split; intros; [lia|reflexivity]|]. split; [congruence|discriminate].
    + destruct (Hf eq_refl) as [Hn Hp].
      split; [split; intros; [discriminate|lia]|].
      split; [intros _; lia|]. intros _. right. lia.
Qed.

(** X9.  The cycle raises exactly when [criar_pastas] or
    [obter_data_hoje] raised, and then no token was requested.  An
    exception of the token request is caught: the cycle returns [False]
    with no CAPTCHA downloaded.  In every case the day check has run
    first: the recorded day is the date read, unless the removal of the
    file raised, and then it is left as it was. *)
Theorem buscar_e_processar_novos_excecoes (d : string) (st : estado) :
  let '(r, st') := buscar_e_processar_novos E d st in
  let evs := eventos_desde (rastro st) (rastro st') in
  (r = Raise <-> (CriarPastas Raise ∈ evs \/ ObterDataHoje Raise ∈ evs)) /\
  (r = Raise -> contar e_token evs = 0%nat /\ contar e_captcha evs = 0%nat) /\
  (PegarCsrfToken Raise ∈ evs ->
   r = Ret false /\ contar e_captcha evs = 0%nat) /\
  (ultimo_dia_verificado st' = Some d \/
   (Remover Raise ∈ evs /\
    ultimo_dia_verificado st' = ultimo_dia_verificado st)).
Proof.
  pose proof (buscar_casos E d st) as Hs. cbv zeta in Hs.
  destruct (buscar_e_processar_novos E d st) as [r st'].
  destruct Hs as (Hu & q & Hq & Hd & Hs). cbv zeta. rewrite Hu.
  assert (Hz : forall P, (forall ev, e_quieto ev = true -> P ev = false) ->
                         contar P q = 0%nat).
  { intros P HP. apply (contar_zero P e_quieto); [exact HP|exact Hq]. }
  assert (Hnq : forall ev, e_quieto ev = false -> ev ∈ q -> False).
  { intros ev Hev Hin. exact (nao_ocorre e_quieto ev q Hq Hev Hin). }
  assert (Hdia : forall pre,
    ultimo_dia_verificado (limpar_historico_se_novo_dia E d st).2 = Some d \/
    (Remover Raise ∈ pre ++ q /\
     ultimo_dia_verificado (limpar_historico_se_novo_dia E d st).2
     = ultimo_dia_verificado st)).
  { intros pre. destruct Hd as [?|[Hin ?]]; [left; assumption|right].
    split; [apply elem_of_app; right; exact Hin|assumption]. }
  destruct Hs as [(-> & Hc & Htr)|[(-> & Hc & Htr)|[(-> & Hc & Htr)|Hs]]].
  - rewrite Htr, eventos_desde_cons. simpl.
    rewrite (Hz e_token), (Hz e_captcha)
      by (intros []; simpl; intros; congruence).
    split; [split; [intros _; left; left|reflexivity]|].
    split; [auto|]. split; [|apply (Hdia [CriarPastas Raise])].
    intros Hin. apply elem_of_cons in Hin as [Hin|Hin]; [discriminate|].
    (exfalso; apply Hnq in Hin; [exact Hin|reflexivity]).
  - rewrite Htr, eventos_desde_cons. simpl.
    rewrite (Hz e_token), (Hz e_captcha)
      by (intros []; simpl; intros; congruence).
    split; [split; [intros _; right; left|reflexivity]|].
    split; [auto|]. split; [|apply (Hdia [ObterDataHoje Raise])].
    intros Hin. apply elem_of_cons in Hin as [Hin|Hin]; [discriminate|].
    (exfalso; apply Hnq in Hin; [exact Hin|reflexivity]).
  - rewrite Htr, eventos_desde_cons. simpl.
    rewrite (Hz e_captcha) by (intros []; simpl; intros; congruence).
    split; [split; [discriminate|]|].
    { intros [Hin|Hin]; apply elem_of_cons in Hin as [Hin|Hin];
        try discriminate; (exfalso; apply Hnq in Hin; [exact Hin|reflexivity]). }
    split; [discriminate|]. split; [auto|apply (Hdia [PegarCsrfToken Raise])].
  - destruct Hs as (tok & data & evs & b & -> & Hc & _ & Htr & Hok).
    destruct Hok as (Hall & _).
    replace (evs ++ PegarCsrfToken (Ret tok) :: q ++ rastro st)
      with ((evs ++ PegarCsrfToken (Ret tok) :: q) ++ rastro st) in Htr
      by (rewrite <- app_assoc; reflexivity).
    rewrite Htr, eventos_desde_app.
    assert (Hfora : forall ev,
      e_tentativa ev = false -> e_quieto ev = false ->
      ev <> PegarCsrfToken (Ret tok) ->
      ev ∈ evs ++ PegarCsrfToken (Ret tok) :: q -> False).
    { intros ev H1 H2 H3 Hin. apply elem_of_app in Hin as [Hin|Hin].
      - exact (nao_ocorre e_tentativa ev evs Hall H1 Hin).
      - apply elem_of_cons in Hin as [Hin|Hin]; [contradiction|].
        exact (Hnq ev H2 Hin). }
    split; [split; [discriminate|]|].
    { intros [Hin|Hin]; exfalso;
        apply Hfora in Hin; first [contradiction | reflexivity | discriminate]. }
    split; [discriminate|]. split.
    { intros Hin. exfalso.
      apply Hfora in Hin; first [contradiction | reflexivity | discriminate]. }
    replace (evs ++ PegarCsrfToken (Ret tok) :: q)
      with ((evs ++ [PegarCsrfToken (Ret tok)]) ++ q)
      by (rewrite <- app_assoc; reflexivity).
    apply Hdia.
Qed.

(** X10.  Where the calls of a cycle come from, in any world.  Every
    search is sent with the token and the date the cycle obtained and
    with a text of at least 3 characters that the OCR returned.  Every
    posting is for a record of the list of a response that did not hold
    the word [captcha], whose fingerprint is not in the ledger the cycle
    loaded. *)
Theorem buscar_e_processar_novos_origem (d : string) (st : estado) :
  let st0 := (limpar_historico_se_novo_dia E d st).2 in
  let '(r, st') := buscar_e_processar_novos E d st in
  let evs := eventos_desde (rastro st) (rastro st') in
  (forall tok txt data r', TentarBusca tok txt data r' ∈ evs ->
     PegarCsrfToken (Ret tok) ∈ evs /\ ObterDataHoje (Ret data) ∈ evs /\
     (3 <= String.length txt)%nat /\
     exists img, OcrCaptcha img (Ret txt) ∈ evs) /\
  (forall a c r', PostarNoX a c r' ∈ evs ->
     exists tok txt data resp,
       TentarBusca tok txt data (Ret resp) ∈ evs /\
       contem "captcha" (lower (resp_text resp)) = false /\
       IDict a ∈ lista_de resp /\
       exists k, gerar_hash_atleta a = Some k /\ carregado E st0 !! k = None).
Proof.
  intros st0. pose proof (buscar_casos E d st) as Hs. cbv zeta in Hs.
  fold st0 in Hs.
  destruct (buscar_e_processar_novos E d st) as [r st'].
  destruct Hs as (_ & q & Hq & _ & Hs). cbv zeta.
  assert (Hnq : forall ev, e_quieto ev = false -> ev ∈ q -> False).
  { intros ev Hev Hin. exact (nao_ocorre e_quieto ev q Hq Hev Hin). }
  assert (Hcurto : forall x,
    (forall tok txt data r', TentarBusca tok txt data r' ∈ x :: q ->
       x = TentarBusca tok txt data r') /\
    (forall a c r', PostarNoX a c r' ∈ x :: q -> x = PostarNoX a c r')).
  { intros x. split; intros; 
      match goal with H : _ ∈ _ :: _ |- _ =>
        apply elem_of_cons in H as [H|H]; [symmetry; exact H|
          (exfalso; apply Hnq in H; [exact H|reflexivity])] end. }
  destruct Hs as [(-> & Hc & Htr)|[(-> & Hc & Htr)|[(-> & Hc & Htr)|Hs]]];
    try (rewrite Htr, eventos_desde_cons; split;
         [intros tok txt data r' Hin; apply (Hcurto _) in Hin; discriminate
         |intros a c r' Hin; apply (Hcurto _) in Hin; discriminate]).
  destruct Hs as (tok & data & evs & b & -> & Hc & Hdata & Htr & Hok).
  destruct Hok as (Hall & _ & _ & _ & _ & Hbusca & Hpost).
  replace (evs ++ PegarCsrfToken (Ret tok) :: q ++ rastro st)
    with ((evs ++ PegarCsrfToken (Ret tok) :: q) ++ rastro st) in Htr
    by (rewrite <- app_assoc; reflexivity).
  rewrite Htr, eventos_desde_app. split.
  - intros tok' txt data' r' Hin. apply elem_of_app in Hin as [Hin|Hin].
    + destruct (Hbusca tok' txt data' r' Hin) as (-> & -> & Hlen & [img Hocr] & _).
      split; [apply elem_of_app; right; left|].
      split; [apply elem_of_app; right; right; exact Hdata|].
      split; [exact Hlen|]. exists img. apply elem_of_app. left. exact Hocr.
    + apply (Hcurto _) in Hin. discriminate.
  - intros a c r' Hin. apply elem_of_app in Hin as [Hin|Hin].
    + destruct (Hpost a c r' Hin) as (txt & resp & Hb & Hrest).
      exists tok, txt, data, resp.
      split; [apply elem_of_app; left; exact Hb|exact Hrest].
    + apply (Hcurto _) in Hin. discriminate.
Qed.

(** X11.  The test for a rejected CAPTCHA ignores case and position: when
    every response of the search holds the word [captcha] somewhere, in
    whatever mix of capitals, the cycle does not return [True], calls
    [processar_resultados] for nothing, and, once it has its token, uses
    every attempt. *)
Theorem buscar_e_processar_novos_captcha_recusado (d : string) (st : estado) :
  (forall tr tok txt data resp,
     tentar_busca E tr tok txt data = Ret resp ->
     exists pre w post,
       resp_text resp = pre +:+ w +:+ post /\ lower w = "captcha"%string) ->
  let '(r, st') := buscar_e_processar_novos E d st in
  let evs := eventos_desde (rastro st) (rastro st') in
  r <> Ret true /\
  contar e_processador evs = 0%nat /\
  (forall tok, PegarCsrfToken (Ret tok) ∈ evs ->
     contar e_captcha evs = limite_tentativas E).
Proof.
  intros Hrec. pose proof (buscar_casos E d st) as Hs. cbv zeta in Hs.
  destruct (buscar_e_processar_novos E d st) as [r st'].
  destruct Hs as (_ & q & Hq & _ & Hs). cbv zeta.
  assert (Hz : forall P, (forall ev, e_quieto ev = true -> P ev = false) ->
                         contar P q = 0%nat).
  { intros P HP. apply (contar_zero P e_quieto); [exact HP|exact Hq]. }
  assert (Hnq : forall ev, e_quieto ev = false -> ev ∈ q -> False).
  { intros ev Hev Hin. exact (nao_ocorre e_quieto ev q Hq Hev Hin). }
  destruct Hs as [(-> & Hc & Htr)|[(-> & Hc & Htr)|[(-> & Hc & Htr)|Hs]]];
    try (rewrite Htr, eventos_desde_cons; simpl;
         rewrite (Hz e_processador) by (intros []; simpl; intros; congruence);
         split; [discriminate|]; split; [reflexivity|];
         intros tok Hin; apply elem_of_cons in Hin as [Hin|Hin];
         [discriminate|(exfalso; apply Hnq in Hin; [exact Hin|reflexivity])]).
  destruct Hs as (tok & data & evs & b & -> & Hc & _ & Htr & Hok).
  destruct Hok as (Hall & _ & _ & Hac & Hf & Hbusca & _).
  assert (Hzero : contar e_aceita evs = 0%nat).
  { apply contar_nenhum. intros ev Hin.
    destruct ev as [| | | | |tok' txt data' [resp|]| | | | | | |]; try reflexivity.
    destruct (Hbusca tok' txt data' (Ret resp) Hin) as (_ & _ & _ & _ & tr & Hr).
    destruct (Hrec tr tok' txt data' resp (eq_sym Hr)) as (pre & w & post & Ht & Hw).
    simpl. rewrite Ht, !lower_append, Hw, contem_meio. reflexivity. }
  assert (b = false) as -> by (destruct b; [rewrite Hzero in Hac; discriminate|reflexivity]).
  destruct (Hf eq_refl) as [Hn Hp].
  replace (evs ++ PegarCsrfToken (Ret tok) :: q ++ rastro st)
    with ((evs ++ PegarCsrfToken (Ret tok) :: q) ++ rastro st) in Htr
    by (rewrite <- app_assoc; reflexivity).
  rewrite Htr, eventos_desde_app, !contar_app. simpl.
  rewrite (Hz e_captcha), (Hz e_processador)
    by (intros []; simpl; intros; congruence).
  split; [discriminate|]. split; [lia|]. intros tok' _. lia.
Qed.

End CicloLimites.

Lemma buscar_e_processar_novos_captcha_recusado_witness :
  let '(r, st') :=
    buscar_e_processar_novos amb_captcha_recusado "2024-01-01" estado_inicial in
  let evs := eventos_desde (rastro estado_inicial) (rastro st') in
  r <> Ret true /\
  contar e_processador evs = 0%nat /\
  (forall tok, PegarCsrfToken (Ret tok) ∈ evs ->
     contar e_captcha evs = limite_tentativas amb_captcha_recusado).
Proof.
  apply (buscar_e_processar_novos_captcha_recusado amb_captcha_recusado
           "2024-01-01" estado_inicial).
  intros tr tok txt data resp Hr. injection Hr as <-.
  exists "Erro: "%string, "CAPTCHA"%string, " incorreto"%string.
  split; reflexivity.
Defined.

(** ** What is published is saved *)

Section Persistido.

Context (E : ambiente).

(** X12.  The converse of the ledger invariant, when every write of the
    file works: each fingerprint posted with success during a call of
    [processar_resultados] is in the ledger file when the call returns,
    in whatever way it returns (also when an exception of the clean-up
    cuts the batch short and the count returned is 0); and the file is
    untouched or holds every key of the ledger given. *)
Theorem processar_resultados_persistencia (resp : resposta) (h : historico)
  (st : estado) :
  gravacao_funciona E ->
  let '(_, _, st') := processar_resultados E resp h st in
  let evs := eventos_desde (rastro st) (rastro st') in
  (forall a c k, PostarNoX a c (Ret true) ∈ evs ->
     gerar_hash_atleta a = Some k -> persistido k st') /\
  (arquivo_historico st' = arquivo_historico st \/
   exists hs, arquivo_historico st' = Gravado hs /\
     forall k, is_Some (h !! k) -> is_Some (hs !! k)).
Proof.
  intros Hg. pose proof (processar_resultados_efeito E resp h st Hg) as He.
  destruct (processar_resultados E resp h st) as [[n h'] st']. simpl in He.
  destruct He as (_ & evs & Htr & _ & Hfile & Hsuc).
  cbv zeta. rewrite Htr, eventos_desde_app.
  split; [|exact Hfile]. intros a c k Hin Hk. apply (Hsuc a c k Hin Hk).
Qed.

End Persistido.

Lemma processar_resultados_persistencia_witness :
  let '(_, _, st') :=
    processar_resultados amb_limpeza_falha (resposta_lista lote_de_tres) ∅
      estado_inicial in
  let evs := eventos_desde (rastro estado_inicial) (rastro st') in
  (forall a c k, PostarNoX a c (Ret true) ∈ evs ->
     gerar_hash_atleta a = Some k -> persistido k st') /\
  (arquivo_historico st' = arquivo_historico estado_inicial \/
   exists hs, arquivo_historico st' = Gravado hs /\
     forall k, is_Some ((∅ : historico) !! k) -> is_Some (hs !! k)).
Proof.
  apply (processar_resultados_persistencia amb_limpeza_falha
           (resposta_lista lote_de_tres) ∅ estado_inicial).
  intros tr h. reflexivity.
Defined.

(** ** Whole runs *)

Section Corrida.

Context (E : ambiente).

Lemma buscar_contagem (d : string) (st : estado) :
  exists evs,
    rastro (buscar_e_processar_novos E d st).2 = evs ++ rastro st /\
    contar e_pastas evs = 1%nat /\
    (contar e_token evs <= 1)%nat /\
    (contar e_captcha evs <= limite_tentativas E)%nat /\
    (contar e_busca evs <= contar e_captcha evs)%nat.
Proof.
  pose proof (buscar_casos E d st) as Hs. cbv zeta in Hs.
  destruct (buscar_e_processar_novos E d st) as [r st'].
  destruct Hs as (_ & q & Hq & _ & Hs). simpl.
  assert (Hz : forall P, (forall ev, e_quieto ev = true -> P ev = false) ->
                         contar P q = 0%nat).
  { intros P HP. apply (contar_zero P e_quieto); [exact HP|exact Hq]. }
  destruct Hs as [(-> & Hc & Htr)|[(-> & Hc & Htr)|[(-> & Hc & Htr)|Hs]]];
    try (eexists (_ :: q); split; [exact Htr|]; simpl; rewrite Hc;
         rewrite (Hz e_token), (Hz e_captcha), (Hz e_busca)
           by (intros []; simpl; intros; congruence);
         repeat split; lia).
  destruct Hs as (tok & data & evs & b & -> & Hc & _ & Htr & Hok).
  destruct Hok as (Hall & Hcap & Hbus & _).
  assert (Hy : forall P, (forall ev, e_tentativa ev = true -> P ev = false) ->
                         contar P evs = 0%nat).
  { intros P HP. apply (contar_zero P e_tentativa); [exact HP|exact Hall]. }
  exists (evs ++ PegarCsrfToken (Ret tok) :: q).
  split; [rewrite Htr, <- app_assoc; reflexivity|].
  rewrite !contar_app. simpl. rewrite Hc.
  rewrite (Hz e_token), (Hz e_captcha), (Hz e_busca)
    by (intros []; simpl; intros; congruence).
  rewrite (Hy e_pastas), (Hy e_token)
    by (intros []; unfold e_tentativa; simpl; intros; congruence).
  repeat split; lia.
Qed.

(** X13.  A run of cycles, in any world: one call of [criar_pastas] per
    cycle, at most one token request per cycle, at most
    [min(MAX_TENTATIVAS, 50)] CAPTCHA downloads per cycle, and no more
    searches than downloads. *)
Theorem ciclos_limites (dias : list string) (st : estado) :
  let evs := eventos_desde (rastro st) (rastro (ciclos E dias st)) in
  contar e_pastas evs = length dias /\
  (contar e_token evs <= length dias)%nat /\
  (contar e_captcha evs <= length dias * limite_tentativas E)%nat /\
  (contar e_captcha evs <= length dias * 50)%nat /\
  (contar e_busca evs <= contar e_captcha evs)%nat.
Proof.
  cbv zeta.
  assert (H : exists evs,
    rastro (ciclos E dias st) = evs ++ rastro st /\
    contar e_pastas evs = length dias /\
    (contar e_token evs <= length dias)%nat /\
    (contar e_captcha evs <= length dias * limite_tentativas E)%nat /\
    (contar e_busca evs <= contar e_captcha evs)%nat).
  { revert st. induction dias as [|d dias IH]; intros st.
    - exists []. simpl. repeat split; lia.
    - simpl ciclos.
      destruct (buscar_contagem d st) as (e1 & Htr1 & Hp1 & Ht1 & Hc1 & Hb1).
      destruct (IH (buscar_e_processar_novos E d st).2)
        as (e2 & Htr2 & Hp2 & Ht2 & Hc2 & Hb2).
      exists (e2 ++ e1). split; [rewrite Htr2, Htr1, app_assoc; reflexivity|].
      rewrite !contar_app. simpl length. repeat split; lia. }
  destruct H as (evs & Htr & Hp & Ht & Hc & Hb).
  rewrite Htr, eventos_desde_app.
  assert (Hlim : (limite_tentativas E <= 50)%nat)
    by (unfold limite_tentativas; lia).
  repeat split; try lia. nia.
Qed.

(** X14.  Along a run that starts with a ledger file holding only
    published fingerprints (an absent file, say), whatever the
    collaborators and the disk do, every fingerprint the ledger file
    holds at the end is that of a record some posting of which returned
    success. *)
Theorem ciclos_so_publicados (dias : list string) (st : estado) (k : string) :
  arquivo_ok (rastro st) (arquivo_historico st) ->
  persistido k (ciclos E dias st) ->
  publicado (rastro (ciclos E dias st)) k.
Proof.
  intros Hok (hs & Hfile & Hk).
  pose proof (ciclos_arquivo_ok E dias st Hok) as H.
  rewrite Hfile in H. apply (H k Hk).
Qed.

End Corrida.

Lemma ciclos_so_publicados_witness :
  let st' := ciclos (amb_dois_ciclos (Ret true)) ["2024-01-01"; "2024-01-01"]%string
               estado_inicial in
  persistido "84aa30f71520b8337a143dad1b2ab15f" st' /\
  publicado (rastro st') "84aa30f71520b8337a143dad1b2ab15f".
Proof.
  assert (Hp : persistido "84aa30f71520b8337a143dad1b2ab15f"
                 (ciclos (amb_dois_ciclos (Ret true))
                    ["2024-01-01"; "2024-01-01"]%string estado_inicial)).
  { eexists. split; [vm_compute; reflexivity|]. vm_compute. eexists. reflexivity. }
  split; [exact Hp|].
  exact (ciclos_so_publicados (amb_dois_ciclos (Ret true))
           ["2024-01-01"; "2024-01-01"]%string estado_inicial
           "84aa30f71520b8337a143dad1b2ab15f" I Hp).
Defined.

(** ** The save after each successful posting *)

Lemma salva_apos_postar_app (e2 e1 : list event) :
  salva_apos_postar e2 -> salva_apos_postar e1 -> salva_apos_postar (e2 ++ e1).
Proof.
  intros H2 H1 i a c Hi. apply lookup_app_Some in Hi as [Hi|[Hle Hi]].
  - destruct (H2 i a c Hi) as (j & hs & g & k & -> & Hj & Hk & Hs).
    exists j, hs, g, k. split; [reflexivity|].
    split; [apply lookup_app_l_Some; exact Hj|]. split; assumption.
  - destruct (H1 _ a c Hi) as (j & hs & g & k & Hij & Hj & Hk & Hs).
    exists (length e2 + j)%nat, hs, g, k. split; [lia|].
    split; [|split; assumption].
    rewrite lookup_app_r by lia.
    replace (length e2 + j - length e2)%nat with j by lia. exact Hj.
Qed.

Lemma salva_apos_postar_cons (ev : event) (evs : list event) :
  e_postar_sucesso ev = false ->
  salva_apos_postar evs -> salva_apos_postar (ev :: evs).
Proof.
  intros Hev H. apply (salva_apos_postar_app [ev] evs); [|exact H].
  intros [|i] a c Hi; simpl in Hi; [|discriminate].
  injection Hi as ->. discriminate.
Qed.

Section SalvaAposPostar.

Context (E : ambiente).

Lemma processar_atleta_salva (a : atleta) (p : progresso) :
  valido a -> 0 <= pr_postados p ->
  exists evs,
    rastro (pr_estado (processar_atleta E a p).2) = evs ++ rastro (pr_estado p) /\
    0 <= pr_postados (processar_atleta E a p).2 /\
    salva_apos_postar evs.
Proof.
  intros Hv Hn.
  destruct (valido_campos a Hv) as (k & nome & codigo & Hk & Hnome & Hcod & Hreg).
  destruct p as [h n st]. simpl in Hn.
  unfold processar_atleta, tentar_atleta. rewrite Hnome, Hcod.
  unfold limpar, salvar_se_postou.
  destruct (baixar_foto_atleta E (rastro st) codigo nome) as [foto|] eqn:H1.
  2:{ simpl. eexists. split; [estende|]. split; [exact Hn|].
      intros [|[|i]] a' c' Hi; discriminate. }
  set (st1 := registrar (BaixarFoto codigo nome (Ret foto)) st).
  destruct (criar_card_atleta E (rastro st1) a foto) as [card|] eqn:H2.
  2:{ destruct (verdadeiro foto) eqn:Hf; simpl; rewrite ?Hf; simpl; eexists;
        (split; [estende|]); (split; [exact Hn|]);
        intros [|[|[|i]]] a' c' Hi; discriminate. }
  set (st2 := registrar (CriarCard a foto (Ret card)) st1).
  destruct (verdadeiro card) eqn:Hc.
  2:{ simpl pr_postados.
      destruct (0 <? n); destruct (verdadeiro foto) eqn:Hf; simpl;
        rewrite ?Hf, ?Hc; simpl;
        rewrite ?salvar_historico_rastro; eexists;
        (split; [simpl; estende|]); (split; [exact Hn|]);
        intros [|[|[|[|i]]]] a' c' Hi; discriminate. }
  destruct (postar_no_x E (rastro st2) a card) as [[|]|] eqn:H3.
  - set (st3 := registrar (PostarNoX a card (Ret true)) st2).
    destruct (Hreg (agora_isoformat E (rastro st3))) as [reg ->].
    simpl pr_postados.
    replace (0 <? n + 1) with true by (symmetry; apply Z.ltb_lt; lia).
    simpl. rewrite Hc, orb_true_r. simpl. rewrite salvar_historico_rastro.
    eexists. split; [simpl; estende|]. split; [lia|].
    intros [|[|[|[|[|i]]]]] a' c' Hi; try discriminate.
    simpl in Hi. injection Hi as <- <-.
    eexists 1%nat, _, _, k. split; [reflexivity|]. split; [reflexivity|].
    split; [exact Hk|]. apply lookup_insert_is_Some'. left. reflexivity.
  - simpl pr_postados. destruct (0 <? n); simpl; rewrite Hc, orb_true_r; simpl;
      rewrite ?salvar_historico_rastro; eexists;
      (split; [simpl; estende|]); (split; [exact Hn|]);
      intros [|[|[|[|[|i]]]]] a' c' Hi; discriminate.
  - simpl. rewrite Hc, orb_true_r. simpl.
    eexists. split; [estende|]. split; [exact Hn|].
    intros [|[|[|[|i]]]] a' c' Hi; discriminate.
Qed.

Lemma processar_novos_salva (novos : list atleta) :
  Forall valido novos ->
  forall p, 0 <= pr_postados p ->
  exists evs,
    rastro (pr_estado (processar_novos E novos p).2) = evs ++ rastro (pr_estado p) /\
    salva_apos_postar evs.
Proof.
  intros Hall. induction Hall as [|a novos Ha Hall IH]; intros p Hn.
  - exists []. split; [reflexivity|]. intros i a c Hi. discriminate.
  - destruct (processar_atleta_salva a p Ha Hn) as (e1 & Htr1 & Hn1 & Hs1).
    simpl. destruct (processar_atleta E a p) as [[[]|] p1]; simpl in *.
    + destruct (IH p1 Hn1) as (e2 & Htr2 & Hs2).
      exists (e2 ++ e1). split; [rewrite Htr2, Htr1, app_assoc; reflexivity|].
      apply salva_apos_postar_app; assumption.
    + exists e1. split; assumption.
Qed.

(** X15.  In the calls of [processar_resultados], whatever the
    collaborators do, the call made right after a posting that returned
    success is a save of the ledger, and the ledger saved holds the
    fingerprint of the record just posted: the entry is written to the
    file before the temporary files are cleaned and before the next
    record is touched. *)
Theorem processar_resultados_salva_apos_postar (resp : resposta)
  (h : historico) (st : estado) :
  let '(_, _, st') := processar_resultados E resp h st in
  salva_apos_postar (eventos_desde (rastro st) (rastro st')).
Proof.
  assert (Hnada : processar_resultados E resp h st = (0, h, st) ->
    let '(_, _, st') := processar_resultados E resp h st in
    salva_apos_postar (eventos_desde (rastro st) (rastro st'))).
  { intros ->. rewrite eventos_desde_refl. intros i a c Hi. discriminate. }
  destruct (resp_json resp) as [| |l] eqn:Hl;
    try solve [apply Hnada, processar_resultados_nada_novo; rewrite Hl; exact I].
  destruct (filtrar_novos l h) as [[|a novos]|] eqn:Hf;
    try solve [apply Hnada, processar_resultados_nada_novo; rewrite Hl; auto].
  rewrite (processar_resultados_lista E resp l h st a novos Hl Hf).
  pose proof (filtrar_novos_validos l h (a :: novos) Hf) as Hv.
  assert (Hval : Forall valido (a :: novos)).
  { eapply Forall_impl; [exact Hv|]. intros x [Hx _]. exact Hx. }
  destruct (processar_novos_salva (a :: novos) Hval (Progresso h 0 st))
    as (evs & Htr & Hs); [simpl; lia|].
  destruct (processar_novos E (a :: novos) (Progresso h 0 st)) as [[[]|] p];
    simpl in Htr.
  - rewrite salvar_historico_rastro, Htr, eventos_desde_cons.
    apply salva_apos_postar_cons; [reflexivity|exact Hs].
  - rewrite Htr, eventos_desde_app. exact Hs.
Qed.

End SalvaAposPostar.

(** ** The health server *)

Section HealthServerProps.

Import HealthServer.

Lemma criados_novo (tr : list event) (srv : nat) (r : outcome unit) :
  bem_formado tr -> ThreadStart srv r ∈ tr -> (srv < criados tr)%nat.
Proof.
  induction tr as [|ev tr IH]; intros Hb Hin; [inversion Hin|].
  destruct Hb as [Hev Hb]. apply elem_of_cons in Hin as [Hin|Hin].
  - subst ev. simpl in Hev. destruct tr as [|ev' tr']; [discriminate|].
    injection Hev as ->. destruct Hb as [-> _]. simpl. lia.
  - specialize (IH Hb Hin).
    destruct ev as [[]| | | | |]; simpl; lia.
Qed.

Lemma thread_start_unico (tr : list event) (srv : nat) (r1 r2 : outcome unit) :
  bem_formado tr ->
  ThreadStart srv r1 ∈ tr -> ThreadStart srv r2 ∈ tr -> r1 = r2.
Proof.
  induction tr as [|ev tr IH]; intros Hb H1 H2; [inversion H1|].
  destruct Hb as [Hev Hb].
  assert (Hnovo : forall r r', ev = ThreadStart srv r -> ThreadStart srv r' ∈ tr -> False).
  { intros r r' -> Hin. simpl in Hev.
    destruct tr as [|ev' tr']; [discriminate|]. injection Hev as ->.
    destruct Hb as [Hsrv Hb]. apply elem_of_cons in Hin as [Hin|Hin]; [discriminate|].
    pose proof (criados_novo tr' srv r' Hb Hin). lia. }
  apply elem_of_cons in H1 as [H1|H1]; apply elem_of_cons in H2 as [H2|H2].
  - congruence.
  - destruct (Hnovo r1 r2 (eq_sym H1) H2).
  - destruct (Hnovo r2 r1 (eq_sym H2) H1).
  - apply (IH Hb H1 H2).
Qed.

Lemma inv_start (M : mundo) (s : estado) : inv s -> inv (start M s).
Proof.
  intros [Hb Hr]. unfold start.
  destruct (running s) eqn:Hrun; [split; [exact Hb|rewrite Hrun; exact Hr]|].
  destruct (novo_servidor M (rastro s)).
  - cbv zeta.
    destruct (thread_start M (NovoServidor (Ret (criados (rastro s))) :: rastro s))
      as [[]|]; split; simpl; auto; try discriminate.
    intros _. eexists. repeat split. left.
  - split; simpl; auto. discriminate.
Qed.

Lemma inv_run_server (r : outcome unit) (s : estado) :
  inv s -> inv (_run_server r s).
Proof.
  intros [Hb Hr]. unfold _run_server.
  destruct (server s) eqn:Hs; destruct r as [[]|]; split; simpl;
    try exact Hb; try discriminate.
  rewrite Hs. exact Hr.
Qed.

Lemma inv_stop (M : mundo) (s : estado) : inv s -> inv (stop M s).
Proof.
  intros [Hb Hr]. unfold stop.
  destruct (running s) eqn:Hrun; simpl; [|split; [exact Hb|rewrite Hrun; exact Hr]].
  destruct (Hr eq_refl) as (srv & Hs & Ht & Hin).
  unfold parar_servidor. rewrite Hs, Ht. cbv zeta.
  destruct (shutdown M (rastro s)) as [[]|].
  - destruct (server_close M _) as [[]|].
    + destruct (is_alive M _); [destruct (join M _) as [[]|]|]; split; simpl;
        auto 10; try discriminate.
      intros _. exists srv. repeat split. do 4 right. exact Hin.
    + split; simpl; auto. intros _. exists srv. repeat split.
      do 2 right. exact Hin.
  - split; simpl; auto. intros _. exists srv. repeat split. right. exact Hin.
Qed.

Lemma inv_run (M : mundo) (ops : list op) :
  forall s, inv s -> inv (run M ops s).
Proof.
  induction ops as [|o ops IH]; intros s Hs; [exact Hs|].
  simpl. apply IH. destruct o; simpl;
    [apply inv_start|apply inv_stop|apply inv_run_server]; exact Hs.
Qed.

Lemma inv_inicial : inv inicial.
Proof. split; simpl; [exact I|discriminate]. Qed.

(** X16.  Whatever the world answers and in whatever order [start] and
    [stop] are called and the thread ends, every call is made in its
    place: [shutdown] only for a server whose thread was started,
    [server_close] only right after the [shutdown] of that server
    returned, [join] only right after the thread was seen alive; and
    while [running] is set, [server] and [thread] hold a server whose
    thread was started. *)
Theorem run_bem_formado (M : mundo) (ops : list op) :
  let s := run M ops inicial in
  bem_formado (rastro s) /\
  (running s = true ->
   exists srv, server s = Some srv /\ thread s = Some srv /\
     ThreadStart srv (Ret tt) ∈ rastro s).
Proof. exact (inv_run M ops inicial inv_inicial). Qed.

Lemma bem_formado_shutdown (tr : list event) (srv : nat) (r : outcome unit) :
  bem_formado tr ->
  Shutdown srv r ∈ tr \/ ServerClose srv r ∈ tr ->
  ThreadStart srv (Ret tt) ∈ tr.
Proof.
  induction tr as [|ev tr IH]; intros Hb Hin.
  - destruct Hin as [Hin|Hin]; inversion Hin.
  - destruct Hb as [Hev Hb].
    destruct Hin as [Hin|Hin]; apply elem_of_cons in Hin as [Hin|Hin].
    + subst ev. right. exact Hev.
    + right. apply IH; auto.
    + subst ev. simpl in Hev. destruct tr as [|ev' tr']; [discriminate|].
      injection Hev as ->. destruct Hb as [Hin _]. do 2 right. exact Hin.
    + right. apply IH; auto.
Qed.

(** X17.  A server whose thread could not be started is never shut down
    and never closed, whatever is called afterwards: [start] leaves
    [running] unset, so [stop] returns at once, and the next [start]
    that works puts another server in its place. *)
Theorem servidor_sem_thread_nunca_fechado (M : mundo) (ops : list op)
  (srv : nat) :
  ThreadStart srv Raise ∈ rastro (run M ops inicial) ->
  forall r, ~ Shutdown srv r ∈ rastro (run M ops inicial) /\
            ~ ServerClose srv r ∈ rastro (run M ops inicial).
Proof.
  intros Hin r. destruct (inv_run M ops inicial inv_inicial) as [Hb _].
  assert (H : Shutdown srv r ∈ rastro (run M ops inicial) \/
              ServerClose srv r ∈ rastro (run M ops inicial) -> False).
  { intros H. pose proof (bem_formado_shutdown _ srv r Hb H) as Hok.
    pose proof (thread_start_unico _ srv _ _ Hb Hin Hok). discriminate. }
  split; intros H'; apply H; auto.
Qed.

Lemma servidor_sem_thread_nunca_fechado_witness :
  let tr := rastro (run mundo_sem_thread [Start; Stop; Start; Stop] inicial) in
  ThreadStart 0 Raise ∈ tr /\
  forall r, ~ Shutdown 0 r ∈ tr /\ ~ ServerClose 0 r ∈ tr.
Proof.
  assert (Hin : ThreadStart 0 Raise
                  ∈ rastro (run mundo_sem_thread [Start; Stop; Start; Stop] inicial)).
  { vm_compute. do 2 right. left. }
  split; [exact Hin|].
  exact (servidor_sem_thread_nunca_fechado mundo_sem_thread
           [Start; Stop; Start; Stop] 0%nat Hin).
Defined.

End HealthServerProps.

(** ** The scheduled job *)

Section JobWrapper.

Context (A : agenda) (E : ambiente).

(** X18.  [job_wrapper] run after run, whatever the cycles do (also when
    they raise): the world is the one the cycles leave, [execucoes] grows
    by one per run and so counts the calls of [criar_pastas] made, and
    after a run the time of the last and of the next execution are set,
    the next one being the clock read plus ten minutes when the scheduler
    gives no job or raises. *)
Theorem job_wrapper_execucoes (dias : list string) (m : monitor) :
  let m' := execucoes_seguidas A E dias m in
  let evs := eventos_desde (rastro (mon_estado m)) (rastro (mon_estado m')) in
  mon_estado m' = ciclos E dias (mon_estado m) /\
  execucoes m' = execucoes m + Z.of_nat (length dias) /\
  execucoes m' = execucoes m + Z.of_nat (contar e_pastas evs) /\
  (dias <> [] ->
   is_Some (ultima_execucao m') /\
   exists t, proxima_execucao m' = Some t /\
     (get_jobs A (rastro (mon_estado m')) = Ret [] \/
      get_jobs A (rastro (mon_estado m')) = Raise ->
      t = agora A (rastro (mon_estado m')) + dez_minutos)).
Proof.
  cbv zeta.
  assert (H : mon_estado (execucoes_seguidas A E dias m)
              = ciclos E dias (mon_estado m) /\
              execucoes (execucoes_seguidas A E dias m)
              = execucoes m + Z.of_nat (length dias) /\
              (dias <> [] ->
               is_Some (ultima_execucao (execucoes_seguidas A E dias m)) /\
               exists t, proxima_execucao (execucoes_seguidas A E dias m) = Some t /\
                 (get_jobs A (rastro (mon_estado (execucoes_seguidas A E dias m))) = Ret [] \/
                  get_jobs A (rastro (mon_estado (execucoes_seguidas A E dias m))) = Raise ->
                  t = agora A (rastro (mon_estado (execucoes_seguidas A E dias m)))
                      + dez_minutos))).
  { revert m. induction dias as [|d dias IH]; intros m.
    - simpl. split; [reflexivity|]. split; [lia|]. intros Hne. contradiction.
    - simpl execucoes_seguidas. simpl ciclos.
      destruct (IH (job_wrapper A E d m)) as (Hst & Hex & Hset).
      split; [rewrite Hst; reflexivity|].
      split; [rewrite Hex; simpl; lia|]. intros _.
      destruct dias as [|d' dias']; [|apply Hset; discriminate].
      simpl. split; [eauto|]. eexists. split; [reflexivity|].
      intros [-> | ->]; reflexivity. }
  destruct H as (Hst & Hex & Hset).
  split; [exact Hst|]. split; [exact Hex|]. split; [|exact Hset].
  rewrite Hex, Hst.
  assert (Hc : forall ds st, exists evs,
    rastro (ciclos E ds st) = evs ++ rastro st /\
    contar e_pastas evs = length ds).
  { induction ds as [|d ds IH]; intros st.
    - exists []. split; reflexivity.
    - simpl ciclos.
      destruct (buscar_contagem E d st) as (e1 & Htr1 & Hp1 & _).
      destruct (IH (buscar_e_processar_novos E d st).2) as (e2 & Htr2 & Hp2).
      exists (e2 ++ e1). split; [rewrite Htr2, Htr1, app_assoc; reflexivity|].
      rewrite contar_app. simpl. lia. }
  destruct (Hc dias (mon_estado m)) as (evs & Htr & Hp).
  rewrite Htr, eventos_desde_app, Hp. reflexivity.
Qed.

End JobWrapper.
